(** * State synchronisation layer of the pizza ordering app

  A shallow embedding of the reducers and remote-service adapters of
  [lib/context/CartContext.tsx], [lib/services/cartSyncService.ts],
  [lib/services/userProfileService.ts], [lib/context/UserContext.tsx]
  and [lib/context/OrderContext.tsx], followed by the properties the
  specification states about them.

  Conventions of the embedding.
  - A JavaScript [number] holding an amount of money or a quantity is a
    [Z]: amounts are whole rupees and quantities whole units.  On such
    values the IEEE product [subtotal * 0.15] followed by [Math.round]
    agrees with the exact round-half-up, which is what [Math_round]
    below computes over the fraction [15 * subtotal / 100].
  - An array is a [list]; [Array.prototype.filter] is stdpp's [filter],
    [map] with an index is [imap], [reduce] is [foldl].
  - A JavaScript [Set] of strings is a [gset string].
  - A remote table is the list of its rows; a query ending in
    [.single()] yields a row exactly when one row matches.
  - Asynchronous functions are run to completion between two user
    operations; they are state-passing functions on a record holding
    the React state and the remote tables. *)

From Stdlib Require Import ZArith Lia.
From stdpp Require Import base decidable option list strings gmap sorting.

Local Open Scope string_scope.
Local Open Scope Z_scope.
Local Open Scope list_scope.

(** ** JavaScript helpers *)

Module JS.

(** [Math.round (n / d)] for an exact fraction with a positive
    denominator: the nearest integer, halves going up. *)
Definition Math_round (n d : Z) : Z := (2 * n + d) / (2 * d).

(** [arr.findIndex(p)]: the first position satisfying [p], or [-1]. *)
Fixpoint findIndex_from {A} (p : A → bool) (l : list A) (i : Z) : Z :=
  match l with
  | [] => -1
  | x :: l' => if p x then i else findIndex_from p l' (i + 1)
  end.

Definition findIndex {A} (p : A → bool) (l : list A) : Z :=
  findIndex_from p l 0.

(** [s.split(c)[0]]: the text before the first occurrence of [c], the
    whole string when [c] does not occur. *)
Fixpoint split_head (c : Ascii.ascii) (s : string) : string :=
  match s with
  | EmptyString => EmptyString
  | String a s' =>
      if bool_decide (a = c) then EmptyString else String a (split_head c s')
  end.

(** The character ['@']. *)
Definition at_sign : Ascii.ascii := Ascii.ascii_of_nat 64.

(** Truthiness of a possibly absent string: [null] and the empty string
    are falsy. *)
Definition truthy (s : option string) : bool :=
  match s with
  | Some v => negb (bool_decide (v = EmptyString))
  | None => false
  end.

End JS.

(** ** The remote store *)

Module Supabase.

(** [.single()]: data only when the selection has exactly one row. *)
Definition single {A} (rows : list A) : option A :=
  match rows with
  | [r] => Some r
  | _ => None
  end.

(** [.update(f).eq(...)]: every row selected by [sel] is rewritten. *)
Definition update {A} (sel : A → bool) (f : A → A) (rows : list A) : list A :=
  (λ r, if sel r then f r else r) <$> rows.

End Supabase.

(** ** CartContext.tsx: the cart reducer *)

Module CartContext.

Inductive CartItemType := menu_item | custom_pizza | deal.

(** The optional display and customisation fields of the source record
    ([menuItem], [size], [pizzaCustomization], [deal], [customizations],
    [image]) are copied unchanged by every operation and read by none;
    [description] stands for them. *)
Record CartItem := {
  id : string;
  type : CartItemType;
  quantity : Z;
  totalPrice : Z;
  name : string;
  description : option string;
}.

Global Instance CartItemType_eq_dec : EqDecision CartItemType.
Proof. solve_decision. Defined.

Global Instance CartItem_eq_dec : EqDecision CartItem.
Proof. solve_decision. Defined.

(** [{ ...item, quantity: q }] *)
Definition with_quantity (item : CartItem) (q : Z) : CartItem :=
  {| id := id item; type := type item; quantity := q;
     totalPrice := totalPrice item; name := name item;
     description := description item |}.

Record Totals := {
  t_subtotal : Z;
  t_deliveryFee : Z;
  t_tax : Z;
  t_total : Z;
}.

Record CartState := {
  items : list CartItem;
  subtotal : Z;
  deliveryFee : Z;
  tax : Z;
  total : Z;
  isLoading : bool;
}.

Inductive CartAction :=
| ADD_ITEM (payload : CartItem)
| REMOVE_ITEM (payload : string)
| UPDATE_QUANTITY (payload_id : string) (payload_quantity : Z)
| CLEAR_CART
| LOAD_CART (payload : list CartItem)
| SET_LOADING (payload : bool).

Definition initialState : CartState :=
  {| items := []; subtotal := 0; deliveryFee := 0; tax := 0; total := 0;
     isLoading := false |}.

Definition calculateTotals (items : list CartItem) : Totals :=
  let subtotal := foldl (λ sum item, sum + totalPrice item) 0 items in
  let deliveryFee := if bool_decide (subtotal > 1000) then 0 else 150 in
  let tax := JS.Math_round (subtotal * 15) 100 in
  let total := subtotal + deliveryFee + tax in
  {| t_subtotal := subtotal; t_deliveryFee := deliveryFee;
     t_tax := tax; t_total := total |}.

(** [{ ...state, items: newItems, ...totals }] *)
Definition with_items (state : CartState) (newItems : list CartItem)
    (totals : Totals) : CartState :=
  {| items := newItems;
     subtotal := t_subtotal totals; deliveryFee := t_deliveryFee totals;
     tax := t_tax totals; total := t_total totals;
     isLoading := isLoading state |}.

Definition cartReducer (state : CartState) (action : CartAction) : CartState :=
  match action with
  | ADD_ITEM payload =>
      let existingItemIndex :=
        JS.findIndex (λ item, bool_decide (id item = id payload)) (items state) in
      let newItems :=
        if bool_decide (existingItemIndex >= 0) then
          imap (λ index item,
                  if bool_decide (Z.of_nat index = existingItemIndex)
                  then with_quantity item (quantity item + quantity payload)
                  else item) (items state)
        else items state ++ [payload] in
      with_items state newItems (calculateTotals newItems)
  | REMOVE_ITEM payload =>
      let newItems := filter (λ item, id item ≠ payload) (items state) in
      with_items state newItems (calculateTotals newItems)
  | UPDATE_QUANTITY payload_id payload_quantity =>
      let newItems :=
        filter (λ item, quantity item > 0)
          ((λ item, if bool_decide (id item = payload_id)
                    then with_quantity item payload_quantity
                    else item) <$> items state) in
      with_items state newItems (calculateTotals newItems)
  | CLEAR_CART => initialState
  | LOAD_CART payload =>
      with_items state payload (calculateTotals payload)
  | SET_LOADING payload =>
      {| items := items state; subtotal := subtotal state;
         deliveryFee := deliveryFee state; tax := tax state;
         total := total state; isLoading := payload |}
  end.

End CartContext.

(** ** cartSyncService.ts: the remote cart table *)

Module CartSyncService.

Import CartContext.

(** A row of [user_cart_sessions].  The generated columns [id],
    [created_at] and [updated_at] are never read back by the client and
    are left out; [cart_items] is a nullable JSON column. *)
Record CartSession := {
  user_id : string;
  cart_items : option (list CartItem);
  total_amount : Z;
}.

Definition for_user (userId : string) (row : CartSession) : bool :=
  bool_decide (user_id row = userId).

Definition getCart (table : list CartSession) (userId : string) : list CartItem :=
  match Supabase.single (filter (λ row, user_id row = userId) table) with
  | Some data => default [] (cart_items data)
  | None => []
  end.

Definition syncCart (table : list CartSession) (userId : string)
    (cartItems : list CartItem) (totalAmount : Z) : list CartSession :=
  match Supabase.single (filter (λ row, user_id row = userId) table) with
  | Some existingCart =>
      Supabase.update (for_user userId)
        (λ row, {| user_id := user_id row; cart_items := Some cartItems;
                   total_amount := totalAmount |}) table
  | None =>
      table ++ [ {| user_id := userId; cart_items := Some cartItems;
                    total_amount := totalAmount |} ]
  end.

Definition clearCart (table : list CartSession) (userId : string)
    : list CartSession :=
  Supabase.update (for_user userId)
    (λ row, {| user_id := user_id row; cart_items := Some [];
               total_amount := 0 |}) table.

Definition deleteCart (table : list CartSession) (userId : string)
    : list CartSession :=
  filter (λ row, user_id row ≠ userId) table.

(** The loop [serverCart.forEach(...)] pushing onto [mergedCart]. *)
Definition push_missing (localIds : gset string) (mergedCart : list CartItem)
    (serverItem : CartItem) : list CartItem :=
  if bool_decide (id serverItem ∈ localIds) then mergedCart
  else mergedCart ++ [serverItem].

(** Returns the [cart] of the result (its [error] is always [null]: both
    [getCart] and [syncCart] catch their own failures) and the table after
    the write. *)
Definition mergeAndSyncCart (table : list CartSession) (userId : string)
    (localCart : list CartItem) (localTotal : Z)
    : list CartItem * list CartSession :=
  let serverCart := getCart table userId in
  let localIds : gset string := list_to_set (id <$> localCart) in
  let mergedCart := foldl (push_missing localIds) localCart serverCart in
  let newTotal := foldl (λ sum item, sum + totalPrice item) 0 mergedCart in
  (mergedCart, syncCart table userId mergedCart newTotal).

End CartSyncService.

(** ** CartContext.tsx: the provider's operations *)

Module CartProvider.

Import CartContext.

(** What the provider's callbacks see: the reducer state of the current
    render, the authenticated user reported by [supabase.auth.getUser]
    and the remote table.  The device cache ([AsyncStorage]) only mirrors
    [items] and is left out. *)
Record World := {
  state : CartState;
  user : option string;
  user_cart_sessions : list CartSyncService.CartSession;
}.

Definition dispatch (w : World) (action : CartAction) : World :=
  {| state := cartReducer (state w) action; user := user w;
     user_cart_sessions := user_cart_sessions w |}.

Definition with_table (w : World) (table : list CartSyncService.CartSession)
    : World :=
  {| state := state w; user := user w; user_cart_sessions := table |}.

(** [if (user && user.id)] then push, using the items of the render in
    which the callback was created (the state before the dispatch). *)
Definition when_signed_in (w : World)
    (push : string → list CartSyncService.CartSession
            → list CartSyncService.CartSession) (w' : World) : World :=
  match user w with
  | Some uid =>
      if JS.truthy (Some uid)
      then with_table w' (push uid (user_cart_sessions w'))
      else w'
  | None => w'
  end.

Definition addItem (w : World) (item : CartItem) : World :=
  dispatch w (ADD_ITEM item).

Definition removeItem (w : World) (id0 : string) : World :=
  let w' := dispatch w (REMOVE_ITEM id0) in
  when_signed_in w
    (λ uid table,
       let totals :=
         calculateTotals (filter (λ item, id item ≠ id0) (items (state w))) in
       CartSyncService.syncCart table uid
         (filter (λ item, id item ≠ id0) (items (state w))) (t_total totals))
    w'.

Definition updateQuantity (w : World) (id0 : string) (quantity0 : Z) : World :=
  let w' := dispatch w (UPDATE_QUANTITY id0 quantity0) in
  when_signed_in w
    (λ uid table,
       let updatedItems :=
         (λ item, if bool_decide (id item = id0)
                  then with_quantity item quantity0 else item)
           <$> items (state w) in
       let totals := calculateTotals updatedItems in
       CartSyncService.syncCart table uid updatedItems (t_total totals))
    w'.

Definition clearCart (w : World) : World :=
  let w' := dispatch w CLEAR_CART in
  when_signed_in w (λ uid table, CartSyncService.syncCart table uid [] 0) w'.

Definition syncCartWithServer (w : World) (userId : string) : World :=
  let totals := calculateTotals (items (state w)) in
  with_table w
    (CartSyncService.syncCart (user_cart_sessions w) userId
       (items (state w)) (t_total totals)).

Definition loadCartFromServer (w : World) (userId : string) : World :=
  let w1 := dispatch w (SET_LOADING true) in
  let localCart := items (state w) in
  let localTotals := calculateTotals localCart in
  let '(mergedCart, table) :=
    CartSyncService.mergeAndSyncCart (user_cart_sessions w1) userId
      localCart (t_total localTotals) in
  let w2 := dispatch (with_table w1 table) (LOAD_CART mergedCart) in
  dispatch w2 (SET_LOADING false).

(** The three mutations of the cart the specification quantifies over. *)
Inductive CartOp :=
| OpAddItem (item : CartItem)
| OpRemoveItem (id0 : string)
| OpUpdateQuantity (id0 : string) (quantity0 : Z).

Definition apply_op (w : World) (op : CartOp) : World :=
  match op with
  | OpAddItem item => addItem w item
  | OpRemoveItem id0 => removeItem w id0
  | OpUpdateQuantity id0 quantity0 => updateQuantity w id0 quantity0
  end.

Definition run (w : World) (ops : list CartOp) : World := foldl apply_op w ops.

(** A freshly mounted provider. *)
Definition mount (user0 : option string)
    (table : list CartSyncService.CartSession) : World :=
  {| state := initialState; user := user0; user_cart_sessions := table |}.

(** [addToCart] of the menu screen: a line of [quantity0] units of a size
    priced [price]. *)
Definition menuCartItem (id0 name0 : string) (price quantity0 : Z) : CartItem :=
  {| id := id0; type := menu_item; quantity := quantity0;
     totalPrice := price * quantity0; name := name0;
     description := None |}.

End CartProvider.

(** ** userProfileService.ts: profiles, addresses and preferences *)

Module UserProfileService.

(** Rows of [user_profiles].  [user_id] is empty for a profile recorded
    before its owner authenticated.  The timestamp columns are never read
    by the client and are left out. *)
Module UserProfile.
Record t := {
  id : string;
  user_id : option string;
  name : option string;
  email : string;
  phone : option string;
  avatar_url : option string;
}.
End UserProfile.

(** Rows of [user_addresses]; [created_at] is the instant of creation. *)
Module UserAddress.
Record t := {
  id : string;
  user_profile_id : string;
  title : string;
  street : string;
  city : string;
  zip_code : string;
  is_default : bool;
  created_at : Z;
}.
End UserAddress.

(** Rows of [user_preferences]; the settings columns take the defaults of
    the table and are not read here. *)
Module UserPreferences.
Record t := {
  id : string;
  user_id : string;
}.
End UserPreferences.

Global Instance UserProfile_eq_dec : EqDecision UserProfile.t.
Proof. solve_decision. Defined.

Global Instance UserAddress_eq_dec : EqDecision UserAddress.t.
Proof. solve_decision. Defined.

Record Remote := {
  user_profiles : list UserProfile.t;
  user_addresses : list UserAddress.t;
  user_preferences : list UserPreferences.t;
}.

Definition with_profiles (db : Remote) (rows : list UserProfile.t) : Remote :=
  {| user_profiles := rows; user_addresses := user_addresses db;
     user_preferences := user_preferences db |}.

Definition with_addresses (db : Remote) (rows : list UserAddress.t) : Remote :=
  {| user_profiles := user_profiles db; user_addresses := rows;
     user_preferences := user_preferences db |}.

Definition with_preferences (db : Remote) (rows : list UserPreferences.t)
    : Remote :=
  {| user_profiles := user_profiles db; user_addresses := user_addresses db;
     user_preferences := rows |}.

(** [.update({ user_id: userId })] on a profile row. *)
Definition set_user_id (userId : string) (row : UserProfile.t) : UserProfile.t :=
  {| UserProfile.id := UserProfile.id row;
     UserProfile.user_id := Some userId;
     UserProfile.name := UserProfile.name row;
     UserProfile.email := UserProfile.email row;
     UserProfile.phone := UserProfile.phone row;
     UserProfile.avatar_url := UserProfile.avatar_url row |}.

(** [.update({ is_default: b })] on an address row. *)
Definition set_is_default (b : bool) (row : UserAddress.t) : UserAddress.t :=
  {| UserAddress.id := UserAddress.id row;
     UserAddress.user_profile_id := UserAddress.user_profile_id row;
     UserAddress.title := UserAddress.title row;
     UserAddress.street := UserAddress.street row;
     UserAddress.city := UserAddress.city row;
     UserAddress.zip_code := UserAddress.zip_code row;
     UserAddress.is_default := b;
     UserAddress.created_at := UserAddress.created_at row |}.

(** [.order('is_default', { ascending: false })
     .order('created_at', { ascending: false })] *)
Definition address_before (a b : UserAddress.t) : bool :=
  if bool_decide (UserAddress.is_default a = UserAddress.is_default b)
  then bool_decide (UserAddress.created_at b ≤ UserAddress.created_at a)
  else UserAddress.is_default a.

Section Service.

(** The identifier the store generates for an inserted row. *)
Variable gen_random_uuid : Remote → string.

Definition getOrCreatePreferences (db : Remote) (userId : string)
    : option UserPreferences.t * Remote :=
  match Supabase.single
          (filter (λ row, UserPreferences.user_id row = userId)
             (user_preferences db)) with
  | Some existingPrefs => (Some existingPrefs, db)
  | None =>
      let newPrefs :=
        {| UserPreferences.id := gen_random_uuid db;
           UserPreferences.user_id := userId |} in
      (Some newPrefs, with_preferences db (user_preferences db ++ [newPrefs]))
  end.

Definition getOrCreateProfile (db : Remote) (userId email0 : string)
    : option UserProfile.t * Remote :=
  match Supabase.single
          (filter (λ row, UserProfile.user_id row = Some userId)
             (user_profiles db)) with
  | Some existingProfile => (Some existingProfile, db)
  | None =>
      match Supabase.single
              (filter (λ row, UserProfile.email row = email0)
                 (user_profiles db)) with
      | Some profileByEmail =>
          let db' :=
            with_profiles db
              (Supabase.update
                 (λ row, bool_decide
                           (UserProfile.id row = UserProfile.id profileByEmail))
                 (set_user_id userId) (user_profiles db)) in
          match Supabase.single
                  (filter (λ row, UserProfile.id row
                                  = UserProfile.id profileByEmail)
                     (user_profiles db')) with
          | Some updatedProfile => (Some updatedProfile, db')
          | None => (None, db')
          end
      | None =>
          let newProfile :=
            {| UserProfile.id := gen_random_uuid db;
               UserProfile.user_id := Some userId;
               UserProfile.name := Some (JS.split_head JS.at_sign email0);
               UserProfile.email := email0;
               UserProfile.phone := None;
               UserProfile.avatar_url := None |} in
          let db' := with_profiles db (user_profiles db ++ [newProfile]) in
          (Some newProfile, snd (getOrCreatePreferences db' userId))
      end
  end.

End Service.

Definition getAddresses (db : Remote) (userProfileId : string)
    : list UserAddress.t :=
  merge_sort (λ a b, Is_true (address_before a b))
    (filter (λ row, UserAddress.user_profile_id row = userProfileId)
       (user_addresses db)).

Definition deleteAddress (db : Remote) (addressId userProfileId : string)
    : Remote :=
  with_addresses db
    (filter (λ row, ¬ (UserAddress.id row = addressId
                       ∧ UserAddress.user_profile_id row = userProfileId))
       (user_addresses db)).

(** The first request of [setDefaultAddress]: unset all defaults. *)
Definition unset_defaults (db : Remote) (userProfileId : string) : Remote :=
  with_addresses db
    (Supabase.update
       (λ row, bool_decide (UserAddress.user_profile_id row = userProfileId))
       (set_is_default false) (user_addresses db)).

(** The second request of [setDefaultAddress]: set the new default. *)
Definition set_default (db : Remote) (addressId userProfileId : string)
    : Remote :=
  with_addresses db
    (Supabase.update
       (λ row, bool_decide (UserAddress.id row = addressId)
               && bool_decide (UserAddress.user_profile_id row = userProfileId))
       (set_is_default true) (user_addresses db)).

Definition setDefaultAddress (db : Remote) (addressId userProfileId : string)
    : Remote :=
  set_default (unset_defaults db userProfileId) addressId userProfileId.

End UserProfileService.

(** ** UserContext.tsx: the profile reducer and its address operations *)

Module UserContext.

Module UserAddress.
Record t := {
  id : string;
  title : string;
  street : string;
  city : string;
  zip : string;
  isDefault : bool;
}.

(** [Partial<UserAddress>]: an absent key is [None]. *)
Record partial := {
  p_id : option string;
  p_title : option string;
  p_street : option string;
  p_city : option string;
  p_zip : option string;
  p_isDefault : option bool;
}.
End UserAddress.

Record UserProfile := {
  id : string;
  name : string;
  email : string;
  phone : string;
  avatar : option string;
  addresses : list UserAddress.t;
}.

(** [Partial<UserProfile>] *)
Record PartialUserProfile := {
  p_id : option string;
  p_name : option string;
  p_email : option string;
  p_phone : option string;
  p_avatar : option (option string);
  p_addresses : option (list UserAddress.t);
}.

Record UserState := {
  profile : option UserProfile;
  isLoading : bool;
}.

Inductive UserAction :=
| SET_LOADING (payload : bool)
| SET_PROFILE (payload : UserProfile)
| UPDATE_PROFILE (payload : PartialUserProfile)
| ADD_ADDRESS (payload : UserAddress.t)
| UPDATE_ADDRESS (payload_id : string) (payload_address : UserAddress.partial)
| DELETE_ADDRESS (payload : string)
| SET_DEFAULT_ADDRESS (payload : string).

Definition initialState : UserState :=
  {| profile := None; isLoading := false |}.

(** [{ ...profile, addresses: l }] *)
Definition with_addresses (p : UserProfile) (l : list UserAddress.t)
    : UserProfile :=
  {| id := id p; name := name p; email := email p; phone := phone p;
     avatar := avatar p; addresses := l |}.

(** [{ ...state, profile: p }] *)
Definition with_profile (state : UserState) (p : UserProfile) : UserState :=
  {| profile := Some p; isLoading := isLoading state |}.

(** [{ ...profile, ...payload }] *)
Definition merge_profile (p : UserProfile) (u : PartialUserProfile)
    : UserProfile :=
  {| id := default (id p) (p_id u);
     name := default (name p) (p_name u);
     email := default (email p) (p_email u);
     phone := default (phone p) (p_phone u);
     avatar := default (avatar p) (p_avatar u);
     addresses := default (addresses p) (p_addresses u) |}.

(** [{ ...addr, ...payload.address }] *)
Definition merge_address (a : UserAddress.t) (u : UserAddress.partial)
    : UserAddress.t :=
  {| UserAddress.id := default (UserAddress.id a) (UserAddress.p_id u);
     UserAddress.title := default (UserAddress.title a) (UserAddress.p_title u);
     UserAddress.street :=
       default (UserAddress.street a) (UserAddress.p_street u);
     UserAddress.city := default (UserAddress.city a) (UserAddress.p_city u);
     UserAddress.zip := default (UserAddress.zip a) (UserAddress.p_zip u);
     UserAddress.isDefault :=
       default (UserAddress.isDefault a) (UserAddress.p_isDefault u) |}.

(** [{ ...addr, isDefault: b }] *)
Definition with_isDefault (a : UserAddress.t) (b : bool) : UserAddress.t :=
  {| UserAddress.id := UserAddress.id a;
     UserAddress.title := UserAddress.title a;
     UserAddress.street := UserAddress.street a;
     UserAddress.city := UserAddress.city a;
     UserAddress.zip := UserAddress.zip a;
     UserAddress.isDefault := b |}.

Definition userReducer (state : UserState) (action : UserAction) : UserState :=
  match action with
  | SET_LOADING payload =>
      {| profile := profile state; isLoading := payload |}
  | SET_PROFILE payload =>
      {| profile := Some payload; isLoading := false |}
  | UPDATE_PROFILE payload =>
      match profile state with
      | None => state
      | Some p => with_profile state (merge_profile p payload)
      end
  | ADD_ADDRESS payload =>
      match profile state with
      | None => state
      | Some p =>
          with_profile state (with_addresses p (addresses p ++ [payload]))
      end
  | UPDATE_ADDRESS payload_id payload_address =>
      match profile state with
      | None => state
      | Some p =>
          with_profile state
            (with_addresses p
               ((λ addr, if bool_decide (UserAddress.id addr = payload_id)
                         then merge_address addr payload_address
                         else addr) <$> addresses p))
      end
  | DELETE_ADDRESS payload =>
      match profile state with
      | None => state
      | Some p =>
          with_profile state
            (with_addresses p
               (filter (λ addr, UserAddress.id addr ≠ payload) (addresses p)))
      end
  | SET_DEFAULT_ADDRESS payload =>
      match profile state with
      | None => state
      | Some p =>
          with_profile state
            (with_addresses p
               ((λ addr, with_isDefault addr
                           (bool_decide (UserAddress.id addr = payload)))
                  <$> addresses p))
      end
  end.

(** The conversion of a remote row to the local shape, as written out in
    every address operation of the provider. *)
Definition to_local (addr : UserProfileService.UserAddress.t) : UserAddress.t :=
  {| UserAddress.id := UserProfileService.UserAddress.id addr;
     UserAddress.title := UserProfileService.UserAddress.title addr;
     UserAddress.street := UserProfileService.UserAddress.street addr;
     UserAddress.city := UserProfileService.UserAddress.city addr;
     UserAddress.zip := UserProfileService.UserAddress.zip_code addr;
     UserAddress.isDefault := UserProfileService.UserAddress.is_default addr |}.

(** What the provider's callbacks see: the reducer state, the two keys of
    the device cache they use and the remote tables. *)
Record World := {
  state : UserState;
  storage_userId : option string;
  storage_userProfile : option UserProfile;
  remote : UserProfileService.Remote;
}.

Definition dispatch (w : World) (action : UserAction) : World :=
  {| state := userReducer (state w) action;
     storage_userId := storage_userId w;
     storage_userProfile := storage_userProfile w;
     remote := remote w |}.

(** [userId && state.profile && state.profile.id !== 'default-user'] *)
Definition remote_profile (w : World) : option UserProfile :=
  if JS.truthy (storage_userId w) then
    match profile (state w) with
    | Some p => if bool_decide (id p ≠ "default-user") then Some p else None
    | None => None
    end
  else None.

(** Refetch all addresses and replace the profile with the result. *)
Definition refresh_addresses (w : World) (p : UserProfile)
    (db : UserProfileService.Remote) : World :=
  let allAddresses := UserProfileService.getAddresses db (id p) in
  let updatedProfile := with_addresses p (to_local <$> allAddresses) in
  {| state := userReducer (state w) (SET_PROFILE updatedProfile);
     storage_userId := storage_userId w;
     storage_userProfile := Some updatedProfile;
     remote := db |}.

Definition deleteAddress (w : World) (id0 : string) : World :=
  match remote_profile w with
  | Some p =>
      refresh_addresses w p
        (UserProfileService.deleteAddress (remote w) id0 (id p))
  | None => dispatch w (DELETE_ADDRESS id0)
  end.

Definition setDefaultAddress (w : World) (id0 : string) : World :=
  match remote_profile w with
  | Some p =>
      refresh_addresses w p
        (UserProfileService.setDefaultAddress (remote w) id0 (id p))
  | None => dispatch w (SET_DEFAULT_ADDRESS id0)
  end.

End UserContext.

(** ** OrderContext.tsx: the order reducer *)

Module OrderContext.

(** Of the columns of an order only [id] and [order_status] are read by
    the reducer; [order_number] stands for the others. *)
Record ExtendedOrder := {
  id : string;
  order_number : string;
  order_status : string;
}.

Global Instance ExtendedOrder_eq_dec : EqDecision ExtendedOrder.
Proof. solve_decision. Defined.

Record OrderState := {
  orders : list ExtendedOrder;
  activeOrders : list ExtendedOrder;
  orderHistory : list ExtendedOrder;
  loading : bool;
  error : option string;
}.

Inductive OrderAction :=
| SET_LOADING (payload : bool)
| SET_ORDERS (payload : list ExtendedOrder)
| ADD_ORDER (payload : ExtendedOrder)
| UPDATE_ORDER (payload : ExtendedOrder)
| SET_ERROR (payload : option string)
| CLEAR_ORDERS.

Definition initialState : OrderState :=
  {| orders := []; activeOrders := []; orderHistory := [];
     loading := false; error := None |}.

(** [[...].includes(order.order_status)] for the two literal arrays. *)
Definition is_active (order : ExtendedOrder) : Prop :=
  order_status order ∈
    ["pending"; "confirmed"; "preparing"; "ready"; "out_for_delivery"].

Definition is_history (order : ExtendedOrder) : Prop :=
  order_status order ∈ ["delivered"; "cancelled"].

Global Instance is_active_dec order : Decision (is_active order).
Proof. unfold is_active. apply _. Defined.

Global Instance is_history_dec order : Decision (is_history order).
Proof. unfold is_history. apply _. Defined.

Definition orderReducer (state : OrderState) (action : OrderAction)
    : OrderState :=
  match action with
  | SET_LOADING payload =>
      {| orders := orders state; activeOrders := activeOrders state;
         orderHistory := orderHistory state; loading := payload;
         error := error state |}
  | SET_ORDERS payload =>
      let orders0 := payload in
      let activeOrders0 := filter is_active orders0 in
      let orderHistory0 := filter is_history orders0 in
      {| orders := orders0; activeOrders := activeOrders0;
         orderHistory := orderHistory0; loading := false; error := None |}
  | ADD_ORDER payload =>
      let newOrders := payload :: orders state in
      let newActiveOrders := filter is_active newOrders in
      let newOrderHistory := filter is_history newOrders in
      {| orders := newOrders; activeOrders := newActiveOrders;
         orderHistory := newOrderHistory; loading := loading state;
         error := error state |}
  | UPDATE_ORDER payload =>
      let updatedOrders :=
        (λ order, if bool_decide (id order = id payload) then payload else order)
          <$> orders state in
      let updatedActiveOrders := filter is_active updatedOrders in
      let updatedOrderHistory := filter is_history updatedOrders in
      {| orders := updatedOrders; activeOrders := updatedActiveOrders;
         orderHistory := updatedOrderHistory; loading := loading state;
         error := error state |}
  | SET_ERROR payload =>
      {| orders := orders state; activeOrders := activeOrders state;
         orderHistory := orderHistory state; loading := false;
         error := payload |}
  | CLEAR_ORDERS =>
      {| orders := []; activeOrders := []; orderHistory := [];
         loading := loading state; error := None |}
  end.

End OrderContext.

(** ** Notions of the specification *)

Module Spec.

Import CartContext.

(** The sum over the items' [totalPrice] fields. *)
Fixpoint sum_prices (l : list CartItem) : Z :=
  match l with
  | [] => 0
  | item :: l' => totalPrice item + sum_prices l'
  end.

(** [t] is [n / d] rounded to the nearest integer, halves going up:
    [t - 1/2 <= n/d < t + 1/2]. *)
Definition rounds_to (n d t : Z) : Prop :=
  2 * d * t - d ≤ 2 * n ∧ 2 * n < 2 * d * t + d.

(** The four derived fields as stored in a cart state. *)
Definition stored_totals (s : CartState) : Totals :=
  {| t_subtotal := subtotal s; t_deliveryFee := deliveryFee s;
     t_tax := tax s; t_total := total s |}.

(** The stored derived fields are those of the current items. *)
Definition in_sync (s : CartState) : Prop :=
  stored_totals s = calculateTotals (items s).

(** The data model's bound on quantities. *)
Definition quantities_positive (l : list CartItem) : Prop :=
  Forall (λ item, 1 ≤ quantity item) l.

(** An operation whose added quantity respects the data model. *)
Definition adds_positive (op : CartProvider.CartOp) : Prop :=
  match op with
  | CartProvider.OpAddItem item => 1 ≤ quantity item
  | _ => True
  end.

(** The action an operation of the provider dispatches. *)
Definition action_of (op : CartProvider.CartOp) : CartAction :=
  match op with
  | CartProvider.OpAddItem item => ADD_ITEM item
  | CartProvider.OpRemoveItem id0 => REMOVE_ITEM id0
  | CartProvider.OpUpdateQuantity id0 quantity0 =>
      UPDATE_QUANTITY id0 quantity0
  end.

(** Rewrite the first element satisfying [p] with [g]. *)
Fixpoint rewrite_first {A} (p : A → bool) (g : A → A) (l : list A) : list A :=
  match l with
  | [] => []
  | x :: l' => if p x then g x :: l' else x :: rewrite_first p g l'
  end.

(** The two lines of the specification's first scenario. *)
Definition item_A : CartItem := CartProvider.menuCartItem "A" "item A" 500 2.
Definition item_B : CartItem := CartProvider.menuCartItem "B" "item B" 1000 1.

(** A line added with no unit at all. *)
Definition item_Z : CartItem := CartProvider.menuCartItem "Z" "item Z" 500 0.

(** [{ ...item, quantity }] on the lines with the given id. *)
Definition set_quantity (id0 : string) (q : Z) (item : CartItem) : CartItem :=
  if bool_decide (id item = id0) then with_quantity item q else item.

(** Local items in order, then the remote items whose id is not the id of
    a local item. *)
Definition merged (localCart remoteCart : list CartItem) : list CartItem :=
  localCart ++ filter (λ item, id item ∉ id <$> localCart) remoteCart.

(** The second scenario: item X is in the local cart with 2 units and in
    the remote cart with 5, item Y is in the remote cart only. *)
Definition item_X_local : CartItem :=
  CartProvider.menuCartItem "X" "item X" 400 2.
Definition item_X_remote : CartItem :=
  CartProvider.menuCartItem "X" "item X" 400 5.
Definition item_Y : CartItem := CartProvider.menuCartItem "Y" "item Y" 300 1.

Definition remote_XY : list CartSyncService.CartSession :=
  [ {| CartSyncService.user_id := "u0";
       CartSyncService.cart_items := Some [item_A];
       CartSyncService.total_amount := 1300 |};
    {| CartSyncService.user_id := "u1";
       CartSyncService.cart_items := Some [item_X_remote; item_Y];
       CartSyncService.total_amount := 2795 |} ].

(** The row [syncCart] leaves for a user. *)
Definition session_row (uid : string) (l : list CartItem) (amount : Z)
    : CartSyncService.CartSession :=
  {| CartSyncService.user_id := uid; CartSyncService.cart_items := Some l;
     CartSyncService.total_amount := amount |}.

(** The amount of a row is the total [calculateTotals] gives for the
    items of the row. *)
Definition total_recomputed (row : CartSyncService.CartSession) : Prop :=
  ∀ l, CartSyncService.cart_items row = Some l →
       CartSyncService.total_amount row = t_total (calculateTotals l).

(** The profiles bound to an identity, and those recorded with an email. *)
Definition profiles_of (db : UserProfileService.Remote) (userId : string)
    : list UserProfileService.UserProfile.t :=
  filter (λ row, UserProfileService.UserProfile.user_id row = Some userId)
    (UserProfileService.user_profiles db).

Definition profiles_with_email (db : UserProfileService.Remote)
    (email0 : string) : list UserProfileService.UserProfile.t :=
  filter (λ row, UserProfileService.UserProfile.email row = email0)
    (UserProfileService.user_profiles db).

(** The character [c] occurs in [s]. *)
Definition occurs (c : Ascii.ascii) (s : string) : Prop :=
  c ∈ String.list_ascii_of_string s.

(** A store holding one profile recorded at a guest checkout and one
    bound to another identity; its generated ids. *)
Definition guest_ali : UserProfileService.UserProfile.t :=
  {| UserProfileService.UserProfile.id := "p2";
     UserProfileService.UserProfile.user_id := None;
     UserProfileService.UserProfile.name := Some "Ali";
     UserProfileService.UserProfile.email := "ali@example.com";
     UserProfileService.UserProfile.phone := Some "0300";
     UserProfileService.UserProfile.avatar_url := None |}.

Definition guest_db : UserProfileService.Remote :=
  {| UserProfileService.user_profiles :=
       [ {| UserProfileService.UserProfile.id := "p1";
            UserProfileService.UserProfile.user_id := Some "u0";
            UserProfileService.UserProfile.name := Some "Sara";
            UserProfileService.UserProfile.email := "sara@example.com";
            UserProfileService.UserProfile.phone := None;
            UserProfileService.UserProfile.avatar_url := None |};
         guest_ali ];
     UserProfileService.user_addresses := [];
     UserProfileService.user_preferences := [] |}.

Definition guest_uuid (db : UserProfileService.Remote) : string :=
  if bool_decide (UserProfileService.user_preferences db = [])
  then "p3" else "p4".

(** The address [id0] is one of the profile's addresses: among the remote
    rows when the provider works on the remote store, among the local
    addresses otherwise; ids identify addresses. *)
Definition address_known (w : UserContext.World) (p : UserContext.UserProfile)
    (id0 : string) : Prop :=
  match UserContext.remote_profile w with
  | Some _ =>
      NoDup (UserProfileService.UserAddress.id
               <$> UserProfileService.user_addresses (UserContext.remote w))
      ∧ ∃ row,
          row ∈ UserProfileService.user_addresses (UserContext.remote w)
          ∧ UserProfileService.UserAddress.id row = id0
          ∧ UserProfileService.UserAddress.user_profile_id row
            = UserContext.id p
  | None =>
      NoDup (UserContext.UserAddress.id <$> UserContext.addresses p)
      ∧ id0 ∈ UserContext.UserAddress.id <$> UserContext.addresses p
  end.

(** Two addresses of a guest, and of a signed-in user's remote profile. *)
Definition home : UserContext.UserAddress.t :=
  {| UserContext.UserAddress.id := "address_1";
     UserContext.UserAddress.title := "Home";
     UserContext.UserAddress.street := "1 Mall Road";
     UserContext.UserAddress.city := "Lahore";
     UserContext.UserAddress.zip := "54000";
     UserContext.UserAddress.isDefault := true |}.

Definition office : UserContext.UserAddress.t :=
  {| UserContext.UserAddress.id := "address_2";
     UserContext.UserAddress.title := "Office";
     UserContext.UserAddress.street := "2 Canal Road";
     UserContext.UserAddress.city := "Lahore";
     UserContext.UserAddress.zip := "54010";
     UserContext.UserAddress.isDefault := true |}.

Definition guest_profile : UserContext.UserProfile :=
  {| UserContext.id := "default-user"; UserContext.name := EmptyString;
     UserContext.email := EmptyString; UserContext.phone := EmptyString;
     UserContext.avatar := None; UserContext.addresses := [home; office] |}.

Definition address_row (id0 pid title0 : string) (d : bool) (t : Z)
    : UserProfileService.UserAddress.t :=
  {| UserProfileService.UserAddress.id := id0;
     UserProfileService.UserAddress.user_profile_id := pid;
     UserProfileService.UserAddress.title := title0;
     UserProfileService.UserAddress.street := "1 Mall Road";
     UserProfileService.UserAddress.city := "Lahore";
     UserProfileService.UserAddress.zip_code := "54000";
     UserProfileService.UserAddress.is_default := d;
     UserProfileService.UserAddress.created_at := t |}.

Definition guest_world : UserContext.World :=
  {| UserContext.state :=
       {| UserContext.profile := Some guest_profile;
          UserContext.isLoading := false |};
     UserContext.storage_userId := None;
     UserContext.storage_userProfile := None;
     UserContext.remote := guest_db |}.

Definition member_profile : UserContext.UserProfile :=
  {| UserContext.id := "p1"; UserContext.name := "Sara";
     UserContext.email := "sara@example.com"; UserContext.phone := EmptyString;
     UserContext.avatar := None; UserContext.addresses := [] |}.

Definition member_world : UserContext.World :=
  {| UserContext.state :=
       {| UserContext.profile := Some member_profile;
          UserContext.isLoading := false |};
     UserContext.storage_userId := Some "u0";
     UserContext.storage_userProfile := None;
     UserContext.remote :=
       UserProfileService.with_addresses guest_db
         [ address_row "a1" "p1" "Home" true 10;
           address_row "a2" "p2" "Shop" true 20;
           address_row "a3" "p1" "Office" false 30;
           address_row "a4" "p1" "Club" true 40 ] |}.

(** The open and the terminal order statuses. *)
Definition open_status (st : string) : Prop :=
  st = "pending" ∨ st = "confirmed" ∨ st = "preparing" ∨ st = "ready"
  ∨ st = "out_for_delivery".

Definition terminal_status (st : string) : Prop :=
  st = "delivered" ∨ st = "cancelled".

Global Instance open_status_dec st : Decision (open_status st).
Proof. unfold open_status. apply _. Defined.

Global Instance terminal_status_dec st : Decision (terminal_status st).
Proof. unfold terminal_status. apply _. Defined.

(** The active list holds the open orders of the order list, the history
    list its terminal orders, both in the order of the list. *)
Definition partitioned (s : OrderContext.OrderState) : Prop :=
  OrderContext.activeOrders s
  = filter (λ o, open_status (OrderContext.order_status o))
      (OrderContext.orders s)
  ∧ OrderContext.orderHistory s
    = filter (λ o, terminal_status (OrderContext.order_status o))
        (OrderContext.orders s).

(** The order state after a sequence of actions on the initial state. *)
Definition replay (acts : list OrderContext.OrderAction)
    : OrderContext.OrderState :=
  foldl OrderContext.orderReducer OrderContext.initialState acts.

(** The addresses flagged as default. *)
Definition defaults (l : list UserContext.UserAddress.t)
    : list UserContext.UserAddress.t :=
  filter (λ a, UserContext.UserAddress.isDefault a = true) l.

End Spec.

(** * The remaining operations *)

(** ** CartContext.tsx: the device cache of the cart *)

Module CartCache.

Import CartContext CartProvider.

(** The provider together with the [AsyncStorage] key ['cart'], which
    holds the serialised items ([JSON.parse (JSON.stringify items)] is
    taken to give the items back). *)
Record Device := {
  world : World;
  cart : option (list CartItem);
}.

Definition on_world (f : World → World) (d : Device) : Device :=
  {| world := f (world d); cart := cart d |}.

Definition saveCart (d : Device) : Device :=
  {| world := world d; cart := Some (items (state (world d))) |}.

(** The effect on [state.items]: after a render with new items, save them
    when there is at least one. *)
Definition items_effect (d : Device) : Device :=
  if bool_decide (0 < length (items (state (world d))))%nat
  then saveCart d else d.

Definition addItem (d : Device) (item : CartItem) : Device :=
  items_effect (on_world (λ w, CartProvider.addItem w item) d).

Definition removeItem (d : Device) (id0 : string) : Device :=
  items_effect (on_world (λ w, CartProvider.removeItem w id0) d).

Definition updateQuantity (d : Device) (id0 : string) (quantity0 : Z)
    : Device :=
  items_effect (on_world (λ w, CartProvider.updateQuantity w id0 quantity0) d).

(** [dispatch CLEAR_CART], then [AsyncStorage.removeItem('cart')], then the
    remote push. *)
Definition clearCart (d : Device) : Device :=
  items_effect {| world := CartProvider.clearCart (world d); cart := None |}.

(** [const { cart } = value] on an array: an array has no such property,
    the result is [undefined]. *)
Definition cart_property (value : list CartItem) : option (list CartItem) :=
  None.

(** [loadCart], run on mount.  The fallback reads the device cache. *)
Definition loadCart (d : Device) : Device :=
  let w1 := dispatch (world d) (SET_LOADING true) in
  let fromServer :=
    match user w1 with
    | Some uid =>
        if JS.truthy (Some uid) then
          match cart_property
                  (CartSyncService.getCart (user_cart_sessions w1) uid) with
          | Some serverCart =>
              if bool_decide (0 < length serverCart)%nat
              then Some serverCart else None
          | None => None
          end
        else None
    | None => None
    end in
  let d2 :=
    match fromServer with
    | Some serverCart =>
        {| world := dispatch w1 (LOAD_CART serverCart);
           cart := Some serverCart |}
    | None =>
        match cart d with
        | Some cartItems =>
            {| world := dispatch w1 (LOAD_CART cartItems); cart := cart d |}
        | None => {| world := w1; cart := cart d |}
        end
    end in
  items_effect (on_world (λ w, dispatch w (SET_LOADING false)) d2).

(** [loadCartFromServer], which also saves the merged cart. *)
Definition loadCartFromServer (d : Device) (userId : string) : Device :=
  let w' := CartProvider.loadCartFromServer (world d) userId in
  items_effect {| world := w'; cart := Some (items (state w')) |}.

Definition apply_op (d : Device) (op : CartOp) : Device :=
  match op with
  | OpAddItem item => addItem d item
  | OpRemoveItem id0 => removeItem d id0
  | OpUpdateQuantity id0 quantity0 => updateQuantity d id0 quantity0
  end.

Definition run (d : Device) (ops : list CartOp) : Device :=
  foldl apply_op d ops.

End CartCache.

(** ** userProfileService.ts: the other writes *)

Module ProfileWrites.

Import UserProfileService.

(** [Omit<UserAddress, 'id' | 'user_profile_id' | 'created_at' |
    'updated_at'>] *)
Record NewAddress := {
  title : string;
  street : string;
  city : string;
  zip_code : string;
  is_default : bool;
}.

(** [Partial<...>] of the same: an absent (or [undefined]) key is [None]. *)
Record AddressUpdates := {
  u_title : option string;
  u_street : option string;
  u_city : option string;
  u_zip_code : option string;
  u_is_default : option bool;
}.

(** [Partial<Pick<UserProfile, 'name' | 'phone' | 'avatar_url'>>] *)
Record ProfileUpdates := {
  u_name : option (option string);
  u_phone : option (option string);
  u_avatar_url : option (option string);
}.

Definition apply_address_updates (u : AddressUpdates) (row : UserAddress.t)
    : UserAddress.t :=
  {| UserAddress.id := UserAddress.id row;
     UserAddress.user_profile_id := UserAddress.user_profile_id row;
     UserAddress.title := default (UserAddress.title row) (u_title u);
     UserAddress.street := default (UserAddress.street row) (u_street u);
     UserAddress.city := default (UserAddress.city row) (u_city u);
     UserAddress.zip_code := default (UserAddress.zip_code row) (u_zip_code u);
     UserAddress.is_default :=
       default (UserAddress.is_default row) (u_is_default u);
     UserAddress.created_at := UserAddress.created_at row |}.

Definition apply_profile_updates (u : ProfileUpdates) (row : UserProfile.t)
    : UserProfile.t :=
  {| UserProfile.id := UserProfile.id row;
     UserProfile.user_id := UserProfile.user_id row;
     UserProfile.name := default (UserProfile.name row) (u_name u);
     UserProfile.email := UserProfile.email row;
     UserProfile.phone := default (UserProfile.phone row) (u_phone u);
     UserProfile.avatar_url :=
       default (UserProfile.avatar_url row) (u_avatar_url u) |}.

Definition updateProfile (db : Remote) (userId : string) (u : ProfileUpdates)
    : Remote :=
  with_profiles db
    (Supabase.update
       (λ row, bool_decide (UserProfile.user_id row = Some userId))
       (apply_profile_updates u) (user_profiles db)).

Section Insert.

(** The identifier and the creation instant the store gives to an
    inserted row. *)
Variable gen_random_uuid : Remote → string.
Variable now : Remote → Z.

Definition addAddress (db : Remote) (userProfileId : string)
    (address : NewAddress) : option UserAddress.t * Remote :=
  let db1 :=
    if is_default address then unset_defaults db userProfileId else db in
  let data :=
    {| UserAddress.id := gen_random_uuid db1;
       UserAddress.user_profile_id := userProfileId;
       UserAddress.title := title address;
       UserAddress.street := street address;
       UserAddress.city := city address;
       UserAddress.zip_code := zip_code address;
       UserAddress.is_default := is_default address;
       UserAddress.created_at := now db1 |} in
  (Some data, with_addresses db1 (user_addresses db1 ++ [data])).

End Insert.

Definition updateAddress (db : Remote) (addressId userProfileId : string)
    (updates : AddressUpdates) : Remote :=
  let db1 :=
    if default false (u_is_default updates)
    then unset_defaults db userProfileId else db in
  with_addresses db1
    (Supabase.update
       (λ row, bool_decide (UserAddress.id row = addressId)
               && bool_decide (UserAddress.user_profile_id row = userProfileId))
       (apply_address_updates updates) (user_addresses db1)).

End ProfileWrites.

(** ** UserContext.tsx: the other operations of the provider *)

Module UserProvider.

Import UserContext.




(** [Omit<UserAddress, 'id'>] *)
Record AddressInput := {
  title : string;
  street : string;
  city : string;
  zip : string;
  isDefault : bool;
}.


(** The fields [updateProfile] forwards to the service; an [undefined]
    value is not sent. *)
Definition forwarded (profile0 : PartialUserProfile)
    : ProfileWrites.ProfileUpdates :=
  {| ProfileWrites.u_name := Some <$> p_name profile0;
     ProfileWrites.u_phone := Some <$> p_phone profile0;
     ProfileWrites.u_avatar_url :=
       match p_avatar profile0 with
       | Some (Some v) => Some (Some v)
       | _ => None
       end |}.

Definition updateProfile (w : World) (profile0 : PartialUserProfile) : World :=
  let w' := dispatch w (UPDATE_PROFILE profile0) in
  match storage_userId w, profile (state w) with
  | Some userId, Some _ =>
      if JS.truthy (Some userId) then
        {| state := state w'; storage_userId := storage_userId w';
           storage_userProfile := storage_userProfile w';
           remote :=
             ProfileWrites.updateProfile (remote w') userId
               (forwarded profile0) |}
      else w'
  | _, _ => w'
  end.

(** The fields [updateAddress] forwards to the service. *)
Definition forwarded_address (address : UserAddress.partial)
    : ProfileWrites.AddressUpdates :=
  {| ProfileWrites.u_title := UserAddress.p_title address;
     ProfileWrites.u_street := UserAddress.p_street address;
     ProfileWrites.u_city := UserAddress.p_city address;
     ProfileWrites.u_zip_code := UserAddress.p_zip address;
     ProfileWrites.u_is_default := UserAddress.p_isDefault address |}.

Definition updateAddress (w : World) (id0 : string)
    (address : UserAddress.partial) : World :=
  match remote_profile w with
  | Some p =>
      refresh_addresses w p
        (ProfileWrites.updateAddress (remote w) id0 (id p)
           (forwarded_address address))
  | None => dispatch w (UPDATE_ADDRESS id0 address)
  end.

Section Generated.

(** What the store generates for an inserted row, and the text the device
    renders for [Date.now()] and [Math.random()] in a local id. *)
Variable gen_random_uuid : UserProfileService.Remote → string.
Variable now : UserProfileService.Remote → Z.
Variable local_stamp : World → string.

Definition addAddress (w : World) (address : AddressInput) : World :=
  match remote_profile w with
  | Some p =>
      let '(newAddress, db) :=
        ProfileWrites.addAddress gen_random_uuid now (remote w) (id p)
          {| ProfileWrites.title := title address;
             ProfileWrites.street := street address;
             ProfileWrites.city := city address;
             ProfileWrites.zip_code := zip address;
             ProfileWrites.is_default := isDefault address |} in
      match newAddress with
      | Some _ => refresh_addresses w p db
      | None =>
          {| state := state w; storage_userId := storage_userId w;
             storage_userProfile := storage_userProfile w; remote := db |}
      end
  | None =>
      dispatch w
        (ADD_ADDRESS
           {| UserAddress.id := ("address_" ++ local_stamp w)%string;
              UserAddress.title := title address;
              UserAddress.street := street address;
              UserAddress.city := city address;
              UserAddress.zip := zip address;
              UserAddress.isDefault := isDefault address |})
  end.


End Generated.

End UserProvider.

(** ** OrderContext.tsx: the operations of the provider *)

Module OrderProvider.

Import OrderContext.

(** The reducer state, the three keys of the device cache the provider
    reads and the remote profile table it queries. *)
Record World := {
  state : OrderState;
  userOrders : option (list ExtendedOrder);
  userId : option string;
  userPhone : option string;
  user_profiles : list UserProfileService.UserProfile.t;
}.

Definition dispatch (w : World) (action : OrderAction) : World :=
  {| state := orderReducer (state w) action; userOrders := userOrders w;
     userId := userId w; userPhone := userPhone w;
     user_profiles := user_profiles w |}.

Definition setItem_userOrders (w : World) (l : list ExtendedOrder) : World :=
  {| state := state w; userOrders := Some l; userId := userId w;
     userPhone := userPhone w; user_profiles := user_profiles w |}.

Definition clearOrders (w : World) : World :=
  let w' := dispatch w CLEAR_ORDERS in
  {| state := state w'; userOrders := None; userId := userId w';
     userPhone := userPhone w'; user_profiles := user_profiles w' |}.

Definition addOrder (w : World) (order : ExtendedOrder) : World :=
  let w' := dispatch w (ADD_ORDER order) in
  setItem_userOrders w' (order :: default [] (userOrders w')).

Section Service.

(** The order service, whose code is outside this repository's sources:
    what each request answers during one operation, [None] when it
    throws. *)
Variable getOrdersByUserId : string → option (list ExtendedOrder).
Variable getOrdersByCustomer : string → option (list ExtendedOrder).
Variable updateOrderStatus_request :
  string → string → option string → option bool.

(** The [catch] of [loadOrdersByUserId]. *)
Definition load_failed (w : World) : World :=
  let w' := dispatch w (SET_ERROR (Some "Failed to load orders")) in
  match userOrders w' with
  | Some orders0 => dispatch w' (SET_ORDERS orders0)
  | None => w'
  end.

Definition loadOrdersByUserId (w : World) (userId0 : string) : World :=
  let w1 := dispatch w (SET_LOADING true) in
  match getOrdersByUserId userId0 with
  | None => load_failed w1
  | Some orders0 =>
      let refetched :=
        if bool_decide (length orders0 = 0%nat) then
          match Supabase.single
                  (filter (λ row, UserProfileService.UserProfile.user_id row
                                  = Some userId0) (user_profiles w1)) with
          | Some _ => getOrdersByUserId userId0
          | None => Some orders0
          end
        else Some orders0 in
      match refetched with
      | None => load_failed w1
      | Some orders1 =>
          setItem_userOrders (dispatch w1 (SET_ORDERS orders1)) orders1
      end
  end.

Definition loadOrdersByPhone (w : World) (phone : string) : World :=
  let w1 := dispatch w (SET_LOADING true) in
  match getOrdersByCustomer phone with
  | None => dispatch w1 (SET_ERROR (Some "Failed to load orders"))
  | Some orders0 =>
      setItem_userOrders (dispatch w1 (SET_ORDERS orders0)) orders0
  end.

Definition refreshOrders (w : World) : World :=
  let w1 := dispatch w (SET_LOADING true) in
  if JS.truthy (userId w1) then
    loadOrdersByUserId w1 (default EmptyString (userId w1))
  else if JS.truthy (userPhone w1) then
    loadOrdersByPhone w1 (default EmptyString (userPhone w1))
  else dispatch w1 (SET_ERROR (Some "No user information available")).

(** Returns the answer of the provider and the new world. *)
Definition updateOrderStatus (w : World) (orderId status : string)
    (notes : option string) : bool * World :=
  match updateOrderStatus_request orderId status notes with
  | Some success => (success, if success then refreshOrders w else w)
  | None => (false, w)
  end.

End Service.

End OrderProvider.

(** ** Notions used for the remaining operations *)

Module Notions.

Import CartContext.

(** Every user has at most one cart row. *)
Definition one_row_per_user (table : list CartSyncService.CartSession) : Prop :=
  ∀ v, (length (filter (λ row, CartSyncService.user_id row = v) table) ≤ 1)%nat.

(** No price is negative. *)
Definition prices_nonnegative (l : list CartItem) : Prop :=
  Forall (λ item, 0 ≤ totalPrice item) l.

(** A line of 5 at one unit. *)
Definition item_F : CartItem := CartProvider.menuCartItem "F" "item F" 5 1.

(** The device cache of the orders mirrors the order list. *)
Definition mirrors (w : OrderProvider.World) : Prop :=
  default [] (OrderProvider.userOrders w)
  = OrderContext.orders (OrderProvider.state w).

(** A device that knows no user and has cached no order, and one that
    has cached a delivered order. *)
Definition blank_device : OrderProvider.World :=
  {| OrderProvider.state := OrderContext.initialState;
     OrderProvider.userOrders := None;
     OrderProvider.userId := Some EmptyString;
     OrderProvider.userPhone := None;
     OrderProvider.user_profiles := [] |}.

Definition cached_device : OrderProvider.World :=
  {| OrderProvider.state := OrderContext.initialState;
     OrderProvider.userOrders :=
       Some [ {| OrderContext.id := "o1"; OrderContext.order_number := "BBP-1";
                 OrderContext.order_status := "delivered" |} ];
     OrderProvider.userId := None;
     OrderProvider.userPhone := None;
     OrderProvider.user_profiles := [] |}.

(** A status of the order lifecycle. *)
Definition known_status (st : string) : Prop :=
  Spec.open_status st ∨ Spec.terminal_status st.

(** The default rows of a profile, and the data model's bound on them. *)
Definition default_rows (db : UserProfileService.Remote) (pid : string)
    : list UserProfileService.UserAddress.t :=
  filter (λ row, UserProfileService.UserAddress.user_profile_id row = pid
                 ∧ UserProfileService.UserAddress.is_default row = true)
    (UserProfileService.user_addresses db).

Definition one_default (db : UserProfileService.Remote) : Prop :=
  ∀ pid, (length (default_rows db pid) ≤ 1)%nat.

(** Every identity has at most one profile. *)
Definition one_profile_per_identity (db : UserProfileService.Remote) : Prop :=
  ∀ u, (length (Spec.profiles_of db u) ≤ 1)%nat.

(** Every user has at most one preferences row. *)
Definition one_preferences_per_user (db : UserProfileService.Remote) : Prop :=
  ∀ u, (length (filter (λ row, UserProfileService.UserPreferences.user_id row = u)
                  (UserProfileService.user_preferences db)) ≤ 1)%nat.

(** The order of [getAddresses] as a relation. *)
Definition before (a b : UserProfileService.UserAddress.t) : Prop :=
  Is_true (UserProfileService.address_before a b).

(** A store where two profiles have one default address each. *)
Definition tidy_db : UserProfileService.Remote :=
  UserProfileService.with_addresses Spec.guest_db
    [ Spec.address_row "a1" "p1" "Home" true 10;
      Spec.address_row "a2" "p2" "Shop" true 20;
      Spec.address_row "a3" "p1" "Office" false 30 ].




End Notions.

(** * Properties *)

(** ** Derived totals of the cart *)

Module CartTotals.

Import CartContext CartProvider Spec.

Lemma foldl_prices (l : list CartItem) (a : Z) :
  foldl (λ sum item, sum + totalPrice item) a l = a + sum_prices l.
Proof.
  revert a. induction l as [|item l IH]; intros a; simpl.
  - lia.
  - rewrite IH. lia.
Qed.

Lemma Math_round_rounds (n d : Z) : 0 < d → rounds_to n d (JS.Math_round n d).
Proof.
  intros Hd. unfold rounds_to, JS.Math_round.
  pose proof (Z.mul_div_le (2 * n + d) (2 * d)).
  pose proof (Z.mul_succ_div_gt (2 * n + d) (2 * d)).
  lia.
Qed.

Lemma rounds_to_unique (n d t t' : Z) :
  0 < d → rounds_to n d t → rounds_to n d t' → t = t'.
Proof. unfold rounds_to. intros Hd [H1 H2] [H3 H4]. nia. Qed.

Lemma subtotal_calculateTotals (l : list CartItem) :
  t_subtotal (calculateTotals l) = sum_prices l.
Proof. unfold calculateTotals. simpl. rewrite foldl_prices. lia. Qed.


End CartTotals.

(** ** The cart reducer *)

Module CartReducer.

Import CartContext CartProvider Spec.

Lemma findIndex_from_range {A} (p : A → bool) (l : list A) (i : Z) :
  JS.findIndex_from p l i = -1 ∨ i ≤ JS.findIndex_from p l i.
Proof.
  revert i. induction l as [|x l IH]; intros i; simpl.
  - by left.
  - destruct (p x); [right; lia|].
    destruct (IH (i + 1)) as [->|?]; [by left | right; lia].
Qed.

Lemma findIndex_from_absent {A} (p : A → bool) (l : list A) (i : Z) :
  Forall (λ x, p x = false) l → JS.findIndex_from p l i = -1.
Proof.
  intros H. revert i. induction H as [|x l Hx _ IH]; intros i; simpl.
  - done.
  - by rewrite Hx.
Qed.

Lemma findIndex_from_present {A} (p : A → bool) (l : list A) (i : Z) :
  0 ≤ i → Exists (λ x, p x = true) l → 0 ≤ JS.findIndex_from p l i.
Proof.
  intros Hi H. revert i Hi. induction H as [x l Hx|x l _ IH]; intros i Hi; simpl.
  - by rewrite Hx.
  - destruct (p x); [done|]. apply IH. lia.
Qed.

Lemma imap_unchanged {A} (f : nat → A → A) (l : list A) :
  (∀ j x, f j x = x) → imap f l = l.
Proof.
  revert f. induction l as [|x l IH]; intros f Hf; [done|].
  rewrite imap_cons, Hf. f_equal. apply IH. intros j y. apply Hf.
Qed.

(** [map] with the index of [findIndex] rewrites the first match. *)
Lemma imap_findIndex_from {A} (p : A → bool) (g : A → A) (l : list A) (n : nat) :
  imap (λ j x, if bool_decide
                    (Z.of_nat (n + j) = JS.findIndex_from p l (Z.of_nat n))
               then g x else x) l
  = rewrite_first p g l.
Proof.
  revert n. induction l as [|x l IH]; intros n; [done|].
  cbn [imap rewrite_first JS.findIndex_from]. destruct (p x) eqn:Hp.
  - rewrite bool_decide_eq_true_2 by (f_equal; lia). f_equal.
    apply imap_unchanged. intros j y. simpl.
    rewrite bool_decide_eq_false_2; [done | lia].
  - pose proof (findIndex_from_range p l (Z.of_nat n + 1)) as Hr.
    rewrite bool_decide_eq_false_2 by lia. f_equal.
    rewrite <- (IH (S n)). apply imap_ext. intros j y _. simpl.
    replace (Z.of_nat (S n)) with (Z.of_nat n + 1) by lia.
    replace (n + S j)%nat with (S (n + j)) by lia. done.
Qed.

Lemma has_id_spec (l : list CartItem) (i : string) :
  i ∈ id <$> l ↔ Exists (λ item, bool_decide (id item = i) = true) l.
Proof.
  rewrite Exists_exists, list_elem_of_fmap. split.
  - intros (x & -> & Hx). exists x. split; [done|]. by apply bool_decide_eq_true_2.
  - intros (x & Hx & Hp). exists x. split; [|done].
    symmetry. by apply bool_decide_eq_true_1 in Hp.
Qed.

Lemma lacks_id_spec (l : list CartItem) (i : string) :
  i ∉ id <$> l ↔ Forall (λ item, bool_decide (id item = i) = false) l.
Proof.
  rewrite has_id_spec, <- Forall_Exists_neg. apply Forall_iff. intros x.
  by destruct (bool_decide (id x = i)).
Qed.

(** What [ADD_ITEM] does to the items, without indices. *)
Lemma items_ADD_ITEM (s : CartState) (payload : CartItem) :
  items (cartReducer s (ADD_ITEM payload))
  = if decide (id payload ∈ id <$> items s)
    then rewrite_first (λ item, bool_decide (id item = id payload))
           (λ item, with_quantity item (quantity item + quantity payload))
           (items s)
    else items s ++ [payload].
Proof.
  cbn [cartReducer with_items items]. unfold JS.findIndex.
  destruct (decide (id payload ∈ id <$> items s)) as [Hin|Hout].
  - apply has_id_spec in Hin.
    rewrite bool_decide_eq_true_2
      by (apply Z.le_ge, findIndex_from_present; [lia | done]).
    apply (imap_findIndex_from _ _ _ 0).
  - apply lacks_id_spec in Hout.
    rewrite findIndex_from_absent by done. done.
Qed.

Lemma state_when_signed_in (w w' : World) push :
  state (when_signed_in w push w') = state w'.
Proof.
  unfold when_signed_in. destruct (user w); [|done].
  by destruct (JS.truthy _).
Qed.

(** The local effect of an operation is the dispatch of its action. *)
Lemma state_apply_op (w : World) (op : CartOp) :
  state (apply_op w op) = cartReducer (state w) (action_of op).
Proof.
  destruct op; simpl; unfold removeItem, updateQuantity;
    rewrite ?state_when_signed_in; done.
Qed.

Lemma state_updateQuantity (w : World) (id0 : string) (q : Z) :
  state (updateQuantity w id0 q) = cartReducer (state w) (UPDATE_QUANTITY id0 q).
Proof. apply (state_apply_op w (OpUpdateQuantity id0 q)). Qed.

Lemma state_removeItem (w : World) (id0 : string) :
  state (removeItem w id0) = cartReducer (state w) (REMOVE_ITEM id0).
Proof. apply (state_apply_op w (OpRemoveItem id0)). Qed.

Lemma run_snoc (w : World) (ops : list CartOp) (op : CartOp) :
  run w (ops ++ [op]) = apply_op (run w ops) op.
Proof. unfold run. by rewrite foldl_app. Qed.

Lemma in_sync_with_items (s : CartState) (l : list CartItem) :
  in_sync (with_items s l (calculateTotals l)).
Proof. done. Qed.

Lemma in_sync_action_of (s : CartState) (op : CartOp) :
  in_sync (cartReducer s (action_of op)).
Proof. destruct op; apply in_sync_with_items. Qed.

Lemma in_sync_run (w : World) (ops : list CartOp) :
  ops ≠ [] → in_sync (state (run w ops)).
Proof.
  intros Hne. destruct (exists_last Hne) as (ops' & op & ->).
  rewrite run_snoc, state_apply_op. apply in_sync_action_of.
Qed.

Lemma stored_total_sum (s : CartState) :
  in_sync s → total s = subtotal s + deliveryFee s + tax s.
Proof.
  unfold in_sync, stored_totals, calculateTotals. intros H.
  injection H as -> -> -> ->. done.
Qed.


End CartReducer.

(** ** Invariants of the cart under its three mutations *)

Module CartInvariants.

Import CartContext CartProvider Spec CartReducer.

Lemma filter_all {A} (P : A → Prop) `{∀ x, Decision (P x)} (l : list A) :
  Forall P l → filter P l = l.
Proof.
  induction 1 as [|x l Hx _ IH]; [done|].
  rewrite filter_cons_True by done. by rewrite IH.
Qed.

Lemma Forall_filter_keep {A} (P Q : A → Prop) `{∀ x, Decision (P x)}
    (l : list A) :
  Forall Q l → Forall Q (filter P l).
Proof.
  rewrite !Forall_forall. intros HQ x Hx.
  apply list_elem_of_filter in Hx as [_ Hx]. by apply HQ.
Qed.

Lemma set_quantity_absent (id0 : string) (q : Z) (l : list CartItem) :
  id0 ∉ id <$> l → set_quantity id0 q <$> l = l.
Proof.
  intros Hout. apply lacks_id_spec in Hout.
  induction Hout as [|x l Hx _ IH]; [done|].
  cbn [fmap list_fmap]. unfold set_quantity at 1. rewrite Hx. f_equal. apply IH.
Qed.

Lemma items_UPDATE_QUANTITY (s : CartState) (id0 : string) (q : Z) :
  items (cartReducer s (UPDATE_QUANTITY id0 q))
  = filter (λ item, quantity item > 0) (set_quantity id0 q <$> items s).
Proof. done. Qed.

Lemma positive_gt (l : list CartItem) :
  quantities_positive l → Forall (λ item, quantity item > 0) l.
Proof.
  intros H. eapply Forall_impl; [exact H|]. intros x Hx. simpl in *. lia.
Qed.

(** After [UPDATE_QUANTITY] with a quantity of at most zero no line with
    that id is left. *)
Lemma pruned_UPDATE_QUANTITY (s : CartState) (id0 : string) (q : Z) :
  q ≤ 0 → id0 ∉ id <$> items (cartReducer s (UPDATE_QUANTITY id0 q)).
Proof.
  intros Hq. rewrite items_UPDATE_QUANTITY, list_elem_of_fmap.
  intros (x & Hid & Hx). apply list_elem_of_filter in Hx as [Hpos Hx].
  apply list_elem_of_fmap in Hx as (y & -> & _).
  unfold set_quantity in *. destruct (bool_decide (id y = id0)) eqn:Hy.
  - simpl in Hpos. lia.
  - apply bool_decide_eq_false_1 in Hy. congruence.
Qed.

Lemma positive_UPDATE_QUANTITY (s : CartState) (id0 : string) (q : Z) :
  quantities_positive (items (cartReducer s (UPDATE_QUANTITY id0 q))).
Proof.
  rewrite items_UPDATE_QUANTITY. apply Forall_forall. intros x Hx.
  apply list_elem_of_filter in Hx as [Hpos _]. lia.
Qed.

Lemma positive_rewrite_first (p : CartItem → bool) (dq : Z) (l : list CartItem) :
  1 ≤ dq → quantities_positive l →
  quantities_positive
    (rewrite_first p (λ item, with_quantity item (quantity item + dq)) l).
Proof.
  intros Hdq. induction 1 as [|x l Hx Hl IH]; simpl; [constructor|].
  destruct (p x).
  - constructor; [simpl; lia | done].
  - constructor; done.
Qed.

Lemma positive_action_of (s : CartState) (op : CartOp) :
  adds_positive op → quantities_positive (items s) →
  quantities_positive (items (cartReducer s (action_of op))).
Proof.
  intros Hop Hs. destruct op as [item|id0|id0 q]; cbn [action_of].
  - rewrite items_ADD_ITEM. destruct (decide _).
    + by apply positive_rewrite_first.
    + apply Forall_app. split; [done|]. by constructor.
  - cbn [cartReducer with_items items]. by apply Forall_filter_keep.
  - apply positive_UPDATE_QUANTITY.
Qed.

Lemma positive_run (w : World) (ops : list CartOp) :
  Forall adds_positive ops → quantities_positive (items (state w)) →
  quantities_positive (items (state (run w ops))).
Proof.
  intros Hops. revert w. induction Hops as [|op ops Hop _ IH]; intros w Hw.
  - done.
  - cbn [run foldl]. apply IH. rewrite state_apply_op.
    by apply positive_action_of.
Qed.




End CartInvariants.

(** ** The cart: statements of the specification *)

Module CartClaims.

Import CartContext CartProvider Spec CartReducer CartInvariants.

(** C2, as stated, fails on the empty sequence of operations: the freshly
    mounted cart stores a total of 0, while [calculateTotals] of its empty
    item list gives 150 (the flat delivery fee). *)
Lemma fresh_cart_total_is_not_recomputed :
  total (state (run (mount None []) []))
  ≠ t_subtotal (calculateTotals (items (state (run (mount None []) []))))
    + t_deliveryFee (calculateTotals (items (state (run (mount None []) []))))
    + t_tax (calculateTotals (items (state (run (mount None []) [])))).
Proof. vm_compute. discriminate. Qed.

(** C2, amended.  After every sequence of [addItem], [removeItem] and
    [updateQuantity] the stored total is the sum of the stored subtotal,
    delivery fee and tax; and after every such sequence of at least one
    operation the four stored fields are exactly those [calculateTotals]
    gives for the resulting items. *)
Theorem totals_follow_items (user0 : option string)
    (table : list CartSyncService.CartSession) (ops : list CartOp) :
  total (state (run (mount user0 table) ops))
  = subtotal (state (run (mount user0 table) ops))
    + deliveryFee (state (run (mount user0 table) ops))
    + tax (state (run (mount user0 table) ops))
  ∧ (ops ≠ [] →
     stored_totals (state (run (mount user0 table) ops))
     = calculateTotals (items (state (run (mount user0 table) ops)))
     ∧ total (state (run (mount user0 table) ops))
       = t_subtotal (calculateTotals (items (state (run (mount user0 table) ops))))
         + t_deliveryFee
             (calculateTotals (items (state (run (mount user0 table) ops))))
         + t_tax (calculateTotals (items (state (run (mount user0 table) ops))))).
Proof.
  destruct (decide (ops = [])) as [->|Hne].
  - split; [done|]. intros H. by destruct H.
  - pose proof (in_sync_run (mount user0 table) ops Hne) as Hsync.
    split; [by apply stored_total_sum|]. intros _. split; [exact Hsync|].
    unfold in_sync, stored_totals in Hsync.
    set (s := state (run (mount user0 table) ops)) in *.
    assert (total s = t_total (calculateTotals (items s))) as ->
      by (by rewrite <- Hsync).
    done.
Qed.

(** An instance: adding item A and removing it again. *)
Lemma totals_follow_items_witness :
  stored_totals (state (run (mount (Some "u1") []) [OpAddItem item_A; OpRemoveItem "A"]))
  = calculateTotals
      (items (state (run (mount (Some "u1") []) [OpAddItem item_A; OpRemoveItem "A"]))).
Proof.
  apply (proj2 (totals_follow_items (Some "u1") []
                  [OpAddItem item_A; OpRemoveItem "A"])).
  discriminate.
Defined.

(** C5, as stated, fails on the freshly mounted cart: ["x"] is not the id
    of any of its items, yet [updateQuantity "x" 1] changes the state (the
    stored delivery fee and total go from 0 to 150).  It also fails on a
    cart holding a line of quantity 0: [updateQuantity] of an absent id
    removes that line. *)
Lemma updateQuantity_absent_alters_fresh_cart :
  ("x" ∉ id <$> items (state (mount None [])))
  ∧ state (updateQuantity (mount None []) "x" 1) ≠ state (mount None [])
  ∧ ("x" ∉ id <$> items (state (run (mount None []) [OpAddItem item_Z])))
  ∧ items (state (updateQuantity
                    (run (mount None []) [OpAddItem item_Z]) "x" 1))
    ≠ items (state (run (mount None []) [OpAddItem item_Z])).
Proof.
  split; [apply not_elem_of_nil|].
  split; [vm_compute; discriminate|].
  split; [|vm_compute; discriminate].
  vm_compute. intros Hin.
  apply elem_of_cons in Hin as [Hin|Hin]; [discriminate Hin|].
  by apply elem_of_nil in Hin.
Qed.

(** C5, amended.  After [updateQuantity id 0] no item with that id is left
    in the cart, and the other items are kept in order when all quantities
    were at least 1.  For an id not present in a cart whose quantities are
    at least 1, [updateQuantity id q] leaves the item list unchanged, and
    leaves the whole state unchanged when the stored totals are those of
    the items (as they are after any mutation). *)
Theorem updateQuantity_zero_and_absent (w : World) (id0 : string) :
  (id0 ∉ id <$> items (state (updateQuantity w id0 0)))
  ∧ (quantities_positive (items (state w)) →
     items (state (updateQuantity w id0 0))
     = filter (λ item, id item ≠ id0) (items (state w)))
  ∧ (∀ q : Z,
        id0 ∉ id <$> items (state w) →
        quantities_positive (items (state w)) →
        items (state (updateQuantity w id0 q)) = items (state w)
        ∧ (in_sync (state w) → state (updateQuantity w id0 q) = state w)).
Proof.
  pose proof (state_updateQuantity w id0) as Hst.
  split; [|split].
  - rewrite Hst. by apply pruned_UPDATE_QUANTITY.
  - intros Hpos. rewrite Hst, items_UPDATE_QUANTITY.
    induction Hpos as [|x l Hx _ IH]; [done|].
    rewrite fmap_cons. unfold set_quantity at 1.
    destruct (bool_decide (id x = id0)) eqn:Hid.
    + apply bool_decide_eq_true_1 in Hid.
      rewrite filter_cons_False by (simpl; lia).
      rewrite (filter_cons_False (λ item, id item ≠ id0)) by (simpl; tauto).
      exact IH.
    + apply bool_decide_eq_false_1 in Hid.
      rewrite filter_cons_True by lia.
      rewrite (filter_cons_True (λ item, id item ≠ id0)) by done.
      f_equal. exact IH.
  - intros q Hout Hpos.
    assert (items (cartReducer (state w) (UPDATE_QUANTITY id0 q))
            = items (state w)) as Hitems.
    { rewrite items_UPDATE_QUANTITY, set_quantity_absent by done.
      apply filter_all. by apply positive_gt. }
    rewrite Hst. split; [exact Hitems|]. intros Hsync.
    pose proof (in_sync_action_of (state w) (OpUpdateQuantity id0 q)) as Hnew.
    cbn [action_of] in Hnew. unfold in_sync in *. rewrite Hitems in Hnew.
    rewrite <- Hsync in Hnew.
    destruct (cartReducer (state w) (UPDATE_QUANTITY id0 q)) eqn:Hred.
    destruct (state w) eqn:Hw. unfold stored_totals in Hnew. simpl in *.
    injection Hnew as -> -> -> ->. subst.
    f_equal.
    change isLoading0 with
      (isLoading {| items := items1; subtotal := subtotal1;
                    deliveryFee := deliveryFee1; tax := tax1; total := total1;
                    isLoading := isLoading0 |}).
    rewrite <- Hred. done.
Qed.

(** An instance on the cart of items A and B. *)
Lemma updateQuantity_zero_and_absent_witness :
  items (state (updateQuantity
                  (run (mount (Some "u1") []) [OpAddItem item_A; OpAddItem item_B])
                  "A" 0))
  = [item_B]
  ∧ state (updateQuantity
             (run (mount (Some "u1") []) [OpAddItem item_A; OpAddItem item_B])
             "C" 3)
    = state (run (mount (Some "u1") []) [OpAddItem item_A; OpAddItem item_B]).
Proof.
  assert (quantities_positive
            (items (state (run (mount (Some "u1") [])
                             [OpAddItem item_A; OpAddItem item_B]))))
    as Hpos by (repeat constructor; vm_compute; discriminate).
  split.
  - rewrite (proj1 (proj2 (updateQuantity_zero_and_absent _ "A")) Hpos).
    vm_compute. reflexivity.
  - apply (proj2 (proj2 (updateQuantity_zero_and_absent _ "C")) 3).
    + vm_compute. intros Hin.
      repeat (apply elem_of_cons in Hin as [Hin|Hin]; [discriminate Hin|]).
      by apply elem_of_nil in Hin.
    + exact Hpos.
    + reflexivity.
Defined.

(** C6, as stated, fails: a payload is arbitrary, and [addItem] with a
    quantity of 0 puts a line of quantity 0 into the cart. *)
Lemma addItem_keeps_zero_quantity :
  ¬ Forall (λ item, 1 ≤ quantity item)
      (items (state (run (mount None []) [OpAddItem item_Z]))).
Proof.
  intros H. apply Forall_inv in H. vm_compute in H. by apply H.
Qed.

(** C6, amended.  When every added item has a quantity of at least 1,
    every item of every cart reached from the empty cart by [addItem],
    [removeItem] and [updateQuantity] (with any id and any quantity) has a
    quantity of at least 1; [updateQuantity] with a quantity of zero or
    less removes the lines with that id, and leaves no line of quantity
    zero or less behind. *)
Theorem quantities_stay_positive :
  (∀ (user0 : option string) (table : list CartSyncService.CartSession)
     (ops : list CartOp),
      Forall adds_positive ops →
      Forall (λ item, 1 ≤ quantity item)
        (items (state (run (mount user0 table) ops))))
  ∧ (∀ (w : World) (id0 : string) (q : Z),
        Forall (λ item, 1 ≤ quantity item)
          (items (state (updateQuantity w id0 q)))
        ∧ (q ≤ 0 → id0 ∉ id <$> items (state (updateQuantity w id0 q)))).
Proof.
  split.
  - intros user0 table ops Hops.
    apply (positive_run (mount user0 table) ops Hops). constructor.
  - intros w id0 q.
    rewrite state_updateQuantity. split.
    + apply positive_UPDATE_QUANTITY.
    + apply pruned_UPDATE_QUANTITY.
Qed.

(** An instance: five operations adding quantities 2, 2 and 1. *)
Lemma quantities_stay_positive_witness :
  Forall (λ item, 1 ≤ quantity item)
    (items (state (run (mount (Some "u1") [])
                     [OpAddItem item_A; OpAddItem item_A;
                      OpUpdateQuantity "A" 0; OpAddItem item_B;
                      OpRemoveItem "A"]))).
Proof.
  apply (proj1 quantities_stay_positive).
  repeat constructor; vm_compute; discriminate.
Defined.



End CartClaims.

(** ** Queries on a table *)

Module SupabaseFacts.

Lemma single_Some {A} (rows : list A) (r : A) :
  Supabase.single rows = Some r ↔ rows = [r].
Proof.
  split; [|by intros ->]. destruct rows as [|x [|y rows]]; simpl; congruence.
Qed.

Lemma single_None_short {A} (rows : list A) :
  Supabase.single rows = None → (length rows ≤ 1)%nat → rows = [].
Proof. destruct rows as [|x [|y rows]]; simpl; [done | congruence | lia]. Qed.

Lemma single_is_Some {A} (r : A) : Supabase.single [r] = Some r.
Proof. done. Qed.

Lemma filter_none {A} (P : A → Prop) `{∀ x, Decision (P x)} (l : list A) :
  Forall (λ x, ¬ P x) l → filter P l = [].
Proof.
  induction 1 as [|y l Hy _ IH]; [done|]. by rewrite filter_cons_False.
Qed.

(** In a table with a key, the rows with the key of [x] are [x] itself. *)
Lemma filter_key_NoDup {A K} `{EqDecision K} (key : A → K) (l : list A) (x : A) :
  NoDup (key <$> l) → x ∈ l → filter (λ r, key r = key x) l = [x].
Proof.
  induction l as [|y l IH]; intros Hnd Hx.
  - by apply elem_of_nil in Hx.
  - rewrite fmap_cons in Hnd. apply NoDup_cons in Hnd as [Hy Hnd].
    assert (∀ z, z ∈ l → key z ≠ key y) as Hne.
    { intros z Hz Heq. apply Hy. rewrite <- Heq.
      apply list_elem_of_fmap. by exists z. }
    apply elem_of_cons in Hx as [->|Hx].
    + rewrite filter_cons_True by done. f_equal.
      apply filter_none, Forall_forall. exact Hne.
    + rewrite filter_cons_False by (intros Heq; by apply (Hne x Hx)).
      by apply IH.
Qed.

Lemma filter_nil_Forall {A} (P : A → Prop) `{∀ x, Decision (P x)} (l : list A) :
  filter P l = [] → Forall (λ x, ¬ P x) l.
Proof.
  intros Hf. apply Forall_forall. intros x Hx HP.
  by apply (filter_nil_not_elem_of P l x).
Qed.

Lemma NoDup_key_filter {A K} (key : A → K) (P : A → Prop)
    `{∀ x, Decision (P x)} (l : list A) :
  NoDup (key <$> l) → NoDup (key <$> filter P l).
Proof.
  induction l as [|y l IH]; [done|].
  rewrite fmap_cons, NoDup_cons. intros [Hy Hnd]. rewrite filter_cons.
  destruct (decide (P y)); [|by apply IH].
  rewrite fmap_cons. apply NoDup_cons. split; [|by apply IH].
  intros Hin. apply Hy. apply list_elem_of_fmap in Hin as (z & -> & Hz).
  apply list_elem_of_filter in Hz as [_ Hz]. apply list_elem_of_fmap. by exists z.
Qed.

End SupabaseFacts.

(** ** The remote cart *)

Module CartSyncClaims.

Import CartContext CartProvider CartSyncService Spec SupabaseFacts CartReducer.

Lemma foldl_push_missing (ids : list string) (acc server : list CartItem) :
  foldl (push_missing (list_to_set ids)) acc server
  = acc ++ filter (λ item, id item ∉ ids) server.
Proof.
  revert acc. induction server as [|x server IH]; intros acc; simpl.
  - by rewrite app_nil_r.
  - rewrite IH. unfold push_missing. rewrite filter_cons.
    destruct (decide (id x ∉ ids)) as [Hout|Hin].
    + rewrite bool_decide_eq_false_2 by (by rewrite elem_of_list_to_set).
      by rewrite <- app_assoc.
    + rewrite bool_decide_eq_true_2; [done|].
      rewrite elem_of_list_to_set. by apply dec_stable.
Qed.

Lemma merged_cart (table : list CartSession) (userId : string)
    (localCart : list CartItem) (localTotal : Z) :
  fst (mergeAndSyncCart table userId localCart localTotal)
  = merged localCart (getCart table userId).
Proof. unfold mergeAndSyncCart, merged. simpl. apply foldl_push_missing. Qed.

Lemma merged_table (table : list CartSession) (userId : string)
    (localCart : list CartItem) (localTotal : Z) :
  snd (mergeAndSyncCart table userId localCart localTotal)
  = syncCart table userId (merged localCart (getCart table userId))
      (sum_prices (merged localCart (getCart table userId))).
Proof.
  unfold mergeAndSyncCart. cbn [snd]. unfold merged.
  rewrite foldl_push_missing, CartTotals.foldl_prices. done.
Qed.

Lemma filter_update_for_user (userId : string) (g : CartSession → CartSession)
    (table : list CartSession) :
  (∀ row, user_id (g row) = user_id row) →
  filter (λ row, user_id row = userId) (Supabase.update (for_user userId) g table)
  = g <$> filter (λ row, user_id row = userId) table.
Proof.
  intros Hg. unfold Supabase.update, for_user.
  induction table as [|r table IH]; [done|].
  rewrite fmap_cons, !filter_cons.
  destruct (decide (user_id r = userId)) as [Hr|Hr].
  - rewrite bool_decide_eq_true_2 by done.
    rewrite decide_True by (by rewrite Hg). by rewrite fmap_cons, IH.
  - rewrite bool_decide_eq_false_2 by done. by rewrite decide_False, IH.
Qed.

(** After [syncCart] a row of the user holds the items and the amount. *)
Lemma syncCart_row (table : list CartSession) (userId : string)
    (l : list CartItem) (amount : Z) :
  {| user_id := userId; cart_items := Some l; total_amount := amount |}
  ∈ syncCart table userId l amount.
Proof.
  unfold syncCart.
  destruct (Supabase.single _) as [r|] eqn:Hs.
  - apply single_Some in Hs.
    assert (r ∈ filter (λ row, user_id row = userId) table) as Hr
      by (rewrite Hs; apply list_elem_of_here).
    apply list_elem_of_filter in Hr as [Hu Hr].
    unfold Supabase.update. apply list_elem_of_fmap. exists r. split; [|done].
    unfold for_user. rewrite bool_decide_eq_true_2 by done. by rewrite Hu.
  - apply elem_of_app. right. apply list_elem_of_here.
Qed.

(** When the user has at most one row, [getCart] reads back what
    [syncCart] wrote. *)
Lemma getCart_syncCart (table : list CartSession) (userId : string)
    (l : list CartItem) (amount : Z) :
  (length (filter (λ row, user_id row = userId) table) ≤ 1)%nat →
  getCart (syncCart table userId l amount) userId = l.
Proof.
  intros Hlen. unfold syncCart, getCart.
  destruct (Supabase.single (filter _ table)) as [r|] eqn:Hs.
  - rewrite filter_update_for_user by done.
    apply single_Some in Hs. by rewrite Hs.
  - apply single_None_short in Hs; [|done].
    rewrite filter_app, Hs. rewrite filter_cons_True by done. done.
Qed.

(** C3.  For every user, local cart and remote table, [mergeAndSyncCart]
    returns the local items in order followed by exactly the items of the
    remote cart whose id is not the id of a local item, and writes that
    list to the remote table: a row of the user holds it, and [getCart]
    reads it back when the user has at most one row.  On a local cart
    with X (2 units) and a remote cart with X (5 units) and Y, the result
    is the local X followed by Y. *)
Theorem mergeAndSyncCart_spec (table : list CartSession) (userId : string)
    (localCart : list CartItem) (localTotal : Z) :
  fst (mergeAndSyncCart table userId localCart localTotal)
  = localCart
    ++ filter (λ item, id item ∉ id <$> localCart) (getCart table userId)
  ∧ (∃ row,
        row ∈ snd (mergeAndSyncCart table userId localCart localTotal)
        ∧ user_id row = userId
        ∧ cart_items row
          = Some (fst (mergeAndSyncCart table userId localCart localTotal)))
  ∧ ((length (filter (λ row, user_id row = userId) table) ≤ 1)%nat →
     getCart (snd (mergeAndSyncCart table userId localCart localTotal)) userId
     = fst (mergeAndSyncCart table userId localCart localTotal))
  ∧ getCart remote_XY "u1" = [item_X_remote; item_Y]
  ∧ fst (mergeAndSyncCart remote_XY "u1" [item_X_local] localTotal)
    = [item_X_local; item_Y]
  ∧ getCart (snd (mergeAndSyncCart remote_XY "u1" [item_X_local] localTotal))
      "u1"
    = [item_X_local; item_Y].
Proof.
  rewrite !merged_table, !merged_cart.
  split; [done|]. split; [|split].
  - eexists. split; [apply syncCart_row|]. done.
  - apply getCart_syncCart.
  - vm_compute. done.
Qed.

(** An instance: the user ["u1"] has one row in [remote_XY]. *)
Lemma mergeAndSyncCart_spec_witness :
  getCart (snd (mergeAndSyncCart remote_XY "u1" [item_B; item_X_local] 0)) "u1"
  = fst (mergeAndSyncCart remote_XY "u1" [item_B; item_X_local] 0).
Proof.
  apply (proj1 (proj2 (proj2
           (mergeAndSyncCart_spec remote_XY "u1" [item_B; item_X_local] 0)))).
  vm_compute. lia.
Defined.

(** What [removeItem] and [updateQuantity] persist for a signed-in user:
    the total [calculateTotals] gives for the very list they persist. *)
Lemma removeItem_persists (w : World) (uid id0 : string) :
  user w = Some uid → uid ≠ EmptyString →
  user_cart_sessions (removeItem w id0)
  = syncCart (user_cart_sessions w) uid
      (filter (λ item, id item ≠ id0) (items (state w)))
      (t_total (calculateTotals
                  (filter (λ item, id item ≠ id0) (items (state w))))).
Proof.
  intros Hu Hne. unfold removeItem, when_signed_in. rewrite Hu.
  cbn [JS.truthy]. rewrite bool_decide_eq_false_2 by done. done.
Qed.

Lemma updateQuantity_persists (w : World) (uid id0 : string) (q : Z) :
  user w = Some uid → uid ≠ EmptyString →
  user_cart_sessions (updateQuantity w id0 q)
  = syncCart (user_cart_sessions w) uid
      (set_quantity id0 q <$> items (state w))
      (t_total (calculateTotals (set_quantity id0 q <$> items (state w)))).
Proof.
  intros Hu Hne. unfold updateQuantity, when_signed_in. rewrite Hu.
  cbn [JS.truthy]. rewrite bool_decide_eq_false_2 by done. done.
Qed.

(** What [mergeAndSyncCart] persists next to the merged items: the sum of
    their prices, without delivery fee and tax.  Merging the local cart of
    item A into an empty table stores 1000; the total of that cart is
    1300. *)
Lemma mergeAndSyncCart_persists_subtotal :
  (∀ (table : list CartSession) (userId : string) (localCart : list CartItem)
     (localTotal : Z),
      snd (mergeAndSyncCart table userId localCart localTotal)
      = syncCart table userId
          (fst (mergeAndSyncCart table userId localCart localTotal))
          (t_subtotal
             (calculateTotals
                (fst (mergeAndSyncCart table userId localCart localTotal)))))
  ∧ snd (mergeAndSyncCart [] "u1" [item_A] 1300)
    = [session_row "u1" [item_A] 1000]
  ∧ t_total (calculateTotals (fst (mergeAndSyncCart [] "u1" [item_A] 1300)))
    = 1300.
Proof.
  split; [|split; vm_compute; done].
  intros table userId localCart localTotal.
  rewrite merged_table, merged_cart, CartTotals.subtotal_calculateTotals. done.
Qed.

Lemma clearCart_persists (w : World) (uid : string) :
  user w = Some uid → uid ≠ EmptyString →
  user_cart_sessions (CartProvider.clearCart w) = syncCart (user_cart_sessions w) uid [] 0.
Proof.
  intros Hu Hne. unfold CartProvider.clearCart, when_signed_in. rewrite Hu.
  cbn [JS.truthy]. rewrite bool_decide_eq_false_2 by done. done.
Qed.

(** C4, as stated, fails: [clearCart] of a signed-in user persists the
    empty item list with the amount 0, while [calculateTotals] of the
    empty list has total 150. *)
Lemma clearCart_persists_zero :
  user_cart_sessions (CartProvider.clearCart (mount (Some "u1") []))
  = [session_row "u1" [] 0]
  ∧ ¬ Forall total_recomputed
        (user_cart_sessions (CartProvider.clearCart (mount (Some "u1") []))).
Proof.
  split; [reflexivity|]. intros H. apply Forall_inv in H.
  specialize (H [] eq_refl). vm_compute in H. discriminate H.
Qed.

(** C4, amended.  For a signed-in user, [removeItem] persists the items
    left after the removal (the new local items) and [updateQuantity] the
    items with the quantity set, each with the total [calculateTotals]
    gives for exactly that list; [syncCartWithServer] persists the current
    items with their recomputed total; [clearCart] persists the empty list
    with the amount 0.  In each case the row written satisfies
    [total_recomputed], except the one of [clearCart]. *)
Theorem persisted_totals_recomputed (w : World) (uid : string) :
  user w = Some uid → uid ≠ EmptyString →
  (∀ id0 : string,
      session_row uid (items (state (removeItem w id0)))
        (total (state (removeItem w id0)))
      ∈ user_cart_sessions (removeItem w id0)
      ∧ total_recomputed
          (session_row uid (items (state (removeItem w id0)))
             (total (state (removeItem w id0)))))
  ∧ (∀ (id0 : string) (q : Z),
        session_row uid (set_quantity id0 q <$> items (state w))
          (t_total (calculateTotals (set_quantity id0 q <$> items (state w))))
        ∈ user_cart_sessions (updateQuantity w id0 q)
        ∧ total_recomputed
            (session_row uid (set_quantity id0 q <$> items (state w))
               (t_total
                  (calculateTotals (set_quantity id0 q <$> items (state w))))))
  ∧ (∀ userId : string,
        session_row userId (items (state w))
          (t_total (calculateTotals (items (state w))))
        ∈ user_cart_sessions (syncCartWithServer w userId))
  ∧ session_row uid [] 0 ∈ user_cart_sessions (CartProvider.clearCart w).
Proof.
  intros Hu Hne. split; [|split; [|split]].
  - intros id0. rewrite (removeItem_persists w uid id0 Hu Hne).
    rewrite state_removeItem. cbn [cartReducer with_items items total].
    split; [apply syncCart_row|]. intros l [= <-]. done.
  - intros id0 q. rewrite (updateQuantity_persists w uid id0 q Hu Hne).
    split; [apply syncCart_row|]. intros l [= <-]. done.
  - intros userId. apply syncCart_row.
  - rewrite (clearCart_persists w uid Hu Hne). apply syncCart_row.
Qed.

(** An instance: removing item A from the cart of items A and B. *)
Lemma persisted_totals_recomputed_witness :
  session_row "u1" [item_B] 1300
  ∈ user_cart_sessions
      (removeItem (run (mount (Some "u1") []) [OpAddItem item_A; OpAddItem item_B])
         "A").
Proof.
  apply (proj1 (proj1 (persisted_totals_recomputed
                         (run (mount (Some "u1") [])
                            [OpAddItem item_A; OpAddItem item_B])
                         "u1" eq_refl ltac:(discriminate)) "A")).
Defined.

End CartSyncClaims.

(** ** Profiles *)

Module ProfileClaims.

Import UserProfileService Spec SupabaseFacts.

Lemma split_head_app (c : Ascii.ascii) (s rest : string) :
  ¬ occurs c s → JS.split_head c (s ++ String c rest)%string = s.
Proof.
  unfold occurs. induction s as [|a s IH]; intros Hout; simpl.
  - by rewrite bool_decide_eq_true_2.
  - simpl in Hout. apply not_elem_of_cons in Hout as [Hne Hout].
    rewrite bool_decide_eq_false_2 by congruence. f_equal. by apply IH.
Qed.

Lemma split_head_whole (c : Ascii.ascii) (s : string) :
  ¬ occurs c s → JS.split_head c s = s.
Proof.
  unfold occurs. induction s as [|a s IH]; intros Hout; simpl; [done|].
  simpl in Hout. apply not_elem_of_cons in Hout as [Hne Hout].
  rewrite bool_decide_eq_false_2 by congruence. f_equal. by apply IH.
Qed.

Lemma preferences_keep_profiles gen (db : Remote) (userId : string) :
  user_profiles (snd (getOrCreatePreferences gen db userId)) = user_profiles db.
Proof. unfold getOrCreatePreferences. by destruct (Supabase.single _). Qed.

Lemma filter_update_id (userId pid : string) (table : list UserProfile.t) :
  filter (λ row, UserProfile.id row = pid)
    (Supabase.update (λ row, bool_decide (UserProfile.id row = pid))
       (set_user_id userId) table)
  = set_user_id userId <$> filter (λ row, UserProfile.id row = pid) table.
Proof.
  unfold Supabase.update. induction table as [|r table IH]; [done|].
  rewrite fmap_cons, !filter_cons.
  destruct (decide (UserProfile.id r = pid)) as [Hr|Hr].
  - rewrite bool_decide_eq_true_2 by done.
    rewrite decide_True by done. by rewrite fmap_cons, IH.
  - rewrite bool_decide_eq_false_2 by done. by rewrite decide_False, IH.
Qed.

(** Once no profile is bound to the identity, the profiles bound to it
    after the adoption are the adopted rows. *)
Lemma adopted_profiles_of (userId pid : string) (table : list UserProfile.t) :
  Forall (λ row, ¬ UserProfile.user_id row = Some userId) table →
  filter (λ row, UserProfile.user_id row = Some userId)
    (Supabase.update (λ row, bool_decide (UserProfile.id row = pid))
       (set_user_id userId) table)
  = set_user_id userId <$> filter (λ row, UserProfile.id row = pid) table.
Proof.
  unfold Supabase.update. induction 1 as [|r table Hr _ IH]; [done|].
  rewrite fmap_cons, !filter_cons.
  destruct (decide (UserProfile.id r = pid)) as [Hid|Hid].
  - rewrite bool_decide_eq_true_2 by done.
    rewrite decide_True by done. by rewrite fmap_cons, IH.
  - rewrite bool_decide_eq_false_2 by done. by rewrite decide_False, IH.
Qed.

Section Resolution.

Variable gen_random_uuid : Remote → string.

Lemma resolve_by_identity (db : Remote) (userId email0 : string)
    (p : UserProfile.t) :
  profiles_of db userId = [p] →
  getOrCreateProfile gen_random_uuid db userId email0 = (Some p, db).
Proof.
  unfold profiles_of, getOrCreateProfile. by intros ->.
Qed.

Lemma resolve_by_email (db : Remote) (userId email0 : string)
    (pe : UserProfile.t) :
  NoDup (UserProfile.id <$> user_profiles db) →
  profiles_of db userId = [] →
  profiles_with_email db email0 = [pe] →
  getOrCreateProfile gen_random_uuid db userId email0
  = (Some (set_user_id userId pe),
     with_profiles db
       (Supabase.update
          (λ row, bool_decide (UserProfile.id row = UserProfile.id pe))
          (set_user_id userId) (user_profiles db))).
Proof.
  unfold profiles_of, profiles_with_email, getOrCreateProfile.
  intros ids_key -> Hpe. rewrite Hpe.
  cbn [Supabase.single with_profiles user_profiles].
  rewrite filter_update_id.
  assert (pe ∈ user_profiles db) as Hin.
  { assert (pe ∈ filter (λ row, UserProfile.email row = email0)
                   (user_profiles db)) as H
      by (rewrite Hpe; apply list_elem_of_here).
    by apply list_elem_of_filter in H as [_ H]. }
  rewrite (filter_key_NoDup UserProfile.id _ pe) by done. done.
Qed.

Lemma resolve_by_creation (db : Remote) (userId email0 : string) :
  profiles_of db userId = [] →
  Supabase.single (profiles_with_email db email0) = None →
  fst (getOrCreateProfile gen_random_uuid db userId email0)
  = Some {| UserProfile.id := gen_random_uuid db;
            UserProfile.user_id := Some userId;
            UserProfile.name := Some (JS.split_head JS.at_sign email0);
            UserProfile.email := email0;
            UserProfile.phone := None;
            UserProfile.avatar_url := None |}
  ∧ user_profiles (snd (getOrCreateProfile gen_random_uuid db userId email0))
    = user_profiles db
      ++ [ {| UserProfile.id := gen_random_uuid db;
              UserProfile.user_id := Some userId;
              UserProfile.name := Some (JS.split_head JS.at_sign email0);
              UserProfile.email := email0;
              UserProfile.phone := None;
              UserProfile.avatar_url := None |} ].
Proof.
  unfold profiles_of, profiles_with_email, getOrCreateProfile.
  intros -> ->. cbn [Supabase.single fst snd].
  by rewrite preferences_keep_profiles.
Qed.

(** The first call returns a profile; the second call finds it and
    writes nothing. *)
Lemma resolve_again (db : Remote) (userId email0 email1 : string) :
  NoDup (UserProfile.id <$> user_profiles db) →
  (length (profiles_of db userId) ≤ 1)%nat →
  is_Some (fst (getOrCreateProfile gen_random_uuid db userId email0))
  ∧ getOrCreateProfile gen_random_uuid
      (snd (getOrCreateProfile gen_random_uuid db userId email0)) userId email1
    = getOrCreateProfile gen_random_uuid db userId email0.
Proof.
  intros ids_key one_per_identity.
  destruct (profiles_of db userId) as [|p [|p' rest]] eqn:Hid;
    [| |simpl in one_per_identity; lia].
  - destruct (Supabase.single (profiles_with_email db email0)) as [pe|] eqn:Hem.
    + apply single_Some in Hem.
      rewrite (resolve_by_email db userId email0 pe ids_key Hid Hem).
      split; [by eexists|]. cbn [snd fst].
      apply resolve_by_identity. unfold profiles_of.
      cbn [with_profiles user_profiles].
      rewrite adopted_profiles_of
        by (apply (filter_nil_Forall
                     (λ row, UserProfile.user_id row = Some userId));
            exact Hid).
      assert (pe ∈ user_profiles db) as Hin.
      { assert (pe ∈ profiles_with_email db email0) as H
          by (rewrite Hem; apply list_elem_of_here).
        by apply list_elem_of_filter in H as [_ H]. }
      rewrite (filter_key_NoDup UserProfile.id _ pe) by done. done.
    + destruct (resolve_by_creation db userId email0 Hid Hem) as [Hfst Hsnd].
      split; [rewrite Hfst; by eexists|].
      rewrite (surjective_pairing
                 (getOrCreateProfile gen_random_uuid db userId email0)) at 2.
      rewrite Hfst. apply resolve_by_identity.
      unfold profiles_of in *. rewrite Hsnd, filter_app, Hid.
      by rewrite filter_cons_True.
  - rewrite (resolve_by_identity db userId email0 p Hid).
    split; [by eexists|]. cbn [snd]. by apply resolve_by_identity.
Qed.

End Resolution.

(** C7.  In a store where profile ids are a key and at most one profile
    is bound to the identity, [getOrCreateProfile] resolves in three
    steps: a profile bound to the identity is returned as it is; failing
    that, the profile recorded with the email is bound to the identity
    (nothing else of it changes, no row is added) and returned; failing
    both, one row is added, bound to the identity, with the email and,
    as name, the text of the email before its first ['@'].  The call
    always returns a profile, and a second call with the same identity
    returns the same profile and leaves the store as it is. *)
Theorem getOrCreateProfile_spec (gen_random_uuid : Remote → string)
    (db : Remote) (userId email0 : string) :
  NoDup (UserProfile.id <$> user_profiles db) →
  (length (profiles_of db userId) ≤ 1)%nat →
  (∀ p, profiles_of db userId = [p] →
        getOrCreateProfile gen_random_uuid db userId email0 = (Some p, db))
  ∧ (∀ pe, profiles_of db userId = [] →
           profiles_with_email db email0 = [pe] →
           fst (getOrCreateProfile gen_random_uuid db userId email0)
           = Some (set_user_id userId pe)
           ∧ user_profiles
               (snd (getOrCreateProfile gen_random_uuid db userId email0))
             = (λ row, if decide (row = pe) then set_user_id userId pe else row)
                 <$> user_profiles db)
  ∧ (profiles_of db userId = [] →
     Supabase.single (profiles_with_email db email0) = None →
     ∃ newProfile,
       fst (getOrCreateProfile gen_random_uuid db userId email0)
       = Some newProfile
       ∧ user_profiles
           (snd (getOrCreateProfile gen_random_uuid db userId email0))
         = user_profiles db ++ [newProfile]
       ∧ UserProfile.user_id newProfile = Some userId
       ∧ UserProfile.email newProfile = email0
       ∧ (∀ local rest, ¬ occurs JS.at_sign local →
            email0 = (local ++ String JS.at_sign rest)%string →
            UserProfile.name newProfile = Some local)
       ∧ (¬ occurs JS.at_sign email0 →
          UserProfile.name newProfile = Some email0))
  ∧ (∃ p, fst (getOrCreateProfile gen_random_uuid db userId email0) = Some p)
  ∧ (∀ email1,
        getOrCreateProfile gen_random_uuid
          (snd (getOrCreateProfile gen_random_uuid db userId email0))
          userId email1
        = getOrCreateProfile gen_random_uuid db userId email0).
Proof.
  intros ids_key one_per_identity.
  split; [|split; [|split; [|split]]].
  - intros p Hp. by apply resolve_by_identity.
  - intros pe Hid Hem.
    rewrite (resolve_by_email _ db userId email0 pe) by done.
    split; [done|].
    cbn [snd with_profiles user_profiles]. unfold Supabase.update.
    apply list_fmap_ext. intros i row Hrow.
    apply list_elem_of_lookup_2 in Hrow.
    assert (pe ∈ user_profiles db) as Hin.
    { assert (pe ∈ profiles_with_email db email0) as H'
        by (rewrite Hem; apply list_elem_of_here).
      by apply list_elem_of_filter in H' as [_ H']. }
    destruct (decide (row = pe)) as [Heq|Hne].
    + subst row. by rewrite bool_decide_eq_true_2.
    + rewrite bool_decide_eq_false_2; [done|]. intros Heq. apply Hne.
      assert (row ∈ filter (λ r, UserProfile.id r = UserProfile.id pe)
                      (user_profiles db)) as Hf
        by (by apply list_elem_of_filter).
      rewrite (filter_key_NoDup UserProfile.id _ pe) in Hf by done.
      by apply list_elem_of_singleton in Hf.
  - intros Hid Hem.
    destruct (resolve_by_creation gen_random_uuid db userId email0 Hid Hem)
      as [Hfst Hsnd].
    eexists. split; [exact Hfst|]. split; [exact Hsnd|].
    cbn [UserProfile.user_id UserProfile.email UserProfile.name].
    split; [done|]. split; [done|]. split.
    + intros local rest Hout ->. by rewrite split_head_app.
    + intros Hout. by rewrite split_head_whole.
  - apply (resolve_again gen_random_uuid db userId email0 email0); done.
  - intros email1.
    apply (resolve_again gen_random_uuid db userId email0 email1); done.
Qed.

(** An instance: Ali's guest profile is adopted, Omar's is created. *)
Lemma getOrCreateProfile_spec_witness :
  fst (getOrCreateProfile guest_uuid guest_db "u1" "ali@example.com")
  = Some (set_user_id "u1" guest_ali)
  ∧ (∃ newProfile,
        fst (getOrCreateProfile guest_uuid guest_db "u2" "omar@example.com")
        = Some newProfile
        ∧ UserProfile.name newProfile = Some "omar")
  ∧ getOrCreateProfile guest_uuid
      (snd (getOrCreateProfile guest_uuid guest_db "u2" "omar@example.com"))
      "u2" "omar@example.com"
    = getOrCreateProfile guest_uuid guest_db "u2" "omar@example.com".
Proof.
  assert (NoDup (UserProfile.id <$> user_profiles guest_db)) as Hkey
    by (apply (bool_decide_unpack _); vm_compute; exact I).
  split; [|split].
  - destruct (getOrCreateProfile_spec guest_uuid guest_db "u1"
                "ali@example.com" Hkey) as (_ & Hadopt & _).
    + vm_compute. lia.
    + apply (Hadopt guest_ali); vm_compute; reflexivity.
  - destruct (getOrCreateProfile_spec guest_uuid guest_db "u2"
                "omar@example.com" Hkey) as (_ & _ & Hnew & _).
    + vm_compute. lia.
    + destruct Hnew as (np & Hfst & _ & _ & _ & Hname & _);
        [vm_compute; reflexivity | vm_compute; reflexivity |].
      exists np. split; [exact Hfst|].
      apply (Hname "omar" "example.com"); [|reflexivity].
      unfold occurs. vm_compute. intros Hin.
      repeat (apply elem_of_cons in Hin as [Hin|Hin]; [discriminate Hin|]).
      by apply elem_of_nil in Hin.
  - destruct (getOrCreateProfile_spec guest_uuid guest_db "u2"
                "omar@example.com" Hkey) as (_ & _ & _ & _ & Htwice).
    + vm_compute. lia.
    + apply Htwice.
Defined.

End ProfileClaims.

(** ** Addresses *)

Module AddressClaims.

Import UserContext Spec SupabaseFacts.

Lemma filter_fmap_key {A B} (h : A → B) (P : B → Prop) (Q : A → Prop)
    `{∀ y, Decision (P y)} `{∀ x, Decision (Q x)} (l : list A) :
  (∀ x, P (h x) ↔ Q x) → filter P (h <$> l) = h <$> filter Q l.
Proof.
  intros HPQ. induction l as [|x l IH]; [done|].
  rewrite fmap_cons, !filter_cons.
  destruct (decide (Q x)) as [Hx|Hx].
  - rewrite decide_True by (by apply HPQ). by rewrite fmap_cons, IH.
  - rewrite decide_False by (by rewrite HPQ). exact IH.
Qed.

(** Flagging by id in a list keyed by id flags exactly one element. *)
Lemma exactly_one_default {A} (key : A → string) (h : A → UserAddress.t)
    (L : list A) (id0 : string) :
  (∀ r, UserAddress.id (h r) = key r) →
  (∀ r, UserAddress.isDefault (h r) = bool_decide (key r = id0)) →
  NoDup (key <$> L) → id0 ∈ key <$> L →
  (∀ a, a ∈ h <$> L → (UserAddress.isDefault a = true ↔ UserAddress.id a = id0))
  ∧ length (defaults (h <$> L)) = 1%nat
  ∧ id0 ∈ UserAddress.id <$> (h <$> L).
Proof.
  intros Hid Hdef Hnd Hin. split; [|split].
  - intros a Ha. apply list_elem_of_fmap in Ha as (r & -> & _).
    rewrite Hid, Hdef. apply bool_decide_eq_true.
  - unfold defaults.
    rewrite (filter_fmap_key h _ (λ r, key r = id0)).
    + apply list_elem_of_fmap in Hin as (x & -> & Hx).
      rewrite (filter_key_NoDup key L x) by done. done.
    + intros r. rewrite Hdef. apply bool_decide_eq_true.
  - rewrite <- list_fmap_compose.
    apply list_elem_of_fmap in Hin as (x & -> & Hx).
    apply list_elem_of_fmap. exists x. split; [|done]. simpl. by rewrite Hid.
Qed.

(** The rows of the profile after the two requests of
    [setDefaultAddress]. *)
Lemma rows_after_setDefaultAddress (db : UserProfileService.Remote)
    (addressId pid : string) :
  filter (λ row, UserProfileService.UserAddress.user_profile_id row = pid)
    (UserProfileService.user_addresses
       (UserProfileService.setDefaultAddress db addressId pid))
  = (λ row, UserProfileService.set_is_default
              (bool_decide (UserProfileService.UserAddress.id row = addressId))
              row)
      <$> filter (λ row, UserProfileService.UserAddress.user_profile_id row = pid)
            (UserProfileService.user_addresses db).
Proof.
  unfold UserProfileService.setDefaultAddress, UserProfileService.set_default,
    UserProfileService.unset_defaults.
  cbn [UserProfileService.with_addresses UserProfileService.user_addresses].
  unfold Supabase.update. rewrite <- list_fmap_compose.
  induction (UserProfileService.user_addresses db) as [|r rows IH]; [done|].
  rewrite fmap_cons, !filter_cons. cbn [compose].
  destruct (decide (UserProfileService.UserAddress.user_profile_id r = pid))
    as [Hp|Hp].
  - rewrite (bool_decide_eq_true_2 _ Hp).
    cbn [UserProfileService.set_is_default UserProfileService.UserAddress.id
         UserProfileService.UserAddress.user_profile_id].
    rewrite (bool_decide_eq_true_2 _ Hp), andb_true_r.
    rewrite fmap_cons.
    destruct (bool_decide (UserProfileService.UserAddress.id r = addressId));
      rewrite decide_True by exact Hp; rewrite IH; done.
  - rewrite (bool_decide_eq_false_2 _ Hp). cbn iota.
    rewrite (bool_decide_eq_false_2 _ Hp), andb_false_r.
    rewrite decide_False by done. exact IH.
Qed.

Lemma unset_defaults_clears (db : UserProfileService.Remote) (pid : string) :
  Forall (λ row, UserProfileService.UserAddress.user_profile_id row = pid →
                 UserProfileService.UserAddress.is_default row = false)
    (UserProfileService.user_addresses
       (UserProfileService.unset_defaults db pid)).
Proof.
  unfold UserProfileService.unset_defaults.
  cbn [UserProfileService.with_addresses UserProfileService.user_addresses].
  unfold Supabase.update. apply Forall_fmap, Forall_forall. intros r _. simpl.
  destruct (bool_decide_reflect
              (UserProfileService.UserAddress.user_profile_id r = pid));
    simpl; [done|]. intros; done.
Qed.

Lemma remote_profile_Some (w : World) (p : UserProfile) :
  remote_profile w = Some p → profile (state w) = Some p.
Proof.
  unfold remote_profile. destruct (JS.truthy _); [|done].
  destruct (profile (state w)) as [p0|]; [|done].
  destruct (bool_decide _); [|done]. by intros [= ->].
Qed.

(** C8.  For every profile one of whose addresses has the given id
    (ids identifying addresses), after [setDefaultAddress id] the
    profile's addresses are flagged as default exactly when their id is
    the given one, and exactly one of them is.  This holds on the local
    path (the reducer) and on the remote path (two requests, then the
    refetch of the ordered address list).  The remote operation is the
    request that sets the target applied after the request that unsets
    every address of the profile; between the two no address of the
    profile is a default. *)
Theorem setDefaultAddress_exactly_one :
  (∀ (w : World) (p : UserProfile) (id0 : string),
      profile (state w) = Some p →
      address_known w p id0 →
      ∃ p',
        profile (state (setDefaultAddress w id0)) = Some p'
        ∧ (∀ a, a ∈ addresses p' →
                (UserAddress.isDefault a = true ↔ UserAddress.id a = id0))
        ∧ length (defaults (addresses p')) = 1%nat
        ∧ id0 ∈ UserAddress.id <$> addresses p')
  ∧ (∀ (db : UserProfileService.Remote) (addressId pid : string),
        UserProfileService.setDefaultAddress db addressId pid
        = UserProfileService.set_default
            (UserProfileService.unset_defaults db pid) addressId pid
        ∧ Forall
            (λ row, UserProfileService.UserAddress.user_profile_id row = pid →
                    UserProfileService.UserAddress.is_default row = false)
            (UserProfileService.user_addresses
               (UserProfileService.unset_defaults db pid))).
Proof.
  split; [|intros db addressId pid; split;
            [done | apply unset_defaults_clears]].
  intros w p id0 Hp Hknown. unfold address_known in Hknown.
  unfold setDefaultAddress.
  destruct (remote_profile w) as [p0|] eqn:Hrp.
  - apply remote_profile_Some in Hrp. rewrite Hp in Hrp.
    injection Hrp as <-. destruct Hknown as (Hnd & row & Hrow & Hid & Hpid).
    eexists. split; [done|].
    cbn [refresh_addresses with_addresses addresses].
    unfold UserProfileService.getAddresses.
    pose (L := filter
                 (λ r, UserProfileService.UserAddress.user_profile_id r = id p)
                 (UserProfileService.user_addresses (remote w))).
    pose proof (rows_after_setDefaultAddress (remote w) id0 (id p)) as Hrows.
    fold L in Hrows.
    destruct (exactly_one_default UserProfileService.UserAddress.id
                (to_local
                 ∘ (λ r, UserProfileService.set_is_default
                           (bool_decide
                              (UserProfileService.UserAddress.id r = id0)) r))
                L id0) as (Hflag & Hone & Hmem).
    + done.
    + done.
    + by apply NoDup_key_filter.
    + apply list_elem_of_fmap. exists row. split; [done|].
      by apply list_elem_of_filter.
    + rewrite list_fmap_compose, <- Hrows in Hflag, Hone, Hmem.
      split; [|split].
      * intros a Ha. apply Hflag. revert Ha.
        by rewrite merge_sort_Permutation.
      * rewrite <- Hone. unfold defaults.
        by rewrite merge_sort_Permutation.
      * revert Hmem. by rewrite merge_sort_Permutation.
  - destruct Hknown as [Hnd Hin].
    cbn [dispatch state userReducer]. rewrite Hp.
    eexists. split; [done|]. cbn [with_addresses addresses].
    destruct (exactly_one_default UserAddress.id
                (λ addr, with_isDefault addr
                           (bool_decide (UserAddress.id addr = id0)))
                (addresses p) id0) as (Hflag & Hone & Hmem); done.
Qed.

(** An instance on each path: a guest's local addresses, a member's
    remote rows. *)
Lemma setDefaultAddress_exactly_one_witness :
  (∃ p', profile (state (setDefaultAddress guest_world "address_2")) = Some p'
         ∧ length (defaults (addresses p')) = 1%nat)
  ∧ (∃ p', profile (state (setDefaultAddress member_world "a3")) = Some p'
           ∧ length (defaults (addresses p')) = 1%nat).
Proof.
  split.
  - destruct (proj1 setDefaultAddress_exactly_one guest_world guest_profile
                "address_2") as (p' & Hp' & _ & Hone & _).
    + reflexivity.
    + split; [apply (bool_decide_unpack _); vm_compute; exact I|].
      vm_compute. apply list_elem_of_further, list_elem_of_here.
    + by exists p'.
  - destruct (proj1 setDefaultAddress_exactly_one member_world member_profile
                "a3") as (p' & Hp' & _ & Hone & _).
    + reflexivity.
    + split; [apply (bool_decide_unpack _); vm_compute; exact I|].
      exists (address_row "a3" "p1" "Office" false 30).
      split; [|split; reflexivity].
      do 2 apply list_elem_of_further. apply list_elem_of_here.
    + by exists p'.
Defined.

End AddressClaims.

(** ** Orders *)

Module OrderClaims.

Import OrderContext Spec.

Lemma is_active_open (o : ExtendedOrder) :
  is_active o ↔ open_status (order_status o).
Proof.
  unfold is_active, open_status. rewrite !elem_of_cons, elem_of_nil. tauto.
Qed.

Lemma is_history_terminal (o : ExtendedOrder) :
  is_history o ↔ terminal_status (order_status o).
Proof.
  unfold is_history, terminal_status. rewrite !elem_of_cons, elem_of_nil. tauto.
Qed.

Lemma filter_is_active (l : list ExtendedOrder) :
  filter is_active l = filter (λ o, open_status (order_status o)) l.
Proof. apply list_filter_iff, is_active_open. Qed.

Lemma filter_is_history (l : list ExtendedOrder) :
  filter is_history l = filter (λ o, terminal_status (order_status o)) l.
Proof. apply list_filter_iff, is_history_terminal. Qed.

(** The three actions that change the order list recompute both lists
    from it, whatever the lists were before. *)
Lemma partitioned_recomputed (s : OrderState) (a : OrderAction) :
  match a with
  | SET_ORDERS _ | ADD_ORDER _ | UPDATE_ORDER _ | CLEAR_ORDERS => True
  | _ => False
  end →
  partitioned (orderReducer s a).
Proof.
  destruct a; intros Ha; try done;
    unfold partitioned; cbn [orderReducer orders activeOrders orderHistory];
    by rewrite ?filter_is_active, ?filter_is_history.
Qed.

Lemma partitioned_step (s : OrderState) (a : OrderAction) :
  partitioned s → partitioned (orderReducer s a).
Proof.
  intros Hs. destruct a; try (by apply partitioned_recomputed); exact Hs.
Qed.

Lemma partitioned_foldl (s : OrderState) (acts : list OrderAction) :
  partitioned s → partitioned (foldl orderReducer s acts).
Proof.
  revert s. induction acts as [|a acts IH]; intros s Hs; [done|].
  simpl. by apply IH, partitioned_step.
Qed.

(** C9.  After every sequence of actions the active list is the sublist
    of the order list whose status is pending, confirmed, preparing,
    ready or out_for_delivery, and the history list the sublist whose
    status is delivered or cancelled.  SET_ORDERS, ADD_ORDER and
    UPDATE_ORDER recompute both lists from the new order list, whatever
    was stored before.  Loading the empty list gives an empty active
    list and an empty history list, with no error and loading off. *)
Theorem orders_partitioned :
  (∀ acts : list OrderAction,
      partitioned (replay acts)
      ∧ (∀ o, o ∈ activeOrders (replay acts)
              ↔ o ∈ orders (replay acts) ∧ open_status (order_status o))
      ∧ (∀ o, o ∈ orderHistory (replay acts)
              ↔ o ∈ orders (replay acts) ∧ terminal_status (order_status o)))
  ∧ (∀ (s : OrderState) (payload : list ExtendedOrder),
        orders (orderReducer s (SET_ORDERS payload)) = payload
        ∧ partitioned (orderReducer s (SET_ORDERS payload)))
  ∧ (∀ (s : OrderState) (payload : ExtendedOrder),
        orders (orderReducer s (ADD_ORDER payload)) = payload :: orders s
        ∧ partitioned (orderReducer s (ADD_ORDER payload))
        ∧ partitioned (orderReducer s (UPDATE_ORDER payload)))
  ∧ (∀ s : OrderState,
        orders (orderReducer s (SET_ORDERS [])) = []
        ∧ activeOrders (orderReducer s (SET_ORDERS [])) = []
        ∧ orderHistory (orderReducer s (SET_ORDERS [])) = []
        ∧ error (orderReducer s (SET_ORDERS [])) = None
        ∧ loading (orderReducer s (SET_ORDERS [])) = false).
Proof.
  split; [|split; [|split]].
  - intros acts.
    assert (partitioned (replay acts)) as Hp
      by (apply partitioned_foldl; by split).
    split; [exact Hp|]. destruct Hp as [Ha Hh]. split; intros o.
    + rewrite Ha, list_elem_of_filter. tauto.
    + rewrite Hh, list_elem_of_filter. tauto.
  - intros s payload. split; [done|]. by apply partitioned_recomputed.
  - intros s payload. split; [done|].
    split; by apply partitioned_recomputed.
  - intros s. done.
Qed.

End OrderClaims.

(** * Further properties *)

(** ** The cart reducer and its provider *)

Module CartExtras.

Import CartContext CartProvider Spec Notions CartReducer CartInvariants
  SupabaseFacts.

Lemma ids_rewrite_first (p : CartItem → bool) (g : CartItem → CartItem)
    (l : list CartItem) :
  (∀ x, id (g x) = id x) → id <$> rewrite_first p g l = id <$> l.
Proof.
  intros Hg. induction l as [|x l IH]; [done|]. simpl.
  destruct (p x); rewrite !fmap_cons; [by rewrite Hg | by rewrite IH].
Qed.

Lemma ids_set_quantity (id0 : string) (q : Z) (l : list CartItem) :
  id <$> (set_quantity id0 q <$> l) = id <$> l.
Proof.
  rewrite <- list_fmap_compose. apply list_fmap_ext. intros i x _. simpl.
  unfold set_quantity. by destruct (bool_decide _).
Qed.

Lemma distinct_action_of (s : CartState) (op : CartOp) :
  NoDup (id <$> items s) → NoDup (id <$> items (cartReducer s (action_of op))).
Proof.
  intros Hs. destruct op as [item|id0|id0 q]; cbn [action_of].
  - rewrite items_ADD_ITEM. destruct (decide _) as [Hin|Hout].
    + by rewrite ids_rewrite_first.
    + rewrite fmap_app. apply NoDup_app. split; [done|]. split.
      * intros x Hx Hx'. apply list_elem_of_singleton in Hx'. by subst.
      * apply NoDup_singleton.
  - cbn [cartReducer with_items items]. by apply NoDup_key_filter.
  - rewrite items_UPDATE_QUANTITY. apply NoDup_key_filter.
    by rewrite ids_set_quantity.
Qed.

Lemma distinct_run (w : World) (ops : list CartOp) :
  NoDup (id <$> items (state w)) → NoDup (id <$> items (state (run w ops))).
Proof.
  revert w. induction ops as [|op ops IH]; intros w Hw; [done|].
  cbn [run foldl]. apply IH. rewrite state_apply_op.
  by apply distinct_action_of.
Qed.

(** X1.  The item ids of a cart stay pairwise distinct: every cart reached
    from the empty cart by [addItem], [removeItem] and [updateQuantity],
    with any payloads, has no two items with the same id. *)
Theorem cart_ids_stay_distinct (user0 : option string)
    (table : list CartSyncService.CartSession) (ops : list CartOp) :
  NoDup (id <$> items (state (run (mount user0 table) ops))).
Proof. apply distinct_run. simpl. apply NoDup_nil_2. Qed.

Lemma sum_prices_app (l k : list CartItem) :
  sum_prices (l ++ k) = sum_prices l + sum_prices k.
Proof. induction l as [|x l IH]; simpl; [done | rewrite IH; lia]. Qed.

Lemma sum_prices_split (P : CartItem → Prop) `{∀ x, Decision (P x)}
    (l : list CartItem) :
  sum_prices l = sum_prices (filter P l) + sum_prices (filter (λ x, ¬ P x) l).
Proof.
  induction l as [|x l IH]; [done|]. rewrite !filter_cons.
  destruct (decide (P x)) as [Hx|Hx].
  - rewrite decide_False by tauto. simpl. lia.
  - rewrite decide_True by done. simpl. lia.
Qed.

Lemma filter_idem {A} (P : A → Prop) `{∀ x, Decision (P x)} (l : list A) :
  filter P (filter P l) = filter P l.
Proof.
  apply filter_all, Forall_forall. intros x Hx.
  by apply list_elem_of_filter in Hx as [Hx _].
Qed.

Lemma filter_absent_id (id0 : string) (l : list CartItem) :
  id0 ∉ id <$> l → filter (λ item, id item ≠ id0) l = l.
Proof.
  intros Hout. apply filter_all, Forall_forall. intros x Hx Heq.
  apply Hout. rewrite <- Heq. apply list_elem_of_fmap. by exists x.
Qed.

(** X2.  [removeItem id] deletes every item with that id and keeps the
    others in order; the stored subtotal becomes the old sum of prices
    less the prices of the deleted items; removing an id that is not in
    the cart leaves the items as they are; removing twice is removing
    once. *)
Theorem removeItem_effect (w : World) (id0 : string) :
  items (state (removeItem w id0))
  = filter (λ item, id item ≠ id0) (items (state w))
  ∧ (id0 ∉ id <$> items (state (removeItem w id0)))
  ∧ subtotal (state (removeItem w id0))
    = sum_prices (items (state w))
      - sum_prices (filter (λ item, id item = id0) (items (state w)))
  ∧ (id0 ∉ id <$> items (state w) →
     items (state (removeItem w id0)) = items (state w))
  ∧ state (removeItem (removeItem w id0) id0) = state (removeItem w id0).
Proof.
  rewrite !state_removeItem. cbn [cartReducer with_items items subtotal].
  split; [done|]. split; [|split; [|split]].
  - rewrite list_elem_of_fmap. intros (x & Hid & Hx).
    apply list_elem_of_filter in Hx as [Hne _]. congruence.
  - rewrite CartTotals.subtotal_calculateTotals.
    rewrite (sum_prices_split (λ item, id item = id0) (items (state w))).
    lia.
  - apply filter_absent_id.
  - unfold with_items. cbn [items isLoading]. by rewrite filter_idem.
Qed.

Lemma removeItem_effect_witness :
  items (state (removeItem (run (mount None []) [OpAddItem item_A]) "B"))
  = items (state (run (mount None []) [OpAddItem item_A])).
Proof.
  apply (proj1 (proj2 (proj2 (proj2
           (removeItem_effect (run (mount None []) [OpAddItem item_A]) "B"))))).
  vm_compute. intros Hin.
  apply elem_of_cons in Hin as [Hin|Hin]; [discriminate Hin|].
  by apply elem_of_nil in Hin.
Defined.

(** X3.  Adding an item whose id is not in the cart appends it, and the
    stored subtotal grows by its price; removing that id again gives the
    items back, and the whole state when the stored totals were those of
    the items. *)
Theorem addItem_removeItem_round_trip (w : World) (item : CartItem) :
  id item ∉ id <$> items (state w) →
  items (state (addItem w item)) = items (state w) ++ [item]
  ∧ subtotal (state (addItem w item))
    = sum_prices (items (state w)) + totalPrice item
  ∧ items (state (removeItem (addItem w item) (id item))) = items (state w)
  ∧ (in_sync (state w) →
     state (removeItem (addItem w item) (id item)) = state w).
Proof.
  intros Hout.
  assert (items (state (addItem w item)) = items (state w) ++ [item]) as Hadd.
  { unfold addItem.
    change (state (dispatch w (ADD_ITEM item)))
      with (cartReducer (state w) (ADD_ITEM item)).
    rewrite items_ADD_ITEM. by rewrite decide_False. }
  assert (items (state (removeItem (addItem w item) (id item)))
          = items (state w)) as Hrem.
  { rewrite state_removeItem. cbn [cartReducer with_items items]. rewrite Hadd.
    rewrite filter_app, filter_absent_id by done.
    rewrite filter_cons_False by (intros H; by apply H). by rewrite app_nil_r. }
  split; [exact Hadd|]. split; [|split; [exact Hrem|]].
  - pose proof (in_sync_action_of (state w) (OpAddItem item)) as Hs.
    cbn [action_of] in Hs. unfold in_sync, stored_totals in Hs.
    change (cartReducer (state w) (ADD_ITEM item))
      with (state (addItem w item)) in Hs.
    assert (subtotal (state (addItem w item))
            = t_subtotal (calculateTotals (items (state (addItem w item)))))
      as -> by (by rewrite <- Hs).
    rewrite CartTotals.subtotal_calculateTotals, Hadd, sum_prices_app.
    simpl. lia.
  - intros Hsync.
    pose proof (in_sync_action_of (state (addItem w item))
                  (OpRemoveItem (id item))) as Hs.
    cbn [action_of] in Hs. rewrite <- state_removeItem in Hs.
    unfold in_sync in *. rewrite Hrem, <- Hsync in Hs.
    assert (isLoading (state (removeItem (addItem w item) (id item)))
            = isLoading (state w)) as Hl
      by (by rewrite state_removeItem).
    destruct (state (removeItem (addItem w item) (id item))).
    destruct (state w). unfold stored_totals in Hs. simpl in *.
    injection Hs as -> -> -> ->. by subst.
Qed.

Lemma addItem_removeItem_round_trip_witness :
  state (removeItem (addItem (run (mount None []) [OpAddItem item_A]) item_B)
           "B")
  = state (run (mount None []) [OpAddItem item_A]).
Proof.
  apply (proj2 (proj2 (proj2
           (addItem_removeItem_round_trip
              (run (mount None []) [OpAddItem item_A]) item_B
              ltac:(vm_compute; intros Hin;
                    apply elem_of_cons in Hin as [Hin|Hin];
                    [discriminate Hin | by apply elem_of_nil in Hin]))))).
  reflexivity.
Defined.

Lemma sum_prices_nonnegative (l : list CartItem) :
  prices_nonnegative l → 0 ≤ sum_prices l.
Proof. induction 1 as [|x l Hx _ IH]; simpl; lia. Qed.

Lemma tax_rounds (l : list CartItem) :
  rounds_to (sum_prices l * 15) 100 (t_tax (calculateTotals l)).
Proof.
  unfold calculateTotals. cbn [t_tax]. rewrite CartTotals.foldl_prices, Z.add_0_l.
  apply CartTotals.Math_round_rounds. lia.
Qed.

Lemma fee_cases (l : list CartItem) :
  (1000 < sum_prices l ∧ t_deliveryFee (calculateTotals l) = 0)
  ∨ (sum_prices l ≤ 1000 ∧ t_deliveryFee (calculateTotals l) = 150).
Proof.
  unfold calculateTotals. cbn [t_deliveryFee].
  rewrite CartTotals.foldl_prices, Z.add_0_l.
  destruct (bool_decide_reflect (sum_prices l > 1000)); [left | right]; lia.
Qed.

Lemma total_sum (l : list CartItem) :
  t_total (calculateTotals l)
  = sum_prices l + t_deliveryFee (calculateTotals l)
    + t_tax (calculateTotals l).
Proof.
  unfold calculateTotals. cbn [t_total t_deliveryFee t_tax].
  rewrite CartTotals.foldl_prices. lia.
Qed.

(** X4.  For items with non-negative prices the tax lies between 0 and the
    subtotal, the total is at least the subtotal and at most twice the
    subtotal plus 150, and the tax never decreases when the subtotal
    grows. *)
Theorem totals_bounds (l l' : list CartItem) :
  prices_nonnegative l →
  0 ≤ t_subtotal (calculateTotals l)
  ∧ 0 ≤ t_tax (calculateTotals l) ≤ t_subtotal (calculateTotals l)
  ∧ t_subtotal (calculateTotals l) ≤ t_total (calculateTotals l)
  ∧ t_total (calculateTotals l) ≤ 2 * t_subtotal (calculateTotals l) + 150
  ∧ (sum_prices l ≤ sum_prices l' →
     t_tax (calculateTotals l) ≤ t_tax (calculateTotals l')).
Proof.
  intros Hl. apply sum_prices_nonnegative in Hl.
  rewrite total_sum, !CartTotals.subtotal_calculateTotals.
  pose proof (tax_rounds l) as [H1 H2]. pose proof (tax_rounds l') as [H3 H4].
  destruct (fee_cases l) as [[? ->]|[? ->]]; repeat split; lia.
Qed.

Lemma totals_bounds_witness :
  t_tax (calculateTotals [item_A]) ≤ t_tax (calculateTotals [item_A; item_B]).
Proof.
  apply (totals_bounds [item_A] [item_A; item_B]).
  - repeat constructor; vm_compute; discriminate.
  - vm_compute. discriminate.
Defined.

(** X5.  The total is not monotone in the subtotal: when a cart at or
    below the free-delivery threshold of 1000 grows by at most 129 and
    thereby passes the threshold, its total gets smaller. *)
Theorem free_delivery_lowers_total (l l' : list CartItem) :
  sum_prices l ≤ 1000 → 1000 < sum_prices l' →
  sum_prices l' - sum_prices l ≤ 129 →
  t_total (calculateTotals l') < t_total (calculateTotals l).
Proof.
  intros Hl Hl' Hd. rewrite !total_sum.
  pose proof (tax_rounds l) as [H1 H2]. pose proof (tax_rounds l') as [H3 H4].
  destruct (fee_cases l) as [[? ->]|[? ->]]; [lia|].
  destruct (fee_cases l') as [[? ->]|[? ->]]; lia.
Qed.

Lemma free_delivery_lowers_total_witness :
  t_total (calculateTotals [item_A; item_F])
  < t_total (calculateTotals [item_A]).
Proof.
  apply free_delivery_lowers_total; vm_compute; (reflexivity || discriminate).
Defined.

Lemma table_when_signed_in (w w' : World) push :
  user w = None →
  user_cart_sessions (when_signed_in w push w') = user_cart_sessions w'.
Proof. unfold when_signed_in. by intros ->. Qed.

Lemma user_when_signed_in (w w' : World) push :
  user (when_signed_in w push w') = user w'.
Proof.
  unfold when_signed_in. destruct (user w); [|done].
  by destruct (JS.truthy _).
Qed.

Lemma user_apply_op (w : World) (op : CartOp) : user (apply_op w op) = user w.
Proof.
  destruct op; simpl; [done| |]; unfold removeItem, updateQuantity;
    by rewrite user_when_signed_in.
Qed.

(** X6.  A guest never writes to the remote cart table: with no
    authenticated user, no sequence of [addItem], [removeItem] and
    [updateQuantity], and no [clearCart], changes the table.  [addItem]
    does not write to it for a signed-in user either. *)
Theorem guest_leaves_remote_alone :
  (∀ (w : World) (ops : list CartOp),
      user w = None →
      user_cart_sessions (run w ops) = user_cart_sessions w
      ∧ user_cart_sessions (clearCart (run w ops)) = user_cart_sessions w)
  ∧ (∀ (w : World) (item : CartItem),
        user_cart_sessions (addItem w item) = user_cart_sessions w).
Proof.
  split; [|done].
  assert (∀ ops w, user w = None →
            user (run w ops) = None
            ∧ user_cart_sessions (run w ops) = user_cart_sessions w) as Hrun.
  { induction ops as [|op ops IH]; intros w Hu; [done|].
    cbn [run foldl]. destruct (IH (apply_op w op)) as [Hu' Ht].
    - by rewrite user_apply_op.
    - split; [exact Hu'|]. unfold run in Ht. rewrite Ht.
      destruct op; simpl; [done| |]; unfold removeItem, updateQuantity;
        by rewrite table_when_signed_in. }
  intros w ops Hu. destruct (Hrun ops w Hu) as [Hu' Ht].
  split; [exact Ht|]. unfold clearCart.
  by rewrite table_when_signed_in.
Qed.

Lemma guest_leaves_remote_alone_witness :
  user_cart_sessions
    (run (mount None remote_XY) [OpAddItem item_A; OpRemoveItem "A"])
  = remote_XY.
Proof.
  apply (proj1 (proj1 guest_leaves_remote_alone (mount None remote_XY)
                  [OpAddItem item_A; OpRemoveItem "A"] eq_refl)).
Defined.

End CartExtras.

(** ** The remote cart table *)

Module CartSyncExtras.

Import CartContext CartSyncService Spec Notions SupabaseFacts CartInvariants.

Lemma filter_update_other (u v : string) (g : CartSession → CartSession)
    (table : list CartSession) :
  u ≠ v → (∀ row, user_id (g row) = user_id row) →
  filter (λ row, user_id row = v) (Supabase.update (for_user u) g table)
  = filter (λ row, user_id row = v) table.
Proof.
  intros Huv Hg. unfold Supabase.update, for_user.
  induction table as [|r table IH]; [done|].
  rewrite fmap_cons, !filter_cons.
  destruct (bool_decide_reflect (user_id r = u)) as [Hr|Hr].
  - rewrite Hg. rewrite !decide_False by congruence. exact IH.
  - destruct (decide (user_id r = v)); by rewrite IH.
Qed.

Lemma filter_syncCart_other (table : list CartSession) (u v : string)
    (l : list CartItem) (amount : Z) :
  u ≠ v →
  filter (λ row, user_id row = v) (syncCart table u l amount)
  = filter (λ row, user_id row = v) table.
Proof.
  intros Huv. unfold syncCart. destruct (Supabase.single _).
  - by apply filter_update_other.
  - rewrite filter_app, filter_cons_False by (simpl; congruence).
    by rewrite app_nil_r.
Qed.

Lemma filter_syncCart_same (table : list CartSession) (u : string)
    (l : list CartItem) (amount : Z) :
  (length (filter (λ row, user_id row = u) table) ≤ 1)%nat →
  filter (λ row, user_id row = u) (syncCart table u l amount)
  = [session_row u l amount].
Proof.
  intros Hlen. unfold syncCart.
  destruct (Supabase.single (filter _ table)) as [r|] eqn:Hs.
  - rewrite CartSyncClaims.filter_update_for_user by done.
    apply single_Some in Hs. rewrite Hs. cbn [fmap list_fmap].
    assert (r ∈ filter (λ row, user_id row = u) table) as Hr
      by (rewrite Hs; apply list_elem_of_here).
    apply list_elem_of_filter in Hr as [Hr _]. by rewrite Hr.
  - apply single_None_short in Hs; [|done].
    rewrite filter_app, Hs. by rewrite filter_cons_True.
Qed.

Lemma filter_clearCart_other (table : list CartSession) (u v : string) :
  u ≠ v →
  filter (λ row, user_id row = v) (clearCart table u)
  = filter (λ row, user_id row = v) table.
Proof. intros Huv. by apply filter_update_other. Qed.

Lemma filter_deleteCart (table : list CartSession) (u v : string) :
  filter (λ row, user_id row = v) (deleteCart table u)
  = if decide (u = v) then [] else filter (λ row, user_id row = v) table.
Proof.
  unfold deleteCart. induction table as [|r table IH];
    [by destruct (decide _)|].
  rewrite !filter_cons. destruct (decide (user_id r ≠ u)) as [Hr|Hr].
  - rewrite filter_cons, IH. destruct (decide (user_id r = v)) as [Hv|Hv];
      [|done]. destruct (decide (u = v)); [congruence | done].
  - apply dec_stable in Hr. rewrite IH.
    destruct (decide (u = v)) as [Huv|Huv]; [done|].
    by rewrite decide_False by congruence.
Qed.

Lemma getCart_filter (table table' : list CartSession) (v : string) :
  filter (λ row, user_id row = v) table'
  = filter (λ row, user_id row = v) table →
  getCart table' v = getCart table v.
Proof. unfold getCart. by intros ->. Qed.

(** X7.  The cart of another user is never affected: after [syncCart],
    [clearCart], [deleteCart] or [mergeAndSyncCart] for one user, the rows
    of any other user, and so what [getCart] reads for them, are the
    same. *)
Theorem other_carts_untouched (table : list CartSession) (u v : string)
    (l : list CartItem) (amount : Z) :
  u ≠ v →
  getCart (syncCart table u l amount) v = getCart table v
  ∧ getCart (clearCart table u) v = getCart table v
  ∧ getCart (deleteCart table u) v = getCart table v
  ∧ getCart (snd (mergeAndSyncCart table u l amount)) v = getCart table v
  ∧ filter (λ row, user_id row = v) (snd (mergeAndSyncCart table u l amount))
    = filter (λ row, user_id row = v) table.
Proof.
  intros Huv. repeat split.
  - by apply getCart_filter, filter_syncCart_other.
  - by apply getCart_filter, filter_clearCart_other.
  - apply getCart_filter. rewrite filter_deleteCart. by rewrite decide_False.
  - rewrite CartSyncClaims.merged_table.
    by apply getCart_filter, filter_syncCart_other.
  - rewrite CartSyncClaims.merged_table. by apply filter_syncCart_other.
Qed.

Lemma other_carts_untouched_witness :
  getCart (deleteCart remote_XY "u1") "u0" = [item_A].
Proof.
  rewrite (proj1 (proj2 (proj2
             (other_carts_untouched remote_XY "u1" "u0" [] 0
                ltac:(discriminate))))).
  reflexivity.
Defined.

(** X8.  The table keeps at most one row per user: [syncCart],
    [clearCart], [deleteCart] and [mergeAndSyncCart] preserve that bound,
    and after [syncCart] the user has exactly one row, holding the items
    and the amount given. *)
Theorem one_row_per_user_kept (table : list CartSession) (u : string)
    (l : list CartItem) (amount : Z) :
  one_row_per_user table →
  one_row_per_user (syncCart table u l amount)
  ∧ one_row_per_user (clearCart table u)
  ∧ one_row_per_user (deleteCart table u)
  ∧ one_row_per_user (snd (mergeAndSyncCart table u l amount))
  ∧ filter (λ row, user_id row = u) (syncCart table u l amount)
    = [session_row u l amount].
Proof.
  intros Hone.
  assert (∀ l' a', one_row_per_user (syncCart table u l' a')) as Hsync.
  { intros l' a' v. destruct (decide (u = v)) as [<-|Huv].
    - by rewrite filter_syncCart_same.
    - by rewrite filter_syncCart_other. }
  split; [apply Hsync|]. split; [|split; [|split]].
  - intros v. destruct (decide (u = v)) as [<-|Huv].
    + unfold clearCart.
      rewrite CartSyncClaims.filter_update_for_user by done.
      rewrite length_fmap. apply Hone.
    + by rewrite filter_clearCart_other.
  - intros v. rewrite filter_deleteCart. destruct (decide (u = v)); [simpl; lia|].
    apply Hone.
  - rewrite CartSyncClaims.merged_table. apply Hsync.
  - by apply filter_syncCart_same.
Qed.

Lemma one_row_per_user_kept_witness :
  one_row_per_user (syncCart remote_XY "u1" [item_B] 1300).
Proof.
  apply (one_row_per_user_kept remote_XY "u1" [item_B] 1300).
  intros v. unfold remote_XY. rewrite !filter_cons, filter_nil.
  repeat destruct (decide _); simpl in *; try lia; congruence.
Defined.

(** X9.  Edge cases of the table.  [getCart] gives the empty cart for a
    user with no row, with several rows, or with a null item column.
    After [deleteCart] the user has no row and [getCart] gives the empty
    cart; a [syncCart] after it is read back by [getCart] whatever the
    table held before.  [clearCart] of the service empties the carts of
    the user's rows but adds no row, so a user without a row still has
    none. *)
Theorem cart_table_edges (table : list CartSession) (u : string)
    (l : list CartItem) (amount : Z) :
  (filter (λ row, user_id row = u) table = [] → getCart table u = [])
  ∧ ((2 ≤ length (filter (λ row, user_id row = u) table))%nat →
     getCart table u = [])
  ∧ getCart [ {| user_id := u; cart_items := None; total_amount := amount |} ] u
    = []
  ∧ filter (λ row, user_id row = u) (deleteCart table u) = []
  ∧ getCart (deleteCart table u) u = []
  ∧ getCart (syncCart (deleteCart table u) u l amount) u = l
  ∧ length (clearCart table u) = length table
  ∧ getCart (clearCart table u) u = [].
Proof.
  assert (filter (λ row, user_id row = u) (deleteCart table u) = []) as Hdel
    by (rewrite filter_deleteCart; by rewrite decide_True).
  repeat split.
  - unfold getCart. by intros ->.
  - unfold getCart. destruct (filter _ table) as [|x [|y k]]; simpl; [done|lia|done].
  - unfold getCart. rewrite filter_cons_True by done. done.
  - exact Hdel.
  - unfold getCart. by rewrite Hdel.
  - apply CartSyncClaims.getCart_syncCart. rewrite Hdel. simpl. lia.
  - unfold clearCart, Supabase.update. by rewrite length_fmap.
  - unfold getCart, clearCart.
    rewrite CartSyncClaims.filter_update_for_user by done.
    destruct (filter _ table) as [|x [|y k]]; done.
Qed.

Lemma cart_table_edges_witness :
  getCart remote_XY "u9" = [].
Proof.
  apply (proj1 (cart_table_edges remote_XY "u9" [] 0)). reflexivity.
Defined.

End CartSyncExtras.

(** ** The cart of a signed-in user *)

Module CartRemoteExtras.

Import CartContext CartProvider CartSyncService Spec Notions SupabaseFacts
  CartReducer CartInvariants CartSyncExtras.

(** X10.  After [removeItem] by a signed-in user with at most one row, the
    remote cart is the local cart.  After [updateQuantity] the local cart
    is the remote cart without its lines of quantity zero or less: the
    line whose quantity was set stays in the remote cart whatever the
    quantity. *)
Theorem remote_follows_local (w : World) (uid : string) :
  user w = Some uid → uid ≠ EmptyString →
  (length (filter (λ row, user_id row = uid) (user_cart_sessions w)) ≤ 1)%nat →
  (∀ id0 : string,
      getCart (user_cart_sessions (removeItem w id0)) uid
      = items (state (removeItem w id0)))
  ∧ (∀ (id0 : string) (q : Z),
        items (state (updateQuantity w id0 q))
        = filter (λ item, quantity item > 0)
            (getCart (user_cart_sessions (updateQuantity w id0 q)) uid)
        ∧ (id0 ∈ id <$> items (state w) →
           id0 ∈ id <$> getCart (user_cart_sessions (updateQuantity w id0 q))
                          uid)).
Proof.
  intros Hu Hne Hlen. split.
  - intros id0. rewrite (CartSyncClaims.removeItem_persists w uid id0 Hu Hne).
    rewrite CartSyncClaims.getCart_syncCart by done.
    by rewrite state_removeItem.
  - intros id0 q.
    rewrite (CartSyncClaims.updateQuantity_persists w uid id0 q Hu Hne).
    rewrite CartSyncClaims.getCart_syncCart by done.
    split; [by rewrite state_updateQuantity|].
    by rewrite CartExtras.ids_set_quantity.
Qed.

Lemma remote_follows_local_witness :
  getCart
    (user_cart_sessions
       (removeItem (run (mount (Some "u1") remote_XY) [OpAddItem item_A]) "A"))
    "u1"
  = [].
Proof.
  rewrite (proj1 (remote_follows_local
                    (run (mount (Some "u1") remote_XY) [OpAddItem item_A]) "u1"
                    eq_refl ltac:(discriminate) ltac:(vm_compute; lia))).
  reflexivity.
Defined.

Lemma merged_self (l : list CartItem) : merged l l = l.
Proof.
  unfold merged. rewrite filter_none; [by rewrite app_nil_r|].
  apply Forall_forall. intros x Hx Hout. apply Hout.
  apply list_elem_of_fmap. by exists x.
Qed.

Lemma merged_again (l r : list CartItem) : merged l (merged l r) = merged l r.
Proof.
  unfold merged. rewrite filter_app.
  rewrite (filter_none _ l).
  - by rewrite app_nil_l, CartExtras.filter_idem.
  - apply Forall_forall. intros x Hx Hout. apply Hout.
    apply list_elem_of_fmap. by exists x.
Qed.

Lemma state_loadCartFromServer (w : World) (userId : string) :
  state (loadCartFromServer w userId)
  = {| items := merged (items (state w)) (getCart (user_cart_sessions w) userId);
       subtotal :=
         t_subtotal
           (calculateTotals
              (merged (items (state w)) (getCart (user_cart_sessions w) userId)));
       deliveryFee :=
         t_deliveryFee
           (calculateTotals
              (merged (items (state w)) (getCart (user_cart_sessions w) userId)));
       tax :=
         t_tax
           (calculateTotals
              (merged (items (state w)) (getCart (user_cart_sessions w) userId)));
       total :=
         t_total
           (calculateTotals
              (merged (items (state w)) (getCart (user_cart_sessions w) userId)));
       isLoading := false |}
  ∧ user_cart_sessions (loadCartFromServer w userId)
    = syncCart (user_cart_sessions w) userId
        (merged (items (state w)) (getCart (user_cart_sessions w) userId))
        (sum_prices
           (merged (items (state w)) (getCart (user_cart_sessions w) userId))).
Proof.
  unfold loadCartFromServer.
  pose proof (CartSyncClaims.merged_cart (user_cart_sessions w) userId
                (items (state w))
                (t_total (calculateTotals (items (state w))))) as Hc.
  pose proof (CartSyncClaims.merged_table (user_cart_sessions w) userId
                (items (state w))
                (t_total (calculateTotals (items (state w))))) as Ht.
  cbn [dispatch user_cart_sessions state].
  destruct (mergeAndSyncCart _ _ _ _) as [mergedCart table].
  cbn [fst snd] in Hc, Ht. subst. done.
Qed.

(** X11.  [loadCartFromServer] leaves as local items the local items
    followed by the remote items with other ids, with the totals of that
    list and the loading flag off; when the user has at most one row the
    remote cart holds the same items afterwards, and loading a second
    time changes nothing in the local state. *)
Theorem loadCartFromServer_effect (w : World) (userId : string) :
  items (state (loadCartFromServer w userId))
  = items (state w)
    ++ filter (λ item, id item ∉ id <$> items (state w))
         (getCart (user_cart_sessions w) userId)
  ∧ isLoading (state (loadCartFromServer w userId)) = false
  ∧ stored_totals (state (loadCartFromServer w userId))
    = calculateTotals (items (state (loadCartFromServer w userId)))
  ∧ ((length (filter (λ row, user_id row = userId) (user_cart_sessions w))
      ≤ 1)%nat →
     getCart (user_cart_sessions (loadCartFromServer w userId)) userId
     = items (state (loadCartFromServer w userId))
     ∧ state (loadCartFromServer (loadCartFromServer w userId) userId)
       = state (loadCartFromServer w userId)).
Proof.
  destruct (state_loadCartFromServer w userId) as [Hs Ht].
  rewrite Hs. cbn [items isLoading]. split; [done|]. split; [done|].
  split; [done|]. intros Hlen.
  assert (getCart (user_cart_sessions (loadCartFromServer w userId)) userId
          = merged (items (state w)) (getCart (user_cart_sessions w) userId))
    as Hget by (rewrite Ht; by apply CartSyncClaims.getCart_syncCart).
  split; [exact Hget|].
  destruct (state_loadCartFromServer (loadCartFromServer w userId) userId)
    as [Hs' _].
  rewrite Hs', Hget, Hs. cbn [items]. by rewrite merged_self.
Qed.

Lemma loadCartFromServer_effect_witness :
  getCart
    (user_cart_sessions
       (loadCartFromServer (run (mount None remote_XY) [OpAddItem item_X_local])
          "u1")) "u1"
  = items (state (loadCartFromServer
                    (run (mount None remote_XY) [OpAddItem item_X_local]) "u1")).
Proof.
  apply (proj2 (proj2 (proj2
           (loadCartFromServer_effect
              (run (mount None remote_XY) [OpAddItem item_X_local]) "u1")))).
  vm_compute. lia.
Defined.

(** X12.  The merge keeps item ids distinct when they are distinct in the
    local and in the remote cart; an item is in the merged cart exactly
    when it is a local item or a remote item whose id no local item has;
    merging a cart with an identical remote cart, or with an empty one,
    gives that cart, and an empty local cart gives the remote cart. *)
Theorem merge_membership (table : list CartSession) (userId : string)
    (localCart : list CartItem) (localTotal : Z) :
  (NoDup (id <$> localCart) → NoDup (id <$> getCart table userId) →
   NoDup (id <$> fst (mergeAndSyncCart table userId localCart localTotal)))
  ∧ (∀ item,
        item ∈ fst (mergeAndSyncCart table userId localCart localTotal)
        ↔ item ∈ localCart
          ∨ (item ∈ getCart table userId ∧ id item ∉ id <$> localCart))
  ∧ (getCart table userId = localCart →
     fst (mergeAndSyncCart table userId localCart localTotal) = localCart)
  ∧ (getCart table userId = [] →
     fst (mergeAndSyncCart table userId localCart localTotal) = localCart)
  ∧ fst (mergeAndSyncCart table userId [] localTotal) = getCart table userId.
Proof.
  rewrite !CartSyncClaims.merged_cart. split; [|split; [|split; [|split]]].
  - intros Hl Hr. unfold merged. rewrite fmap_app. apply NoDup_app.
    split; [done|]. split; [|by apply NoDup_key_filter].
    intros i Hi Hi'. apply list_elem_of_fmap in Hi' as (x & -> & Hx).
    by apply list_elem_of_filter in Hx as [Hx _].
  - intros item. unfold merged.
    rewrite elem_of_app, list_elem_of_filter. tauto.
  - intros ->. apply merged_self.
  - intros ->. unfold merged. by rewrite filter_nil, app_nil_r.
  - unfold merged. cbn [fmap list_fmap app]. apply filter_all, Forall_forall.
    intros x _. apply not_elem_of_nil.
Qed.

Lemma merge_membership_witness :
  NoDup (id <$> fst (mergeAndSyncCart remote_XY "u1" [item_X_local] 0)).
Proof.
  apply (proj1 (merge_membership remote_XY "u1" [item_X_local] 0));
    apply (bool_decide_unpack _); vm_compute; exact I.
Defined.

End CartRemoteExtras.

(** ** The device cache of the cart *)

Module CartCacheExtras.

Import CartContext CartProvider Spec Notions CartReducer CartInvariants.

Lemma world_items_effect (d : CartCache.Device) :
  CartCache.world (CartCache.items_effect d) = CartCache.world d.
Proof. unfold CartCache.items_effect. by destruct (bool_decide _). Qed.

Lemma cart_items_effect (d : CartCache.Device) :
  CartCache.cart (CartCache.items_effect d)
  = if decide (items (state (CartCache.world d)) = [])
    then CartCache.cart d
    else Some (items (state (CartCache.world d))).
Proof.
  unfold CartCache.items_effect.
  destruct (items (state (CartCache.world d))) as [|x l] eqn:Hl.
  - rewrite bool_decide_eq_false_2 by (simpl; lia). by rewrite decide_True.
  - rewrite bool_decide_eq_true_2 by (simpl; lia).
    rewrite decide_False by done. cbn [CartCache.saveCart CartCache.cart].
    by rewrite Hl.
Qed.

Lemma server_cart_unread (w1 : World) :
  match user w1 with
  | Some uid =>
      if JS.truthy (Some uid) then
        match CartCache.cart_property
                (CartSyncService.getCart (user_cart_sessions w1) uid) with
        | Some serverCart =>
            if bool_decide (0 < length serverCart)%nat
            then Some serverCart else None
        | None => None
        end
      else None
  | None => None
  end = None.
Proof. destruct (user w1); [|done]. by destruct (JS.truthy _). Qed.

Lemma world_loadCart (d : CartCache.Device) :
  CartCache.world (CartCache.loadCart d)
  = dispatch
      (match CartCache.cart d with
       | Some cartItems =>
           dispatch (dispatch (CartCache.world d) (SET_LOADING true))
             (LOAD_CART cartItems)
       | None => dispatch (CartCache.world d) (SET_LOADING true)
       end) (SET_LOADING false).
Proof.
  unfold CartCache.loadCart. rewrite world_items_effect.
  cbn [CartCache.on_world CartCache.world].
  rewrite server_cart_unread. by destruct (CartCache.cart d).
Qed.

Lemma items_loadCart (d : CartCache.Device) :
  items (state (CartCache.world (CartCache.loadCart d)))
  = default (items (state (CartCache.world d))) (CartCache.cart d).
Proof. rewrite world_loadCart. by destruct (CartCache.cart d). Qed.

(** X13.  [loadCart] never takes the items from the server: the items it
    leaves are those of the device cache when there is one, and the
    previous items otherwise, whatever the remote table holds and whether
    or not a user is signed in; the loading flag ends off and the remote
    table is not written. *)
Theorem loadCart_reads_cache_only (d : CartCache.Device) :
  items (state (CartCache.world (CartCache.loadCart d)))
  = default (items (state (CartCache.world d))) (CartCache.cart d)
  ∧ isLoading (state (CartCache.world (CartCache.loadCart d))) = false
  ∧ user_cart_sessions (CartCache.world (CartCache.loadCart d))
    = user_cart_sessions (CartCache.world d)
  ∧ (∀ table,
        state (CartCache.world
                 (CartCache.loadCart
                    {| CartCache.world := with_table (CartCache.world d) table;
                       CartCache.cart := CartCache.cart d |}))
        = state (CartCache.world (CartCache.loadCart d))).
Proof.
  split; [apply items_loadCart|]. rewrite !world_loadCart.
  split; [by destruct (CartCache.cart d)|].
  split; [by destruct (CartCache.cart d)|].
  intros table. rewrite world_loadCart. cbn [CartCache.world CartCache.cart].
  by destruct (CartCache.cart d).
Qed.

(** X14.  The device cache is only rewritten while the cart holds an item.
    After every operation the cache holds the new items when there are
    some and is left as it was when there are none.  So after the only
    item of a cart is removed the cache still holds it, and the next
    [loadCart] puts it back; [clearCart] empties the cache as well, and
    [loadCart] after it leaves the cart empty. *)
Theorem cache_lags_on_empty_cart :
  (∀ (d : CartCache.Device) (op : CartOp),
      CartCache.cart (CartCache.apply_op d op)
      = if decide (items (state (CartCache.world (CartCache.apply_op d op))) = [])
        then CartCache.cart d
        else Some (items (state (CartCache.world (CartCache.apply_op d op)))))
  ∧ (∀ (d : CartCache.Device) (item : CartItem),
        items (state (CartCache.world d)) = [item] →
        CartCache.cart d = Some [item] →
        items (state (CartCache.world (CartCache.removeItem d (id item)))) = []
        ∧ CartCache.cart (CartCache.removeItem d (id item)) = Some [item]
        ∧ items (state (CartCache.world
                          (CartCache.loadCart
                             (CartCache.removeItem d (id item)))))
          = [item])
  ∧ (∀ d : CartCache.Device,
        CartCache.cart (CartCache.clearCart d) = None
        ∧ items (state (CartCache.world
                          (CartCache.loadCart (CartCache.clearCart d))))
          = []).
Proof.
  split; [|split].
  - intros d op. destruct op; cbn [CartCache.apply_op];
      unfold CartCache.addItem, CartCache.removeItem, CartCache.updateQuantity;
      rewrite cart_items_effect, world_items_effect; done.
  - intros d item Hitems Hcart.
    assert (items (state (CartCache.world (CartCache.removeItem d (id item))))
            = []) as Hempty.
    { unfold CartCache.removeItem. rewrite world_items_effect.
      cbn [CartCache.on_world CartCache.world].
      rewrite state_removeItem. cbn [cartReducer with_items items].
      rewrite Hitems. rewrite filter_cons_False by (intros H; by apply H).
      done. }
    assert (CartCache.cart (CartCache.removeItem d (id item)) = Some [item])
      as Hkept.
    { pose proof cart_items_effect as Hc. unfold CartCache.removeItem in *.
      rewrite Hc. rewrite world_items_effect in Hempty.
      rewrite Hempty. by rewrite decide_True. }
    split; [exact Hempty|]. split; [exact Hkept|].
    rewrite items_loadCart, Hkept. done.
  - intros d.
    assert (CartCache.cart (CartCache.clearCart d) = None) as Hnone.
    { unfold CartCache.clearCart. rewrite cart_items_effect.
      cbn [CartCache.world CartCache.cart].
      assert (state (CartProvider.clearCart (CartCache.world d)) = initialState)
        as -> by (unfold CartProvider.clearCart; by rewrite state_when_signed_in).
      done. }
    split; [exact Hnone|].
    rewrite items_loadCart, Hnone. cbn [default].
    unfold CartCache.clearCart. rewrite world_items_effect.
    cbn [CartCache.world]. unfold CartProvider.clearCart.
    by rewrite state_when_signed_in.
Qed.

Lemma cache_lags_on_empty_cart_witness :
  items (state (CartCache.world
                  (CartCache.loadCart
                     (CartCache.removeItem
                        (CartCache.addItem
                           {| CartCache.world := mount None [];
                              CartCache.cart := None |} item_A) "A"))))
  = [item_A].
Proof.
  apply (proj1 (proj2 cache_lags_on_empty_cart)
           (CartCache.addItem
              {| CartCache.world := mount None []; CartCache.cart := None |}
              item_A) item_A); reflexivity.
Defined.

End CartCacheExtras.

(** ** Orders: the reducer and the provider *)

Module OrderExtras.

Import OrderContext Spec Notions OrderClaims.

Lemma open_not_terminal (st : string) : open_status st → ¬ terminal_status st.
Proof.
  unfold open_status, terminal_status.
  intros Ho [H|H]; subst st;
    repeat (destruct Ho as [Ho|Ho]; [discriminate Ho|]); discriminate Ho.
Qed.

Lemma split_lengths (l : list ExtendedOrder) :
  (length (filter (λ o, open_status (order_status o)) l)
   + length (filter (λ o, terminal_status (order_status o)) l)
   ≤ length l)%nat.
Proof.
  induction l as [|x l IH]; [done|]. rewrite !filter_cons.
  destruct (decide (open_status (order_status x))) as [Ho|Ho].
  - rewrite decide_False by (by apply open_not_terminal). simpl. lia.
  - destruct (decide _); simpl; lia.
Qed.

Lemma split_permutation (l : list ExtendedOrder) :
  Forall (λ o, known_status (order_status o)) l →
  filter (λ o, open_status (order_status o)) l
  ++ filter (λ o, terminal_status (order_status o)) l ≡ₚ l.
Proof.
  induction 1 as [|x l Hx _ IH]; [done|]. rewrite !filter_cons.
  destruct (decide (open_status (order_status x))) as [Ho|Ho].
  - rewrite decide_False by (by apply open_not_terminal). simpl. by rewrite IH.
  - destruct Hx as [Hx|Hx]; [done|]. rewrite decide_True by done.
    rewrite <- Permutation_middle. by rewrite IH.
Qed.

Lemma partitioned_replay (acts : list OrderAction) : partitioned (replay acts).
Proof. apply partitioned_foldl. by split. Qed.

(** X15.  After every sequence of actions no order is in both the active
    and the history list, the two lists together are never longer than
    the order list, and when every order has one of the seven statuses of
    the lifecycle the two lists together hold exactly the orders of the
    order list, each as often as it occurs there. *)
Theorem active_and_history_split (acts : list OrderAction) :
  (∀ o, o ∈ activeOrders (replay acts) → o ∉ orderHistory (replay acts))
  ∧ (length (activeOrders (replay acts)) + length (orderHistory (replay acts))
     ≤ length (orders (replay acts)))%nat
  ∧ (Forall (λ o, known_status (order_status o)) (orders (replay acts)) →
     activeOrders (replay acts) ++ orderHistory (replay acts)
     ≡ₚ orders (replay acts)).
Proof.
  destruct (partitioned_replay acts) as [-> ->]. split; [|split].
  - intros o Ho Hh. apply list_elem_of_filter in Ho as [Ho _].
    apply list_elem_of_filter in Hh as [Hh _]. by apply (open_not_terminal _ Ho).
  - apply split_lengths.
  - apply split_permutation.
Qed.

Lemma active_and_history_split_witness :
  activeOrders
    (replay [ADD_ORDER {| id := "o1"; order_number := "BBP-1";
                          order_status := "delivered" |};
             ADD_ORDER {| id := "o2"; order_number := "BBP-2";
                          order_status := "pending" |}])
  ++ orderHistory
       (replay [ADD_ORDER {| id := "o1"; order_number := "BBP-1";
                             order_status := "delivered" |};
                ADD_ORDER {| id := "o2"; order_number := "BBP-2";
                             order_status := "pending" |}])
  ≡ₚ orders
       (replay [ADD_ORDER {| id := "o1"; order_number := "BBP-1";
                             order_status := "delivered" |};
                ADD_ORDER {| id := "o2"; order_number := "BBP-2";
                             order_status := "pending" |}]).
Proof.
  apply (proj2 (proj2 (active_and_history_split _))).
  simpl. constructor; [left; left; reflexivity|].
  constructor; [right; left; reflexivity|]. constructor.
Defined.

Lemma replace_absent (payload : ExtendedOrder) (l : list ExtendedOrder) :
  id payload ∉ id <$> l →
  (λ order, if bool_decide (id order = id payload) then payload else order)
    <$> l = l.
Proof.
  intros Hout. induction l as [|x l IH]; [done|].
  rewrite fmap_cons in Hout. apply not_elem_of_cons in Hout as [Hx Hout].
  rewrite fmap_cons, IH by done.
  by rewrite bool_decide_eq_false_2 by congruence.
Qed.

(** X16.  UPDATE_ORDER replaces the orders that have the id of the payload
    and nothing else: the order list keeps its length and its ids in
    order, every order with that id is the payload afterwards, the orders
    with other ids stay, and an update for an id that is in no order
    leaves the state (after any sequence of actions) unchanged. *)
Theorem update_order_effect (s : OrderState) (payload : ExtendedOrder) :
  length (orders (orderReducer s (UPDATE_ORDER payload))) = length (orders s)
  ∧ id <$> orders (orderReducer s (UPDATE_ORDER payload)) = id <$> orders s
  ∧ (∀ o, o ∈ orders (orderReducer s (UPDATE_ORDER payload)) →
          id o = id payload → o = payload)
  ∧ (∀ o, o ∈ orders s → id o ≠ id payload →
          o ∈ orders (orderReducer s (UPDATE_ORDER payload)))
  ∧ (∀ acts, s = replay acts → id payload ∉ id <$> orders s →
             orderReducer s (UPDATE_ORDER payload) = s).
Proof.
  cbn [orderReducer orders]. split; [by rewrite length_fmap|].
  split; [|split; [|split]].
  - rewrite <- list_fmap_compose. apply list_fmap_ext. intros i x _. simpl.
    destruct (bool_decide_reflect (id x = id payload)); done.
  - intros o Ho Hid. apply list_elem_of_fmap in Ho as (x & -> & _).
    destruct (bool_decide_reflect (id x = id payload)); [done|].
    congruence.
  - intros o Ho Hid. apply list_elem_of_fmap. exists o. split; [|done].
    by rewrite bool_decide_eq_false_2.
  - intros acts -> Hout. rewrite replace_absent by done.
    destruct (partitioned_replay acts) as [Ha Hh].
    rewrite filter_is_active, filter_is_history, <- Ha, <- Hh.
    by destruct (replay acts).
Qed.

Lemma update_order_effect_witness :
  orderReducer (replay [ADD_ORDER {| id := "o1"; order_number := "BBP-1";
                                     order_status := "pending" |}])
    (UPDATE_ORDER {| id := "o7"; order_number := "BBP-7";
                     order_status := "delivered" |})
  = replay [ADD_ORDER {| id := "o1"; order_number := "BBP-1";
                         order_status := "pending" |}].
Proof.
  apply (proj2 (proj2 (proj2 (proj2 (update_order_effect _ _)))) _ eq_refl).
  vm_compute. intros Hin.
  apply elem_of_cons in Hin as [Hin|Hin]; [discriminate Hin|].
  by apply elem_of_nil in Hin.
Defined.

End OrderExtras.

(** ** Orders: loading, refreshing and the device cache *)

Module OrderProviderExtras.

Import OrderContext OrderProvider Spec Notions.

Section Service.

Variable getOrdersByUserId : string → option (list ExtendedOrder).
Variable getOrdersByCustomer : string → option (list ExtendedOrder).
Variable updateOrderStatus_request :
  string → string → option string → option bool.

Lemma loadOrdersByUserId_fetched (w : World) (uid : string)
    (l : list ExtendedOrder) :
  getOrdersByUserId uid = Some l →
  loadOrdersByUserId getOrdersByUserId w uid
  = setItem_userOrders
      (dispatch (dispatch w (SET_LOADING true)) (SET_ORDERS l)) l.
Proof.
  intros Hl. unfold loadOrdersByUserId. rewrite Hl.
  destruct (bool_decide _); [|done].
  by destruct (Supabase.single _).
Qed.

Lemma loadOrdersByUserId_thrown (w : World) (uid : string) :
  getOrdersByUserId uid = None →
  loadOrdersByUserId getOrdersByUserId w uid
  = load_failed (dispatch w (SET_LOADING true)).
Proof. intros Hl. unfold loadOrdersByUserId. by rewrite Hl. Qed.

Lemma loading_load_failed (w : World) : loading (state (load_failed w)) = false.
Proof. unfold load_failed. simpl. by destruct (userOrders w). Qed.

Lemma loading_loadOrdersByUserId (w : World) (uid : string) :
  loading (state (loadOrdersByUserId getOrdersByUserId w uid)) = false.
Proof.
  destruct (getOrdersByUserId uid) as [l|] eqn:Hl.
  - by rewrite (loadOrdersByUserId_fetched w uid l).
  - rewrite loadOrdersByUserId_thrown by done. apply loading_load_failed.
Qed.

Lemma loading_loadOrdersByPhone (w : World) (phone : string) :
  loading (state (loadOrdersByPhone getOrdersByCustomer w phone)) = false.
Proof. unfold loadOrdersByPhone. by destruct (getOrdersByCustomer phone). Qed.

Lemma loading_refreshOrders (w : World) :
  loading (state (refreshOrders getOrdersByUserId getOrdersByCustomer w))
  = false.
Proof.
  unfold refreshOrders. destruct (JS.truthy (userId _)).
  - apply loading_loadOrdersByUserId.
  - destruct (JS.truthy (userPhone _)); [apply loading_loadOrdersByPhone|done].
Qed.

Lemma mirrors_load_failed (w : World) : mirrors w → mirrors (load_failed w).
Proof.
  unfold mirrors, load_failed. cbn [dispatch userOrders]. intros Hm.
  destruct (userOrders w) as [c|] eqn:E; simpl; rewrite E; [done | exact Hm].
Qed.

Lemma mirrors_loadOrdersByUserId (w : World) (uid : string) :
  mirrors w → mirrors (loadOrdersByUserId getOrdersByUserId w uid).
Proof.
  intros Hm. destruct (getOrdersByUserId uid) as [l|] eqn:Hl.
  - by rewrite (loadOrdersByUserId_fetched w uid l).
  - rewrite loadOrdersByUserId_thrown by done. by apply mirrors_load_failed.
Qed.

Lemma mirrors_loadOrdersByPhone (w : World) (phone : string) :
  mirrors w → mirrors (loadOrdersByPhone getOrdersByCustomer w phone).
Proof.
  intros Hm. unfold loadOrdersByPhone. by destruct (getOrdersByCustomer phone).
Qed.

Lemma mirrors_refreshOrders (w : World) :
  mirrors w →
  mirrors (refreshOrders getOrdersByUserId getOrdersByCustomer w).
Proof.
  intros Hm. unfold refreshOrders. destruct (JS.truthy (userId _)).
  - by apply mirrors_loadOrdersByUserId.
  - destruct (JS.truthy (userPhone _)); [by apply mirrors_loadOrdersByPhone|done].
Qed.

(** X17.  [loadOrdersByUserId] always ends with the loading flag off.
    When the service answers, the order list and the device cache are the
    answer and the error is cleared.  When the service throws and the
    cache holds orders, the order list becomes the cached one and the
    error is cleared again; only when it throws and there is no cache
    does the state keep its orders and show the error 'Failed to load
    orders'. *)
Theorem loadOrdersByUserId_outcomes (w : World) (uid : string) :
  loading (state (loadOrdersByUserId getOrdersByUserId w uid)) = false
  ∧ (∀ l, getOrdersByUserId uid = Some l →
          orders (state (loadOrdersByUserId getOrdersByUserId w uid)) = l
          ∧ error (state (loadOrdersByUserId getOrdersByUserId w uid)) = None
          ∧ userOrders (loadOrdersByUserId getOrdersByUserId w uid) = Some l)
  ∧ (getOrdersByUserId uid = None →
     (∀ c, userOrders w = Some c →
           orders (state (loadOrdersByUserId getOrdersByUserId w uid)) = c
           ∧ error (state (loadOrdersByUserId getOrdersByUserId w uid)) = None
           ∧ userOrders (loadOrdersByUserId getOrdersByUserId w uid) = Some c)
     ∧ (userOrders w = None →
        orders (state (loadOrdersByUserId getOrdersByUserId w uid))
        = orders (state w)
        ∧ error (state (loadOrdersByUserId getOrdersByUserId w uid))
          = Some "Failed to load orders"
        ∧ userOrders (loadOrdersByUserId getOrdersByUserId w uid) = None)).
Proof.
  split; [apply loading_loadOrdersByUserId|]. split.
  - intros l Hl. by rewrite (loadOrdersByUserId_fetched w uid l).
  - intros Hl. rewrite loadOrdersByUserId_thrown by done.
    unfold load_failed. cbn [dispatch userOrders]. split.
    + intros c Hc. rewrite Hc. simpl. by rewrite Hc.
    + intros Hc. rewrite Hc. simpl. by rewrite Hc.
Qed.

(** X18.  [refreshOrders] always ends with the loading flag off; with
    neither a user id nor a phone number on the device it changes neither
    the orders nor the cache and shows the error 'No user information
    available'.  [updateOrderStatus] answers true exactly when the
    service answered true, and when it answers false (the service
    answered false or threw) nothing has changed. *)
Theorem refresh_and_status_outcomes (w : World) (orderId status : string)
    (notes : option string) :
  loading (state (refreshOrders getOrdersByUserId getOrdersByCustomer w))
  = false
  ∧ (JS.truthy (userId w) = false → JS.truthy (userPhone w) = false →
     error (state (refreshOrders getOrdersByUserId getOrdersByCustomer w))
     = Some "No user information available"
     ∧ orders (state (refreshOrders getOrdersByUserId getOrdersByCustomer w))
       = orders (state w)
     ∧ userOrders (refreshOrders getOrdersByUserId getOrdersByCustomer w)
       = userOrders w)
  ∧ (fst (updateOrderStatus getOrdersByUserId getOrdersByCustomer
            updateOrderStatus_request w orderId status notes) = true
     ↔ updateOrderStatus_request orderId status notes = Some true)
  ∧ (fst (updateOrderStatus getOrdersByUserId getOrdersByCustomer
            updateOrderStatus_request w orderId status notes) = false →
     snd (updateOrderStatus getOrdersByUserId getOrdersByCustomer
            updateOrderStatus_request w orderId status notes) = w).
Proof.
  split; [apply loading_refreshOrders|]. split; [|split].
  - intros Hu Hp. unfold refreshOrders. cbn [dispatch userId userPhone].
    rewrite Hu, Hp. done.
  - unfold updateOrderStatus.
    destruct (updateOrderStatus_request orderId status notes) as [[|]|];
      simpl; split; intros H; try done; by injection H.
  - unfold updateOrderStatus.
    destruct (updateOrderStatus_request orderId status notes) as [[|]|];
      simpl; done.
Qed.

(** X19.  The device cache of the orders mirrors the order list through
    every operation of the provider: when the cached list (none counting
    as empty) is the order list before [addOrder], [clearOrders],
    [loadOrdersByUserId], [loadOrdersByPhone], [refreshOrders] or
    [updateOrderStatus], it is the order list afterwards, whatever the
    service answers. *)
Theorem cache_mirrors_orders (w : World) :
  mirrors w →
  (∀ order, mirrors (addOrder w order))
  ∧ mirrors (clearOrders w)
  ∧ (∀ uid, mirrors (loadOrdersByUserId getOrdersByUserId w uid))
  ∧ (∀ phone, mirrors (loadOrdersByPhone getOrdersByCustomer w phone))
  ∧ mirrors (refreshOrders getOrdersByUserId getOrdersByCustomer w)
  ∧ (∀ orderId status notes,
        mirrors (snd (updateOrderStatus getOrdersByUserId getOrdersByCustomer
                        updateOrderStatus_request w orderId status notes))).
Proof.
  intros Hm. split; [|split; [|split; [|split; [|split]]]].
  - intros order. unfold mirrors in *. simpl. by rewrite Hm.
  - done.
  - intros uid. by apply mirrors_loadOrdersByUserId.
  - intros phone. by apply mirrors_loadOrdersByPhone.
  - by apply mirrors_refreshOrders.
  - intros orderId status notes. unfold updateOrderStatus.
    destruct (updateOrderStatus_request orderId status notes) as [[|]|];
      simpl; [by apply mirrors_refreshOrders | done | done].
Qed.

End Service.

Lemma loadOrdersByUserId_outcomes_witness :
  error (state (loadOrdersByUserId (λ _, None) cached_device "u1")) = None.
Proof.
  apply (proj1 (proj2 (proj1 (proj2 (proj2
           (loadOrdersByUserId_outcomes (λ _, None) cached_device "u1"))
           eq_refl)
           [ {| id := "o1"; order_number := "BBP-1";
                order_status := "delivered" |} ] eq_refl))).
Defined.

Lemma refresh_and_status_outcomes_witness :
  error (state (refreshOrders (λ _, None) (λ _, None) blank_device))
  = Some "No user information available".
Proof.
  apply (proj1 (proj1 (proj2 (refresh_and_status_outcomes (λ _, None)
                                (λ _, None) (λ _ _ _, None) blank_device
                                "o1" "ready" None))
                  eq_refl eq_refl)).
Defined.

Lemma cache_mirrors_orders_witness :
  mirrors
    (addOrder blank_device
       {| id := "o1"; order_number := "BBP-1"; order_status := "pending" |}).
Proof.
  apply (proj1 (cache_mirrors_orders (λ _, None) (λ _, None) (λ _ _ _, None)
                  blank_device eq_refl)).
Defined.

End OrderProviderExtras.

(** ** Addresses: ordering, defaults and deletion *)

Module AddressExtras.

Import UserProfileService Spec Notions SupabaseFacts.

Global Instance before_total : Total before.
Proof.
  intros a b. unfold before, address_before.
  destruct (bool_decide_reflect (UserAddress.is_default a
                                 = UserAddress.is_default b)) as [Hd|Hd].
  - rewrite (bool_decide_eq_true_2 (UserAddress.is_default b
                                    = UserAddress.is_default a)) by done.
    destruct (Z.le_gt_cases (UserAddress.created_at b)
                (UserAddress.created_at a)).
    + left. by apply bool_decide_pack.
    + right. apply bool_decide_pack. lia.
  - rewrite (bool_decide_eq_false_2 (UserAddress.is_default b
                                     = UserAddress.is_default a)) by congruence.
    destruct (UserAddress.is_default a), (UserAddress.is_default b);
      simpl; tauto.
Qed.

Global Instance before_transitive : Transitive before.
Proof.
  intros a b c. unfold before, address_before.
  destruct (UserAddress.is_default a), (UserAddress.is_default b),
    (UserAddress.is_default c); simpl; try tauto;
    rewrite ?bool_decide_spec; try tauto; try lia; intros; try done.
Qed.

Lemma before_spec (a b : UserAddress.t) :
  before a b →
  (UserAddress.is_default b = true → UserAddress.is_default a = true)
  ∧ (UserAddress.is_default a = UserAddress.is_default b →
     UserAddress.created_at b ≤ UserAddress.created_at a).
Proof.
  unfold before, address_before.
  destruct (bool_decide_reflect (UserAddress.is_default a
                                 = UserAddress.is_default b)) as [Hd|Hd].
  - intros H. apply bool_decide_unpack in H. split; [congruence | done].
  - intros H. split; [|done]. intros _. by apply Is_true_true.
Qed.

(** X20.  [getAddresses] returns exactly the rows of the profile, each
    once per occurrence, ordered so that no address comes after one that
    is a default unless it is a default itself, and, among addresses with
    the same flag, no older address comes before a newer one.  So when
    the profile has a default address, the first address returned is a
    default. *)
Theorem getAddresses_ordered (db : Remote) (pid : string) :
  getAddresses db pid
  ≡ₚ filter (λ row, UserAddress.user_profile_id row = pid) (user_addresses db)
  ∧ (∀ l1 a l2,
        getAddresses db pid = l1 ++ a :: l2 →
        Forall (λ b,
                  (UserAddress.is_default b = true →
                   UserAddress.is_default a = true)
                  ∧ (UserAddress.is_default a = UserAddress.is_default b →
                     UserAddress.created_at b ≤ UserAddress.created_at a)) l2)
  ∧ (∀ row,
        row ∈ user_addresses db → UserAddress.user_profile_id row = pid →
        UserAddress.is_default row = true →
        ∃ a rest, getAddresses db pid = a :: rest
                  ∧ UserAddress.is_default a = true).
Proof.
  assert (StronglySorted before (getAddresses db pid)) as Hsorted
    by (apply (StronglySorted_merge_sort before)).
  assert (getAddresses db pid
          ≡ₚ filter (λ row, UserAddress.user_profile_id row = pid)
               (user_addresses db)) as Hperm
    by (apply (merge_sort_Permutation before)).
  split; [exact Hperm|]. split.
  - intros l1 a l2 Hl. rewrite Hl in Hsorted.
    apply StronglySorted_app_1_r, StronglySorted_cons in Hsorted as [Ha _].
    eapply Forall_impl; [exact Ha|]. intros b Hb. by apply before_spec.
  - intros row Hrow Hpid Hdef.
    assert (row ∈ getAddresses db pid) as Hin
      by (rewrite Hperm; by apply list_elem_of_filter).
    destruct (getAddresses db pid) as [|a rest] eqn:Hl;
      [by apply elem_of_nil in Hin|].
    exists a, rest. split; [done|].
    apply elem_of_cons in Hin as [->|Hin]; [done|].
    apply StronglySorted_cons in Hsorted as [Ha _].
    rewrite Forall_forall in Ha. by apply (before_spec a row (Ha row Hin)).
Qed.

Lemma getAddresses_ordered_witness :
  ∃ a rest,
    getAddresses (UserContext.remote member_world) "p1" = a :: rest
    ∧ UserAddress.is_default a = true.
Proof.
  apply (proj2 (proj2 (getAddresses_ordered (UserContext.remote member_world)
                         "p1")) (address_row "a4" "p1" "Club" true 40)).
  - do 3 apply list_elem_of_further. apply list_elem_of_here.
  - reflexivity.
  - reflexivity.
Defined.

Lemma other_profiles_update (pid pid' : string) (sel : UserAddress.t → bool)
    (f : UserAddress.t → UserAddress.t) (rows : list UserAddress.t) :
  pid' ≠ pid →
  (∀ r, sel r = true → UserAddress.user_profile_id r = pid) →
  (∀ r, UserAddress.user_profile_id (f r) = UserAddress.user_profile_id r) →
  filter (λ row, UserAddress.user_profile_id row = pid')
    (Supabase.update sel f rows)
  = filter (λ row, UserAddress.user_profile_id row = pid') rows.
Proof.
  intros Hne Hsel Hf. unfold Supabase.update.
  induction rows as [|r rows IH]; [done|].
  rewrite fmap_cons, !filter_cons, IH. destruct (sel r) eqn:Hr; [|done].
  apply Hsel in Hr.
  rewrite (decide_False (P := UserAddress.user_profile_id (f r) = pid'))
    by (rewrite Hf; congruence).
  by rewrite (decide_False (P := UserAddress.user_profile_id r = pid'))
    by congruence.
Qed.

Lemma defaults_unset (pid pid0 : string) (rows : list UserAddress.t) :
  filter (λ row, UserAddress.user_profile_id row = pid
                 ∧ UserAddress.is_default row = true)
    (Supabase.update
       (λ row, bool_decide (UserAddress.user_profile_id row = pid0))
       (set_is_default false) rows)
  = if decide (pid = pid0) then []
    else filter (λ row, UserAddress.user_profile_id row = pid
                        ∧ UserAddress.is_default row = true) rows.
Proof.
  unfold Supabase.update. induction rows as [|r rows IH].
  - by destruct (decide (pid = pid0)).
  - rewrite fmap_cons, !filter_cons, IH.
    destruct (bool_decide_reflect (UserAddress.user_profile_id r = pid0))
      as [Hr|Hr].
    + rewrite decide_False by (simpl; intros [_ ?]; done).
      destruct (decide (pid = pid0)) as [Hp|Hp]; [done|].
      by rewrite decide_False by (intros [? _]; congruence).
    + destruct (decide (pid = pid0)) as [Hp|Hp]; [|done].
      by rewrite decide_False by (intros [? _]; congruence).
Qed.

Lemma defaults_update_le (pid pid0 aid : string) (sel : UserAddress.t → bool)
    (f : UserAddress.t → UserAddress.t) (rows : list UserAddress.t) :
  (∀ r, sel r = true →
        UserAddress.id r = aid ∧ UserAddress.user_profile_id r = pid0) →
  (∀ r, UserAddress.user_profile_id (f r) = UserAddress.user_profile_id r) →
  (length (filter (λ row, UserAddress.user_profile_id row = pid
                          ∧ UserAddress.is_default row = true)
             (Supabase.update sel f rows))
   ≤ length (filter (λ row, UserAddress.user_profile_id row = pid
                            ∧ UserAddress.is_default row = true) rows)
     + (if decide (pid = pid0)
        then length (filter (λ row, UserAddress.id row = aid) rows)
        else 0))%nat.
Proof.
  intros Hsel Hf. unfold Supabase.update.
  induction rows as [|r rows IH]; [simpl; lia|].
  rewrite fmap_cons, !filter_cons. destruct (sel r) eqn:Hr.
  - destruct (Hsel r Hr) as [Hid Hp]. rewrite (decide_True (P := _ = aid)) by done.
    destruct (decide (pid = pid0)) as [->|Hne].
    + repeat destruct (decide _); simpl in *; lia.
    + rewrite (decide_False (P := _ (f r) = pid ∧ _))
        by (rewrite Hf; intros [? _]; congruence).
      repeat destruct (decide _); simpl in *; lia.
  - repeat destruct (decide _); simpl in *; lia.
Qed.

Lemma defaults_update_off (pid : string) (sel : UserAddress.t → bool)
    (f : UserAddress.t → UserAddress.t) (rows : list UserAddress.t) :
  (∀ r, UserAddress.user_profile_id (f r) = UserAddress.user_profile_id r) →
  (∀ r, UserAddress.is_default (f r) = true → UserAddress.is_default r = true) →
  (length (filter (λ row, UserAddress.user_profile_id row = pid
                          ∧ UserAddress.is_default row = true)
             (Supabase.update sel f rows))
   ≤ length (filter (λ row, UserAddress.user_profile_id row = pid
                            ∧ UserAddress.is_default row = true) rows))%nat.
Proof.
  intros Hf Hd. unfold Supabase.update.
  induction rows as [|r rows IH]; [simpl; lia|].
  rewrite fmap_cons, !filter_cons. destruct (sel r) eqn:Hr.
  - destruct (decide (_ (f r) = pid ∧ _)) as [[H1 H2]|Hn].
    + rewrite decide_True by (split; [by rewrite <- Hf | by apply Hd]).
      simpl. lia.
    + destruct (decide _); simpl; lia.
  - destruct (decide _); simpl; lia.
Qed.

Lemma ids_update (sel : UserAddress.t → bool)
    (f : UserAddress.t → UserAddress.t) (rows : list UserAddress.t) :
  (∀ r, UserAddress.id (f r) = UserAddress.id r) →
  UserAddress.id <$> Supabase.update sel f rows = UserAddress.id <$> rows.
Proof.
  intros Hf. unfold Supabase.update. rewrite <- list_fmap_compose.
  apply list_fmap_ext. intros _ r _. simpl. by destruct (sel r).
Qed.

Lemma at_most_one_id (aid : string) (rows : list UserAddress.t) :
  NoDup (UserAddress.id <$> rows) →
  (length (filter (λ row, UserAddress.id row = aid) rows) ≤ 1)%nat.
Proof.
  induction rows as [|r rows IH]; [simpl; lia|].
  rewrite fmap_cons, NoDup_cons. intros [Hr Hnd]. rewrite filter_cons.
  destruct (decide (UserAddress.id r = aid)) as [Hid|Hid]; [|by apply IH].
  rewrite (filter_none (λ row, UserAddress.id row = aid) rows);
    [simpl; lia|].
  apply Forall_forall. intros x Hx Hxid. apply Hr.
  apply list_elem_of_fmap. exists x. split; [congruence | done].
Qed.

Lemma filter_filter_le {A} (P Q : A → Prop) `{∀ x, Decision (P x)}
    `{∀ x, Decision (Q x)} (l : list A) :
  (length (filter P (filter Q l)) ≤ length (filter P l))%nat.
Proof.
  induction l as [|x l IH]; [done|]. rewrite !filter_cons.
  destruct (decide (Q x)), (decide (P x)); rewrite ?filter_cons;
    rewrite ?decide_True by done; rewrite ?decide_False by done;
    simpl; lia.
Qed.

Lemma one_default_unset (db : Remote) (pid0 : string) :
  one_default db → one_default (unset_defaults db pid0).
Proof.
  intros H pid. unfold default_rows, unset_defaults.
  cbn [with_addresses user_addresses]. rewrite defaults_unset.
  destruct (decide (pid = pid0)); [simpl; lia | apply H].
Qed.

Lemma ids_unset (db : Remote) (pid0 : string) :
  UserAddress.id <$> user_addresses (unset_defaults db pid0)
  = UserAddress.id <$> user_addresses db.
Proof.
  unfold unset_defaults. cbn [with_addresses user_addresses].
  by apply ids_update.
Qed.

Lemma no_default_unset (db : Remote) (pid0 : string) :
  default_rows (unset_defaults db pid0) pid0 = [].
Proof.
  unfold default_rows, unset_defaults. cbn [with_addresses user_addresses].
  rewrite defaults_unset. by rewrite decide_True.
Qed.

Lemma one_default_flag (db1 : Remote) (aid pid0 : string)
    (f : UserAddress.t → UserAddress.t) :
  NoDup (UserAddress.id <$> user_addresses db1) →
  one_default db1 →
  default_rows db1 pid0 = [] →
  (∀ r, UserAddress.user_profile_id (f r) = UserAddress.user_profile_id r) →
  one_default
    (with_addresses db1
       (Supabase.update
          (λ row, bool_decide (UserAddress.id row = aid)
                  && bool_decide (UserAddress.user_profile_id row = pid0))
          f (user_addresses db1))).
Proof.
  intros Hnd1 Hone1 Hnone Hf pid. unfold default_rows.
  cbn [with_addresses user_addresses].
  etrans; [apply (defaults_update_le pid pid0 aid); [|exact Hf]|].
  - intros r Hr. apply andb_prop in Hr as [H1 H2].
    apply bool_decide_eq_true in H1. apply bool_decide_eq_true in H2. done.
  - destruct (decide (pid = pid0)) as [->|Hne].
    + unfold default_rows in Hnone. rewrite Hnone. simpl.
      by apply at_most_one_id.
    + specialize (Hone1 pid). unfold default_rows in Hone1. lia.
Qed.

Lemma default_rows_addAddress gen now (db : Remote) (pid : string)
    (a : ProfileWrites.NewAddress) :
  ProfileWrites.is_default a = true →
  ∃ data,
    (ProfileWrites.addAddress gen now db pid a).1 = Some data
    ∧ default_rows (ProfileWrites.addAddress gen now db pid a).2 pid = [data].
Proof.
  intros Hd. unfold ProfileWrites.addAddress. rewrite Hd. cbn [fst snd].
  eexists. split; [reflexivity|].
  unfold default_rows. cbn [with_addresses user_addresses].
  rewrite filter_app.
  pose proof (no_default_unset db pid) as H0.
  unfold default_rows in H0. rewrite H0.
  rewrite filter_cons, decide_True by done. done.
Qed.

Lemma one_default_addAddress gen now (db : Remote) (pid : string)
    (a : ProfileWrites.NewAddress) :
  one_default db →
  one_default (ProfileWrites.addAddress gen now db pid a).2.
Proof.
  intros Hone. unfold ProfileWrites.addAddress.
  destruct (ProfileWrites.is_default a) eqn:Hd; cbn [fst snd].
  - intros pid'. unfold default_rows. cbn [with_addresses user_addresses].
    rewrite filter_app, length_app.
    pose proof (one_default_unset db pid Hone pid') as H1.
    unfold default_rows in H1.
    destruct (decide (pid' = pid)) as [->|Hne].
    + pose proof (no_default_unset db pid) as H0.
      unfold default_rows in H0. rewrite H0.
      rewrite filter_cons, filter_nil. destruct (decide _); cbn [length]; lia.
    + rewrite filter_cons, decide_False by (simpl; intros [? _]; congruence).
      rewrite ?filter_nil. cbn [length]. lia.
  - intros pid'. unfold default_rows. cbn [with_addresses user_addresses].
    rewrite filter_app, length_app.
    rewrite filter_cons, decide_False by (simpl; intros [_ ?]; done).
    specialize (Hone pid'). unfold default_rows in Hone.
    rewrite filter_nil. cbn [length]. lia.
Qed.

Lemma one_default_updateAddress (db : Remote) (aid pid : string)
    (u : ProfileWrites.AddressUpdates) :
  NoDup (UserAddress.id <$> user_addresses db) →
  one_default db →
  one_default (ProfileWrites.updateAddress db aid pid u).
Proof.
  intros Hnd Hone. unfold ProfileWrites.updateAddress.
  destruct (ProfileWrites.u_is_default u) as [[|]|] eqn:Hu;
    cbn [from_option id].
  - apply one_default_flag.
    + by rewrite ids_unset.
    + by apply one_default_unset.
    + apply no_default_unset.
    + done.
  - intros pid'. unfold default_rows. cbn [with_addresses user_addresses].
    etrans; [apply defaults_update_off|apply Hone].
    + done.
    + intros r. simpl. by rewrite Hu.
  - intros pid'. unfold default_rows. cbn [with_addresses user_addresses].
    etrans; [apply defaults_update_off|apply Hone].
    + done.
    + intros r. simpl. by rewrite Hu.
Qed.

Lemma one_default_deleteAddress (db : Remote) (aid pid : string) :
  one_default db → one_default (deleteAddress db aid pid).
Proof.
  intros Hone pid'. unfold default_rows, deleteAddress.
  cbn [with_addresses user_addresses].
  etrans; [|apply (Hone pid')]. unfold default_rows.
  apply filter_filter_le.
Qed.

Lemma one_default_setDefaultAddress (db : Remote) (aid pid : string) :
  NoDup (UserAddress.id <$> user_addresses db) →
  one_default db →
  one_default (setDefaultAddress db aid pid).
Proof.
  intros Hnd Hone. unfold setDefaultAddress, set_default.
  apply one_default_flag.
  - by rewrite ids_unset.
  - by apply one_default_unset.
  - apply no_default_unset.
  - done.
Qed.

(** X21.  Every write of the address service keeps the bound of one
    default address per profile, as long as the ids of the rows are
    distinct: [addAddress], [updateAddress], [deleteAddress] and
    [setDefaultAddress].  An address added as a default is afterwards the
    only default of its profile. *)
Theorem one_default_kept (gen_random_uuid : Remote → string) (now : Remote → Z)
    (db : Remote) :
  NoDup (UserAddress.id <$> user_addresses db) →
  one_default db →
  (∀ pid a,
      one_default (ProfileWrites.addAddress gen_random_uuid now db pid a).2
      ∧ (ProfileWrites.is_default a = true →
         ∃ data,
           (ProfileWrites.addAddress gen_random_uuid now db pid a).1 = Some data
           ∧ default_rows
               (ProfileWrites.addAddress gen_random_uuid now db pid a).2 pid
             = [data]))
  ∧ (∀ aid pid u, one_default (ProfileWrites.updateAddress db aid pid u))
  ∧ (∀ aid pid, one_default (deleteAddress db aid pid))
  ∧ (∀ aid pid, one_default (setDefaultAddress db aid pid)).
Proof.
  intros Hnd Hone. split; [|split; [|split]].
  - intros pid a. split.
    + by apply one_default_addAddress.
    + apply default_rows_addAddress.
  - intros aid pid u. by apply one_default_updateAddress.
  - intros aid pid. by apply one_default_deleteAddress.
  - intros aid pid. by apply one_default_setDefaultAddress.
Qed.

Lemma tidy_db_one_default : one_default tidy_db.
Proof.
  intros pid. unfold default_rows, tidy_db.
  cbn [with_addresses user_addresses].
  rewrite !filter_cons, filter_nil.
  repeat (destruct (decide _) as [[? ?]|?]); cbn [length]; try lia;
    simpl in *; congruence.
Qed.

Lemma one_default_kept_witness :
  one_default (setDefaultAddress tidy_db "a3" "p1")
  ∧ one_default (deleteAddress tidy_db "a1" "p1").
Proof.
  assert (NoDup (UserAddress.id <$> user_addresses tidy_db)) as Hnd
    by (apply (bool_decide_unpack _); vm_compute; exact I).
  pose proof (one_default_kept (λ _, "a9") (λ _, 50) tidy_db Hnd
                tidy_db_one_default) as (_ & _ & Hdel & Hset).
  split; [apply Hset | apply Hdel].
Defined.

Lemma no_default_rows (db : Remote) (pid : string) :
  default_rows db pid = [] ↔
  Forall (λ a, UserAddress.is_default a = false) (getAddresses db pid).
Proof.
  unfold getAddresses. rewrite (merge_sort_Permutation before).
  unfold default_rows. rewrite Forall_forall. split.
  - intros Hnone a Ha. apply list_elem_of_filter in Ha as [Hp Ha].
    apply (filter_nil_Forall _ _) in Hnone. rewrite Forall_forall in Hnone.
    specialize (Hnone a Ha). destruct (UserAddress.is_default a); [|done].
    by destruct Hnone.
  - intros Hall. apply filter_none, Forall_forall. intros a Ha [Hp Hd].
    rewrite (Hall a) in Hd; [done|]. by apply list_elem_of_filter.
Qed.

(** X22.  [setDefaultAddress] with an id that is not the id of an address
    of the profile still carries out its first request: afterwards the
    profile has no default address at all.  Whatever the id, the rows of
    the other profiles stay as they are, and no row is added or
    removed. *)
Theorem setDefaultAddress_unknown_id (db : Remote) (aid pid : string) :
  (∀ row, row ∈ user_addresses db →
          UserAddress.user_profile_id row = pid → UserAddress.id row ≠ aid) →
  Forall (λ a, UserAddress.is_default a = false)
    (getAddresses (setDefaultAddress db aid pid) pid)
  ∧ (∀ pid', pid' ≠ pid →
       filter (λ row, UserAddress.user_profile_id row = pid')
         (user_addresses (setDefaultAddress db aid pid))
       = filter (λ row, UserAddress.user_profile_id row = pid')
           (user_addresses db))
  ∧ UserAddress.id <$> user_addresses (setDefaultAddress db aid pid)
    = UserAddress.id <$> user_addresses db.
Proof.
  intros Hout. split; [|split].
  - unfold getAddresses. rewrite (merge_sort_Permutation before).
    rewrite AddressClaims.rows_after_setDefaultAddress.
    apply Forall_fmap, Forall_forall. intros r Hr.
    apply list_elem_of_filter in Hr as [Hp Hr]. simpl.
    apply bool_decide_eq_false_2. by apply Hout.
  - intros pid' Hne. unfold setDefaultAddress, set_default, unset_defaults.
    cbn [with_addresses user_addresses].
    rewrite (other_profiles_update pid pid'); [| done | | done].
    + by apply (other_profiles_update pid pid');
        [| intros r Hr; by apply bool_decide_eq_true in Hr |].
    + intros r Hr. apply andb_prop in Hr as [_ Hr].
      by apply bool_decide_eq_true in Hr.
  - unfold setDefaultAddress, set_default.
    cbn [with_addresses user_addresses].
    rewrite ids_update by done. apply ids_unset.
Qed.

Lemma setDefaultAddress_unknown_id_witness :
  Forall (λ a, UserAddress.is_default a = false)
    (getAddresses (setDefaultAddress tidy_db "a2" "p1") "p1").
Proof.
  apply (setDefaultAddress_unknown_id tidy_db "a2" "p1").
  intros row Hrow Hp Hid. unfold tidy_db in Hrow.
  cbn [with_addresses user_addresses] in Hrow.
  repeat (apply elem_of_cons in Hrow as [->|Hrow]; [discriminate|]).
  by apply elem_of_nil in Hrow.
Defined.

(** X23.  [deleteAddress] removes exactly the rows with the given id
    among those of the given profile: no such row is returned by
    [getAddresses] afterwards, every other address of the profile still
    is, and the other profiles keep their rows.  Nothing is promoted:
    when the profile's only default address is deleted, the profile is
    left without a default. *)
Theorem deleteAddress_effect (db : Remote) (aid pid : string) :
  one_default db →
  (∀ row, row ∈ getAddresses (deleteAddress db aid pid) pid ↔
          row ∈ getAddresses db pid ∧ UserAddress.id row ≠ aid)
  ∧ (∀ pid', pid' ≠ pid →
       filter (λ row, UserAddress.user_profile_id row = pid')
         (user_addresses (deleteAddress db aid pid))
       = filter (λ row, UserAddress.user_profile_id row = pid')
           (user_addresses db))
  ∧ (∀ row, row ∈ user_addresses db →
            UserAddress.id row = aid → UserAddress.user_profile_id row = pid →
            UserAddress.is_default row = true →
            Forall (λ a, UserAddress.is_default a = false)
              (getAddresses (deleteAddress db aid pid) pid)).
Proof.
  intros Hone. split; [|split].
  - intros row. unfold getAddresses.
    rewrite !(merge_sort_Permutation before).
    unfold deleteAddress. cbn [with_addresses user_addresses].
    rewrite !list_elem_of_filter. split.
    + intros (Hp & Hn & Hrow). split; [done|]. intros Hid. apply Hn. done.
    + intros ((Hp & Hrow) & Hid). split; [done|]. split; [|done].
      intros [? _]. done.
  - intros pid' Hne. unfold deleteAddress.
    cbn [with_addresses user_addresses].
    induction (user_addresses db) as [|r rows IH]; [done|].
    rewrite !filter_cons.
    destruct (decide (UserAddress.user_profile_id r = pid')) as [Hr|Hr].
    + rewrite decide_True by (intros [_ ?]; congruence).
      by rewrite filter_cons, decide_True, IH.
    + destruct (decide (¬ _)); [|done]. by rewrite filter_cons, decide_False.
  - intros row Hrow Hid Hp Hd. apply no_default_rows.
    specialize (Hone pid). unfold default_rows in *.
    unfold deleteAddress. cbn [with_addresses user_addresses].
    apply filter_none, Forall_forall. intros x Hx [Hxp Hxd].
    apply list_elem_of_filter in Hx as [Hn Hx]. apply Hn. split; [|done].
    assert (row ∈ filter (λ row, UserAddress.user_profile_id row = pid
                                 ∧ UserAddress.is_default row = true)
                    (user_addresses db)) as Hr1
      by (by apply list_elem_of_filter).
    assert (x ∈ filter (λ row, UserAddress.user_profile_id row = pid
                               ∧ UserAddress.is_default row = true)
                  (user_addresses db)) as Hx1
      by (by apply list_elem_of_filter).
    destruct (filter _ (user_addresses db)) as [|y [|z l]];
      [by apply elem_of_nil in Hx1 | | simpl in Hone; lia].
    apply list_elem_of_singleton in Hr1, Hx1. congruence.
Qed.

Lemma deleteAddress_effect_witness :
  Forall (λ a, UserAddress.is_default a = false)
    (getAddresses (deleteAddress tidy_db "a1" "p1") "p1").
Proof.
  apply (proj2 (proj2 (deleteAddress_effect tidy_db "a1" "p1"
                         tidy_db_one_default))
           (address_row "a1" "p1" "Home" true 10)).
  - apply list_elem_of_here.
  - reflexivity.
  - reflexivity.
  - reflexivity.
Defined.

End AddressExtras.

(** ** Profiles and preferences: what the service writes *)

Module ProfileExtras.

Import UserProfileService Spec Notions SupabaseFacts.

Lemma Forall2_diag {A} (R : A → A → Prop) (l : list A) :
  (∀ x, R x x) → Forall2 R l l.
Proof. intros HR. induction l; constructor; auto. Qed.

Lemma preferences_footprint gen (db : Remote) (userId : string) :
  user_addresses (getOrCreatePreferences gen db userId).2 = user_addresses db
  ∧ ∃ extra,
      user_preferences (getOrCreatePreferences gen db userId).2
      = user_preferences db ++ extra
      ∧ (length extra ≤ 1)%nat
      ∧ Forall (λ r, UserPreferences.user_id r = userId) extra.
Proof.
  unfold getOrCreatePreferences. destruct (Supabase.single _); cbn [snd].
  - split; [done|]. exists []. rewrite app_nil_r.
    split; [done|]. split; [simpl; lia | constructor].
  - split; [done|]. eexists [_]. cbn [with_preferences user_preferences].
    split; [done|]. split; [simpl; lia|]. by constructor.
Qed.

(** X24.  In a store with at most one preferences row per user,
    [getOrCreatePreferences] always returns a row of the user, which is
    afterwards the user's only row; the rows of the other users, the
    profiles and the addresses stay as they are, and a second call
    returns the same row without writing. *)
Theorem getOrCreatePreferences_spec (gen_random_uuid : Remote → string)
    (db : Remote) (userId : string) :
  one_preferences_per_user db →
  ∃ prefs,
    (getOrCreatePreferences gen_random_uuid db userId).1 = Some prefs
    ∧ UserPreferences.user_id prefs = userId
    ∧ filter (λ row, UserPreferences.user_id row = userId)
        (user_preferences (getOrCreatePreferences gen_random_uuid db userId).2)
      = [prefs]
    ∧ (∀ v, v ≠ userId →
         filter (λ row, UserPreferences.user_id row = v)
           (user_preferences
              (getOrCreatePreferences gen_random_uuid db userId).2)
         = filter (λ row, UserPreferences.user_id row = v)
             (user_preferences db))
    ∧ user_profiles (getOrCreatePreferences gen_random_uuid db userId).2
      = user_profiles db
    ∧ user_addresses (getOrCreatePreferences gen_random_uuid db userId).2
      = user_addresses db
    ∧ getOrCreatePreferences gen_random_uuid
        (getOrCreatePreferences gen_random_uuid db userId).2 userId
      = getOrCreatePreferences gen_random_uuid db userId.
Proof.
  intros Hone. specialize (Hone userId). unfold getOrCreatePreferences.
  destruct (Supabase.single _) as [e|] eqn:He; cbn [fst snd].
  - exists e. pose proof He as Hl. apply single_Some in Hl.
    assert (e ∈ filter (λ row, UserPreferences.user_id row = userId)
                  (user_preferences db)) as Hin
      by (rewrite Hl; apply list_elem_of_here).
    apply list_elem_of_filter in Hin as [Hu _].
    repeat split; try done. by rewrite He.
  - apply single_None_short in He; [|done].
    eexists. split; [reflexivity|]. cbn [with_preferences user_preferences].
    split; [done|]. split; [|split; [|split; [|split]]]; try done.
    + by rewrite filter_app, He, filter_cons, decide_True, filter_nil.
    + intros v Hv. rewrite filter_app, filter_cons, filter_nil.
      rewrite decide_False by (simpl; congruence). by rewrite app_nil_r.
    + rewrite filter_app, He, filter_cons, decide_True, filter_nil by done.
      done.
Qed.

Lemma getOrCreatePreferences_spec_witness :
  ∃ prefs,
    (getOrCreatePreferences guest_uuid guest_db "u1").1 = Some prefs
    ∧ UserPreferences.user_id prefs = "u1".
Proof.
  destruct (getOrCreatePreferences_spec guest_uuid guest_db "u1")
    as (prefs & H1 & H2 & _).
  - intros u. simpl. lia.
  - exists prefs. by split.
Defined.

(** X25.  [getOrCreateProfile] never writes to the addresses.  Of the
    existing profiles it changes nothing but the owner, which it may set
    to the caller; their number and order stay, and at most one profile
    is added, at the end.  At most one preferences row is added, for the
    caller, and only together with a new profile. *)
Theorem getOrCreateProfile_footprint (gen_random_uuid : Remote → string)
    (db : Remote) (userId email0 : string) :
  user_addresses (getOrCreateProfile gen_random_uuid db userId email0).2
  = user_addresses db
  ∧ ∃ kept created added,
      user_profiles (getOrCreateProfile gen_random_uuid db userId email0).2
      = kept ++ created
      ∧ Forall2 (λ row row',
                   set_user_id userId row' = set_user_id userId row
                   ∧ (UserProfile.user_id row' = UserProfile.user_id row
                      ∨ UserProfile.user_id row' = Some userId))
          (user_profiles db) kept
      ∧ (length created ≤ 1)%nat
      ∧ user_preferences
          (getOrCreateProfile gen_random_uuid db userId email0).2
        = user_preferences db ++ added
      ∧ (length added ≤ length created)%nat
      ∧ Forall (λ r, UserPreferences.user_id r = userId) added.
Proof.
  unfold getOrCreateProfile.
  destruct (Supabase.single (filter _ _)) as [existing|]; cbn [snd].
  { split; [done|]. exists (user_profiles db), [], [].
    rewrite !app_nil_r. split; [done|].
    split; [apply Forall2_diag; intros x; by split; [|left]|].
    split; [simpl; lia|]. split; [done|]. split; [simpl; lia | constructor]. }
  destruct (Supabase.single (filter _ _)) as [byEmail|].
  - assert (∀ o : option UserProfile.t,
              (match o with
               | Some updatedProfile =>
                   (Some updatedProfile,
                    with_profiles db
                      (Supabase.update
                         (λ row, bool_decide
                                   (UserProfile.id row = UserProfile.id byEmail))
                         (set_user_id userId) (user_profiles db)))
               | None =>
                   (None,
                    with_profiles db
                      (Supabase.update
                         (λ row, bool_decide
                                   (UserProfile.id row = UserProfile.id byEmail))
                         (set_user_id userId) (user_profiles db)))
               end).2
              = with_profiles db
                  (Supabase.update
                     (λ row, bool_decide
                               (UserProfile.id row = UserProfile.id byEmail))
                     (set_user_id userId) (user_profiles db))) as Hsnd
      by (by intros [?|]).
    cbn zeta. rewrite Hsnd. cbn [with_profiles user_addresses user_profiles
                                 user_preferences].
    split; [done|]. eexists _, [], []. rewrite !app_nil_r.
    split; [done|]. split.
    { unfold Supabase.update. apply Forall2_fmap_r, Forall2_diag. intros x.
      unfold compose. cbn beta.
      destruct (bool_decide (UserProfile.id x = UserProfile.id byEmail));
        [|by split; [|left]].
      by split; [|right]. }
    split; [simpl; lia|]. split; [done|]. split; [simpl; lia | constructor].
  - cbn zeta. cbn [snd].
    destruct (preferences_footprint gen_random_uuid
                (with_profiles db
                   (user_profiles db
                    ++ [ {| UserProfile.id := gen_random_uuid db;
                            UserProfile.user_id := Some userId;
                            UserProfile.name :=
                              Some (JS.split_head JS.at_sign email0);
                            UserProfile.email := email0;
                            UserProfile.phone := None;
                            UserProfile.avatar_url := None |} ])) userId)
      as (Ha & extra & Hp & Hlen & Hall).
    rewrite Ha, Hp, ProfileClaims.preferences_keep_profiles.
    cbn [with_profiles user_addresses user_profiles user_preferences].
    split; [done|]. eexists _, [_], extra.
    split; [done|].
    split; [apply Forall2_diag; intros x; by split; [|left]|].
    split; [simpl; lia|]. split; [done|]. split; [simpl; lia | done].
Qed.

Lemma profiles_after_update (db : Remote) (userId v : string)
    (u : ProfileWrites.ProfileUpdates) :
  profiles_of (ProfileWrites.updateProfile db userId u) v
  = if decide (v = userId)
    then ProfileWrites.apply_profile_updates u <$> profiles_of db v
    else profiles_of db v.
Proof.
  unfold profiles_of, ProfileWrites.updateProfile.
  cbn [with_profiles user_profiles]. unfold Supabase.update.
  induction (user_profiles db) as [|r rows IH].
  - by destruct (decide (v = userId)).
  - rewrite fmap_cons, !filter_cons, IH.
    destruct (bool_decide_reflect (UserProfile.user_id r = Some userId))
      as [Hr|Hr].
    + cbn [ProfileWrites.apply_profile_updates UserProfile.user_id].
      destruct (decide (v = userId)) as [->|Hv].
      * by rewrite !decide_True, fmap_cons by done.
      * by rewrite !decide_False by congruence.
    + destruct (decide (v = userId)) as [->|Hv].
      * by destruct (decide (UserProfile.user_id r = Some userId)).
      * done.
Qed.

(** X26.  The service's [updateProfile] writes only to the profiles bound
    to the given user: they take the given name, phone and avatar, where
    given, and keep their id, owner and email; every other profile, the
    number and the order of the rows, the addresses and the preferences
    stay as they are.  With no profile bound to the user, nothing is
    written. *)
Theorem updateProfile_effect (db : Remote) (userId : string)
    (u : ProfileWrites.ProfileUpdates) :
  profiles_of (ProfileWrites.updateProfile db userId u) userId
  = ProfileWrites.apply_profile_updates u <$> profiles_of db userId
  ∧ Forall2 (λ row row',
               UserProfile.id row' = UserProfile.id row
               ∧ UserProfile.user_id row' = UserProfile.user_id row
               ∧ UserProfile.email row' = UserProfile.email row
               ∧ (UserProfile.user_id row ≠ Some userId → row' = row))
      (user_profiles db)
      (user_profiles (ProfileWrites.updateProfile db userId u))
  ∧ user_addresses (ProfileWrites.updateProfile db userId u)
    = user_addresses db
  ∧ user_preferences (ProfileWrites.updateProfile db userId u)
    = user_preferences db
  ∧ (profiles_of db userId = [] →
     ProfileWrites.updateProfile db userId u = db)
  ∧ (one_profile_per_identity db →
     one_profile_per_identity (ProfileWrites.updateProfile db userId u)).
Proof.
  split; [|split; [|split; [|split; [|split]]]]; try done.
  - by rewrite profiles_after_update, decide_True.
  - unfold ProfileWrites.updateProfile. cbn [with_profiles user_profiles].
    unfold Supabase.update. apply Forall2_fmap_r, Forall2_diag. intros x.
    unfold compose. cbn beta.
    destruct (bool_decide_reflect (UserProfile.user_id x = Some userId));
      done.
  - intros Hnone. unfold ProfileWrites.updateProfile.
    assert (Supabase.update
              (λ row, bool_decide (UserProfile.user_id row = Some userId))
              (ProfileWrites.apply_profile_updates u) (user_profiles db)
            = user_profiles db) as ->; [|by destruct db].
    unfold profiles_of in Hnone. apply (filter_nil_Forall _ _) in Hnone.
    unfold Supabase.update. induction Hnone as [|r rows Hr _ IH]; [done|].
    by rewrite fmap_cons, IH, bool_decide_eq_false_2.
  - intros Hone v. rewrite profiles_after_update.
    destruct (decide (v = userId)); [rewrite length_fmap|]; apply Hone.
Qed.

Lemma updateProfile_effect_witness :
  ProfileWrites.updateProfile guest_db "u9"
    {| ProfileWrites.u_name := Some (Some "Zed");
       ProfileWrites.u_phone := None;
       ProfileWrites.u_avatar_url := None |}
  = guest_db.
Proof.
  apply (proj1 (proj2 (proj2 (proj2 (proj2
           (updateProfile_effect guest_db "u9"
              {| ProfileWrites.u_name := Some (Some "Zed");
                 ProfileWrites.u_phone := None;
                 ProfileWrites.u_avatar_url := None |})))))).
  reflexivity.
Defined.

End ProfileExtras.

(** ** The user provider: members, guests and the session *)

Module UserProviderExtras.

Import UserContext Spec Notions SupabaseFacts.









Lemma filter_other_ids (id0 : string) (l : list UserAddress.t) :
  id0 ∉ UserAddress.id <$> l →
  filter (λ addr, UserAddress.id addr ≠ id0) l = l.
Proof.
  intros Hout. apply CartInvariants.filter_all, Forall_forall.
  intros x Hx Hid. apply Hout. apply list_elem_of_fmap. by exists x.
Qed.

Lemma state_eta (s : UserState) (p : UserProfile) :
  profile s = Some p → with_profile s (with_addresses p (addresses p)) = s.
Proof. destruct s, p. simpl. by intros [= ->]. Qed.

(** X29.  In the reducer, an address id that no address of the profile
    has makes [UPDATE_ADDRESS] and [DELETE_ADDRESS] leave the state as it
    is, and adding an address with that id and deleting it again gives
    the state back; [SET_DEFAULT_ADDRESS] with such an id, however,
    leaves the profile without any default address. *)
Theorem address_actions_with_absent_id (s : UserState) (p : UserProfile)
    (id0 : string) :
  profile s = Some p →
  id0 ∉ UserAddress.id <$> addresses p →
  (∀ u, userReducer s (UPDATE_ADDRESS id0 u) = s)
  ∧ userReducer s (DELETE_ADDRESS id0) = s
  ∧ (∀ a, UserAddress.id a = id0 →
          userReducer (userReducer s (ADD_ADDRESS a)) (DELETE_ADDRESS id0) = s)
  ∧ ∃ p',
      profile (userReducer s (SET_DEFAULT_ADDRESS id0)) = Some p'
      ∧ defaults (addresses p') = []
      ∧ UserAddress.id <$> addresses p' = UserAddress.id <$> addresses p.
Proof.
  intros Hp Hout. split; [|split; [|split]].
  - intros u. cbn [userReducer]. rewrite Hp.
    rewrite <- (state_eta s p Hp) at 2. do 2 f_equal.
    rewrite <- (list_fmap_id (addresses p)) at 2.
    apply list_fmap_ext. intros i x Hx. cbn [id].
    rewrite bool_decide_eq_false_2; [done|]. intros Hid. apply Hout.
    apply list_elem_of_fmap. exists x. split; [done|].
    by apply list_elem_of_lookup_2 in Hx.
  - cbn [userReducer]. rewrite Hp. rewrite filter_other_ids by done.
    by apply state_eta.
  - intros a Ha. cbn [userReducer]. rewrite Hp.
    cbn [with_profile profile with_addresses addresses].
    rewrite filter_app, filter_other_ids by done.
    rewrite filter_cons, decide_False, filter_nil, app_nil_r
      by (intros Hne; by apply Hne).
    destruct s, p. simpl in *. by inversion Hp.
  - cbn [userReducer]. rewrite Hp. eexists. split; [reflexivity|].
    cbn [with_addresses addresses]. split.
    + unfold defaults. apply filter_none, Forall_forall. intros x Hx.
      apply list_elem_of_fmap in Hx as (y & -> & Hy). simpl.
      rewrite bool_decide_eq_false_2; [done|]. intros Hid. apply Hout.
      apply list_elem_of_fmap. by exists y.
    + rewrite <- list_fmap_compose. by apply list_fmap_ext.
Qed.

Lemma address_actions_with_absent_id_witness :
  userReducer (state guest_world) (DELETE_ADDRESS "address_9")
  = state guest_world.
Proof.
  apply (address_actions_with_absent_id (state guest_world) guest_profile
           "address_9").
  - reflexivity.
  - apply (bool_decide_unpack _). vm_compute. exact I.
Defined.





End UserProviderExtras.
